(** * Fintech analytics dashboard: schema provisioner, data generator, query layer

    A shallow embedding of [setup_database.py], [generate_data.py] and
    [database.py], followed by the properties of the specification that
    concern them.

    Conventions of the embedding.
    - Money.  Every amount the generator stores is [round(x, 2)], a decimal
      with two fractional digits.  Amounts are integers counting cents and
      the result of [ROUND(e, 2)] is an integer counting hundredths: the
      [REAL] arithmetic of SQLite is idealised to exact decimal arithmetic,
      with ties rounded away from zero.
    - Time.  A [datetime] is an integer number of microseconds on the naive
      local time line; [strftime('%Y-%m-%d %H', d)] and [DATE(d)] are the
      numbers of the hour and of the day that contain [d].
    - Tables are lists of rows in insertion order; [INTEGER PRIMARY KEY
      AUTOINCREMENT] is the per-table counter of [sqlite_sequence].  The
      column [created_at] is read by no query and is left out.  Data
      statements assume the provisioned schema.
    - The outside world.  The draws of [random], the strings of Faker, the
      readings of [datetime.now()] and the failures of the storage layer are
      oracles, consulted in program order; a failure of the storage layer
      is how an exception arises in the middle of a run. *)

From Stdlib Require Import ZArith List String Bool Lia Permutation Sorted.
Import ListNotations.

Local Open Scope string_scope.
Local Open Scope list_scope.
Local Open Scope Z_scope.

(** ** The SQL engine fragment used by the queries *)

Module Sqlite.

(** [LIMIT n]: a negative limit means no upper bound. *)
Definition limit {A : Type} (n : Z) (rows : list A) : list A :=
  if n <? 0 then rows else firstn (Z.to_nat n) rows.

Fixpoint insert_desc {A : Type} (key : A -> Z) (x : A) (l : list A) : list A :=
  match l with
  | [] => [x]
  | y :: r => if key y <=? key x then x :: y :: r else y :: insert_desc key x r
  end.

(** [ORDER BY key DESC], stable with respect to the scan order. *)
Definition order_by_desc {A : Type} (key : A -> Z) (rows : list A) : list A :=
  fold_right (insert_desc key) [] rows.

(** First row of every group, in scan order. *)
Fixpoint distinct_by {A K : Type} (eqb : K -> K -> bool) (key : A -> K)
    (rows : list A) : list A :=
  match rows with
  | [] => []
  | x :: r => x :: filter (fun y => negb (eqb (key y) (key x))) (distinct_by eqb key r)
  end.

(** [GROUP BY key]: each group is its first row (the source of bare
    columns) together with all of its rows. *)
Definition group_by {A K : Type} (eqb : K -> K -> bool) (key : A -> K)
    (rows : list A) : list (A * list A) :=
  map (fun x => (x, filter (fun y => eqb (key y) (key x)) rows))
      (distinct_by eqb key rows).

Definition total (l : list Z) : Z := fold_right Z.add 0 l.

Definition count {A : Type} (l : list A) : Z := Z.of_nat (List.length l).

(** [SUM(e)]: NULL over no rows. *)
Definition SUM (l : list Z) : option Z :=
  match l with [] => None | _ => Some (total l) end.

(** Nearest integer to [p / q], ties away from zero ([0 < q]). *)
Definition round_div (p q : Z) : Z :=
  if p <? 0 then - ((2 * (- p) + q) / (2 * q)) else (2 * p + q) / (2 * q).

(** [ROUND(AVG(e), 2)] over cents: NULL over no rows. *)
Definition ROUND_AVG (l : list Z) : option Z :=
  match l with [] => None | _ => Some (round_div (total l) (count l)) end.

(** [ROUND(100.0 * n / d, 2)] in hundredths of a percent; NULL when [n] is
    NULL or [d] is zero (SQLite division by zero yields NULL). *)
Definition ROUND_PERCENT (n : option Z) (d : Z) : option Z :=
  match n with
  | None => None
  | Some a => if d =? 0 then None else Some (round_div (10000 * a) d)
  end.

Definition pair_eqb (a b : Z * Z) : bool :=
  (fst a =? fst b) && (snd a =? snd b).

(** [ORDER BY key] (ascending), stable with respect to the scan order. *)
Definition order_by_asc {A : Type} (key : A -> Z) (rows : list A) : list A :=
  order_by_desc (fun x => - key x) rows.

End Sqlite.

(** ** Data model (the three tables of [setup_database.py]) *)

Record customer := {
  c_id : Z;
  c_name : string;
  c_email : string;
  c_phone : string;
  c_document : string
}.

Record merchant := {
  m_id : Z;
  m_name : string;
  m_category : string;
  m_document : string
}.

Record transaction := {
  t_id : Z;
  t_customer_id : Z;
  t_merchant_id : Z;
  t_amount : Z;
  t_payment_method : string;
  t_status : string;
  t_transaction_date : Z;
  t_description : string
}.

Inductive object_kind := Table | Index | View.

Record sql_object := {
  obj_kind : object_kind;
  obj_name : string;
  obj_table : string
}.

(** The content of [fintech_data.db]. *)
Record database := {
  schema : list sql_object;
  customers : list customer;
  merchants : list merchant;
  transactions : list transaction;
  seq_customers : Z;
  seq_merchants : Z;
  seq_transactions : Z
}.

Definition timedelta (days hours minutes seconds : Z) : Z :=
  (((days * 24 + hours) * 60 + minutes) * 60 + seconds) * 1000000.

(** [strftime('%Y-%m-%d %H', d)] *)
Definition hour_window (d : Z) : Z := d / 3600000000.

(** [DATE(d)] *)
Definition DATE (d : Z) : Z := d / 86400000000.

Definition approved (t : transaction) : bool := String.eqb (t_status t) "approved".

Inductive exn := IntegrityError | OperationalError | IndexError | ValueError | TypeError.

Inductive outcome (A : Type) :=
| Ok (a : A)
| Raise (e : exn).
Arguments Ok {A} a.
Arguments Raise {A} e.

(** ** [setup_database.py] *)

Module SetupDatabase.

Inductive ddl :=
| CreateTableIfNotExists (name : string)
| CreateIndex (name table : string)
| CreateViewIfNotExists (name : string).

(** What [sqlite3.connect] finds after the file was removed. *)
Definition empty_database : database :=
  {| schema := []; customers := []; merchants := []; transactions := [];
     seq_customers := 0; seq_merchants := 0; seq_transactions := 0 |}.

Definition is_index (o : sql_object) : bool :=
  match obj_kind o with Index => true | _ => false end.

Definition is_table (o : sql_object) : bool :=
  match obj_kind o with Table => true | _ => false end.

Definition is_view (o : sql_object) : bool :=
  match obj_kind o with View => true | _ => false end.

Definition named (name : string) (o : sql_object) : bool :=
  String.eqb (obj_name o) name.

Definition add_object (o : sql_object) (db : database) : database :=
  {| schema := schema db ++ [o];
     customers := customers db; merchants := merchants db;
     transactions := transactions db;
     seq_customers := seq_customers db; seq_merchants := seq_merchants db;
     seq_transactions := seq_transactions db |}.

(** Tables, views and indexes share one namespace.  [IF NOT EXISTS] turns a
    clash with a table or view into a no-op; a clash with an index, and any
    clash of [CREATE INDEX], is an error. *)
Definition create_if_not_exists (k : object_kind) (name : string)
    (db : database) : outcome database :=
  if existsb (fun o => named name o && negb (is_index o)) (schema db) then Ok db
  else if existsb (named name) (schema db) then Raise OperationalError
  else Ok (add_object {| obj_kind := k; obj_name := name; obj_table := "" |} db).

Definition execute (stmt : ddl) (db : database) : outcome database :=
  match stmt with
  | CreateTableIfNotExists name => create_if_not_exists Table name db
  | CreateViewIfNotExists name => create_if_not_exists View name db
  | CreateIndex name table =>
      if existsb (named name) (schema db) then Raise OperationalError
      else if existsb (fun o => named table o && is_table o) (schema db)
      then Ok (add_object {| obj_kind := Index; obj_name := name; obj_table := table |} db)
      else Raise OperationalError
  end.

(** The statements of [create_database], in program order. *)
Definition statements : list ddl :=
  [ CreateTableIfNotExists "customers";
    CreateTableIfNotExists "merchants";
    CreateTableIfNotExists "transactions";
    CreateIndex "idx_transaction_date" "transactions";
    CreateIndex "idx_transaction_status" "transactions";
    CreateIndex "idx_transaction_method" "transactions";
    CreateIndex "idx_customer_id" "transactions";
    CreateIndex "idx_merchant_id" "transactions";
    CreateViewIfNotExists "daily_summary";
    CreateViewIfNotExists "merchant_performance" ].

(** DDL runs in autocommit mode: every statement that succeeds is durable,
    and the first one that fails aborts the script. *)
Fixpoint execute_all (stmts : list ddl) (db : database) : outcome unit * database :=
  match stmts with
  | [] => (Ok tt, db)
  | stmt :: rest =>
      match execute stmt db with
      | Ok db' => execute_all rest db'
      | Raise e => (Raise e, db)
      end
  end.

(** [file] is the content of [fintech_data.db] before the call, [None] when
    the file does not exist; the result carries the file afterwards. *)
Definition create_database (file : option database) : outcome unit * option database :=
  let removed : option database :=
    match file with Some _ => None | None => None end in
  let conn := match removed with Some db => db | None => empty_database end in
  let '(r, db) := execute_all statements conn in
  (r, Some db).


(** *** The views created by [create_database] *)

(** A row of the view [daily_summary]. *)
Record daily_summary_row := {
  dv_date : Z;
  dv_total_transactions : Z;
  dv_approved_count : Z;
  dv_declined_count : Z;
  dv_total_volume : Z;
  dv_avg_amount : Z
}.

Definition daily_summary_of_group (g : transaction * list transaction)
    : daily_summary_row :=
  {| dv_date := DATE (t_transaction_date (fst g));
     dv_total_transactions := Sqlite.count (snd g);
     dv_approved_count :=
       Sqlite.total (map (fun t => if String.eqb (t_status t) "approved" then 1 else 0)
                         (snd g));
     dv_declined_count :=
       Sqlite.total (map (fun t => if String.eqb (t_status t) "declined" then 1 else 0)
                         (snd g));
     dv_total_volume := Sqlite.total (map t_amount (snd g));
     dv_avg_amount := Sqlite.round_div (Sqlite.total (map t_amount (snd g)))
                                       (Sqlite.count (snd g)) |}.

(** [SELECT * FROM daily_summary] *)
Definition daily_summary (db : database) : list daily_summary_row :=
  Sqlite.order_by_desc dv_date
    (map daily_summary_of_group
       (Sqlite.group_by Z.eqb (fun t => DATE (t_transaction_date t)) (transactions db))).

(** A row of the view [merchant_performance]. *)
Record merchant_performance_row := {
  mp_id : Z;
  mp_name : string;
  mp_category : string;
  mp_total_transactions : Z;
  mp_total_volume : option Z;
  mp_avg_ticket : option Z;
  mp_approved_count : Z;
  mp_approval_rate : option Z
}.

(** [FROM merchants m LEFT JOIN transactions t ON m.id = t.merchant_id]: a
    merchant without transactions is kept, joined to an all-NULL row. *)
Definition left_join_merchants_transactions (db : database)
    : list (merchant * option transaction) :=
  flat_map (fun m =>
    match filter (fun t => m_id m =? t_merchant_id t) (transactions db) with
    | [] => [(m, None)]
    | ts => map (fun t => (m, Some t)) ts
    end) (merchants db).

(** The non-NULL values of a column of [t] over the rows of a group. *)
Definition column {A : Type} (f : transaction -> A)
    (g : list (merchant * option transaction)) : list A :=
  flat_map (fun mt => match snd mt with Some t => [f t] | None => [] end) g.

Definition merchant_performance_of_group
    (g : (merchant * option transaction) * list (merchant * option transaction))
    : merchant_performance_row :=
  let approved_count :=
    Sqlite.total (map (fun mt => match snd mt with
                                 | Some t => if String.eqb (t_status t) "approved"
                                             then 1 else 0
                                 | None => 0
                                 end) (snd g)) in
  {| mp_id := m_id (fst (fst g));
     mp_name := m_name (fst (fst g));
     mp_category := m_category (fst (fst g));
     mp_total_transactions := Sqlite.count (column t_id (snd g));
     mp_total_volume := Sqlite.SUM (column t_amount (snd g));
     mp_avg_ticket := Sqlite.ROUND_AVG (column t_amount (snd g));
     mp_approved_count := approved_count;
     mp_approval_rate :=
       Sqlite.ROUND_PERCENT (Some approved_count) (Sqlite.count (column t_id (snd g))) |}.

(** [SELECT * FROM merchant_performance], in the order of the groups. *)
Definition merchant_performance (db : database) : list merchant_performance_row :=
  map merchant_performance_of_group
    (Sqlite.group_by Z.eqb (fun mt => m_id (fst mt))
       (left_join_merchants_transactions db)).

End SetupDatabase.

(** ** [database.py] *)

Module Database.

Import Sqlite.

(** *** [get_top_merchants] *)

Record top_merchant_row := {
  tm_name : string;
  tm_category : string;
  tm_total_transactions : Z;
  tm_total_volume : Z;
  tm_avg_ticket : Z;
  tm_approval_rate : option Z
}.

(** [FROM merchants m JOIN transactions t ON m.id = t.merchant_id] *)
Definition join_merchants_transactions (db : database) : list (merchant * transaction) :=
  flat_map (fun m =>
    map (fun t => (m, t))
        (filter (fun t => m_id m =? t_merchant_id t) (transactions db)))
    (merchants db).

Definition count_approved (g : list (merchant * transaction)) : list Z :=
  map (fun mt => if approved (snd mt) then 1 else 0) g.

Definition top_merchant_of_group (g : (merchant * transaction) * list (merchant * transaction))
    : top_merchant_row :=
  let amounts := map (fun mt => t_amount (snd mt)) (snd g) in
  {| tm_name := m_name (fst (fst g));
     tm_category := m_category (fst (fst g));
     tm_total_transactions := count (snd g);
     tm_total_volume := total amounts;
     tm_avg_ticket := round_div (total amounts) (count (snd g));
     tm_approval_rate := ROUND_PERCENT (SUM (count_approved (snd g))) (count (snd g)) |}.

Definition get_top_merchants (db : database) (limit_ : Z) : list top_merchant_row :=
  limit limit_
    (order_by_desc tm_total_volume
       (map top_merchant_of_group
          (group_by Z.eqb (fun mt => m_id (fst mt))
             (filter (fun mt => approved (snd mt)) (join_merchants_transactions db))))).

(** *** [get_category_performance] *)

Record category_row := {
  cp_category : string;
  cp_total_transactions : Z;
  cp_total_volume : Z;
  cp_avg_ticket : Z
}.

Definition category_of_group (g : (merchant * transaction) * list (merchant * transaction))
    : category_row :=
  {| cp_category := m_category (fst (fst g));
     cp_total_transactions := count (snd g);
     cp_total_volume :=
       total (map (fun mt => if approved (snd mt) then t_amount (snd mt) else 0) (snd g));
     cp_avg_ticket :=
       round_div (total (map (fun mt => t_amount (snd mt)) (snd g))) (count (snd g)) |}.

Definition get_category_performance (db : database) : list category_row :=
  order_by_desc cp_total_volume
    (map category_of_group
       (group_by String.eqb (fun mt => m_category (fst mt))
          (join_merchants_transactions db))).

(** *** [get_anomalies] *)

Record high_value_row := {
  hv_id : Z;
  hv_transaction_date : Z;
  hv_customer_name : string;
  hv_merchant_name : string;
  hv_amount : Z;
  hv_payment_method : string;
  hv_status : string;
  hv_anomaly_type : string
}.

Record high_frequency_row := {
  hf_customer_id : Z;
  hf_customer_name : string;
  hf_hour_window : Z;
  hf_transactions_count : Z;
  hf_anomaly_type : string
}.

(** [FROM transactions t JOIN customers c ON t.customer_id = c.id
     JOIN merchants m ON t.merchant_id = m.id] *)
Definition join_transactions_customers_merchants (db : database)
    : list (transaction * customer * merchant) :=
  flat_map (fun t =>
    flat_map (fun c =>
      map (fun m => (t, c, m))
          (filter (fun m => t_merchant_id t =? m_id m) (merchants db)))
      (filter (fun c => t_customer_id t =? c_id c) (customers db)))
    (transactions db).

Definition high_value_of (r : transaction * customer * merchant) : high_value_row :=
  let '(t, c, m) := r in
  {| hv_id := t_id t;
     hv_transaction_date := t_transaction_date t;
     hv_customer_name := c_name c;
     hv_merchant_name := m_name m;
     hv_amount := t_amount t;
     hv_payment_method := t_payment_method t;
     hv_status := t_status t;
     hv_anomaly_type := "high_value" |}.

Definition query_high_value (db : database) (threshold_amount : Z) : list high_value_row :=
  limit 50
    (order_by_desc hv_amount
       (map high_value_of
          (filter (fun r => t_amount (fst (fst r)) >? threshold_amount)
             (join_transactions_customers_merchants db)))).

(** A row of the [customer_hourly] common table expression. *)
Record customer_hourly_row := {
  ch_customer_id : Z;
  ch_hour_window : Z;
  ch_transactions_count : Z
}.

Definition customer_hour (t : transaction) : Z * Z :=
  (t_customer_id t, hour_window (t_transaction_date t)).

Definition customer_hourly (db : database) (threshold_frequency : Z)
    : list customer_hourly_row :=
  map (fun g => {| ch_customer_id := t_customer_id (fst g);
                   ch_hour_window := hour_window (t_transaction_date (fst g));
                   ch_transactions_count := count (snd g) |})
    (filter (fun g => count (snd g) >=? threshold_frequency)
       (group_by pair_eqb customer_hour (transactions db))).

Definition join_hourly_customers_transactions (db : database)
    (chs : list customer_hourly_row)
    : list (customer_hourly_row * customer * transaction) :=
  flat_map (fun ch =>
    flat_map (fun c =>
      map (fun t => (ch, c, t))
          (filter (fun t => (t_customer_id t =? ch_customer_id ch)
                            && (hour_window (t_transaction_date t) =? ch_hour_window ch))
                  (transactions db)))
      (filter (fun c => ch_customer_id ch =? c_id c) (customers db)))
    chs.

Definition high_frequency_of
    (g : (customer_hourly_row * customer * transaction)
         * list (customer_hourly_row * customer * transaction)) : high_frequency_row :=
  let '(ch, c, t) := fst g in
  {| hf_customer_id := t_customer_id t;
     hf_customer_name := c_name c;
     hf_hour_window := ch_hour_window ch;
     hf_transactions_count := ch_transactions_count ch;
     hf_anomaly_type := "high_frequency" |}.

Definition query_frequency (db : database) (threshold_frequency : Z)
    : list high_frequency_row :=
  limit 50
    (order_by_desc hf_transactions_count
       (map high_frequency_of
          (group_by pair_eqb
             (fun r => (t_customer_id (snd r), ch_hour_window (fst (fst r))))
             (join_hourly_customers_transactions db
                (customer_hourly db threshold_frequency))))).

Definition get_anomalies (db : database) (threshold_amount threshold_frequency : Z)
    : list high_value_row * list high_frequency_row :=
  (query_high_value db threshold_amount, query_frequency db threshold_frequency).

(** *** [get_kpis] *)

Record kpis := {
  kpi_total_transactions : Z;
  kpi_total_volume : option Z;
  kpi_avg_ticket : option Z;
  kpi_approval_rate : option Z;
  kpi_total_customers : Z;
  kpi_total_merchants : Z
}.

Definition approved_count (db : database) : Z :=
  count (filter approved (transactions db)).

Definition get_kpis (db : database) : kpis :=
  let ts := transactions db in
  {| kpi_total_transactions := count ts;
     kpi_total_volume := SUM (map (fun t => if approved t then t_amount t else 0) ts);
     kpi_avg_ticket := ROUND_AVG (map t_amount ts);
     kpi_approval_rate :=
       ROUND_PERCENT (SUM (map (fun t => if approved t then 1 else 0) ts)) (count ts);
     kpi_total_customers := count (customers db);
     kpi_total_merchants := count (merchants db) |}.

(** *** [get_transactions_filtered] *)

Record listing_row := {
  ls_id : Z;
  ls_transaction_date : Z;
  ls_customer_name : string;
  ls_merchant_name : string;
  ls_category : string;
  ls_amount : Z;
  ls_payment_method : string;
  ls_status : string;
  ls_description : string
}.

(** The conditions appended to [WHERE 1=1], each with its parameter. *)
Inductive condition :=
| DateGe (d : Z)
| DateLe (d : Z)
| PaymentMethodEq (s : string)
| StatusEq (s : string).

(** Python truth value of an optional string argument. *)
Definition truthy (s : option string) : bool :=
  match s with
  | None => false
  | Some s => negb (String.eqb s "")
  end.

Definition where_clause (start_date end_date : option Z)
    (payment_method status : option string) : list condition :=
  (match start_date with Some d => [DateGe d] | None => [] end)
  ++ (match end_date with Some d => [DateLe d] | None => [] end)
  ++ (match payment_method with
      | Some s => if truthy payment_method && negb (String.eqb s "Todos")
                  then [PaymentMethodEq s] else []
      | None => []
      end)
  ++ (match status with
      | Some s => if truthy status && negb (String.eqb s "Todos")
                  then [StatusEq s] else []
      | None => []
      end).

Definition holds (t : transaction) (c : condition) : bool :=
  match c with
  | DateGe d => DATE (t_transaction_date t) >=? d
  | DateLe d => DATE (t_transaction_date t) <=? d
  | PaymentMethodEq s => String.eqb (t_payment_method t) s
  | StatusEq s => String.eqb (t_status t) s
  end.

Definition listing_of (r : transaction * customer * merchant) : listing_row :=
  let '(t, c, m) := r in
  {| ls_id := t_id t;
     ls_transaction_date := t_transaction_date t;
     ls_customer_name := c_name c;
     ls_merchant_name := m_name m;
     ls_category := m_category m;
     ls_amount := t_amount t;
     ls_payment_method := t_payment_method t;
     ls_status := t_status t;
     ls_description := t_description t |}.

Definition get_transactions_filtered (db : database)
    (start_date end_date : option Z) (payment_method status : option string)
    (limit_ : Z) : list listing_row :=
  let conditions := where_clause start_date end_date payment_method status in
  limit limit_
    (order_by_desc ls_transaction_date
       (map listing_of
          (filter (fun r => forallb (holds (fst (fst r))) conditions)
             (join_transactions_customers_merchants db)))).


(** *** [get_daily_summary] *)

Record daily_row := {
  ds_date : Z;
  ds_total_transactions : Z;
  ds_approved : Z;
  ds_declined : Z;
  ds_pending : Z;
  ds_refunded : Z;
  ds_total_volume : Z;
  ds_avg_amount : Z;
  ds_approval_rate : option Z
}.

(** [SUM(CASE WHEN status = s THEN 1 ELSE 0 END)] over a group. *)
Definition count_status (s : string) (g : list transaction) : Z :=
  total (map (fun t => if String.eqb (t_status t) s then 1 else 0) g).

(** [SUM(CASE WHEN status = 'approved' THEN amount ELSE 0 END)] over a group. *)
Definition approved_volume (g : list transaction) : Z :=
  total (map (fun t => if approved t then t_amount t else 0) g).

(** [ROUND(100.0 * SUM(CASE WHEN status = 'approved' THEN 1 ELSE 0 END)
     / COUNT( * ), 2)] over a group. *)
Definition approval_rate_of (g : list transaction) : option Z :=
  ROUND_PERCENT (SUM (map (fun t => if approved t then 1 else 0) g)) (count g).

Definition daily_of_group (g : transaction * list transaction) : daily_row :=
  {| ds_date := DATE (t_transaction_date (fst g));
     ds_total_transactions := count (snd g);
     ds_approved := count_status "approved" (snd g);
     ds_declined := count_status "declined" (snd g);
     ds_pending := count_status "pending" (snd g);
     ds_refunded := count_status "refunded" (snd g);
     ds_total_volume := approved_volume (snd g);
     ds_avg_amount := round_div (total (map t_amount (snd g))) (count (snd g));
     ds_approval_rate := approval_rate_of (snd g) |}.

(** [date('now', '-' || days || ' days')] as a day number, [today] being the
    day of ['now']: a negative [days] gives the modifier ['--N days'], which
    SQLite rejects, and the result is NULL. *)
Definition date_now_minus (today days : Z) : option Z :=
  if days <? 0 then None else Some (today - days).

(** [WHERE transaction_date >= date('now', ...)]: the stored text starts
    with its date, so the comparison of texts is the comparison of days; no
    row passes a NULL bound. *)
Definition since (bound : option Z) (t : transaction) : bool :=
  match bound with
  | Some d => DATE (t_transaction_date t) >=? d
  | None => false
  end.

Definition get_daily_summary (db : database) (today days : Z) : list daily_row :=
  order_by_desc ds_date
    (map daily_of_group
       (group_by Z.eqb (fun t => DATE (t_transaction_date t))
          (filter (since (date_now_minus today days)) (transactions db)))).

(** *** [get_payment_method_stats] *)

Record payment_method_row := {
  pm_payment_method : string;
  pm_total_transactions : Z;
  pm_approved : Z;
  pm_total_volume : Z;
  pm_avg_amount : Z;
  pm_approval_rate : option Z
}.

Definition payment_method_of_group (g : transaction * list transaction)
    : payment_method_row :=
  {| pm_payment_method := t_payment_method (fst g);
     pm_total_transactions := count (snd g);
     pm_approved := count_status "approved" (snd g);
     pm_total_volume := approved_volume (snd g);
     pm_avg_amount := round_div (total (map t_amount (snd g))) (count (snd g));
     pm_approval_rate := approval_rate_of (snd g) |}.

Definition get_payment_method_stats (db : database) : list payment_method_row :=
  order_by_desc pm_total_transactions
    (map payment_method_of_group
       (group_by String.eqb t_payment_method (transactions db))).

(** *** [get_hourly_distribution] *)

Record hourly_row := {
  hd_hour : Z;
  hd_total_transactions : Z;
  hd_avg_amount : Z
}.

(** [CAST(strftime('%H', d) AS INTEGER)]: the hour within the day, the time
    line starting at a midnight. *)
Definition hour_of_day (d : Z) : Z := hour_window d mod 24.

Definition hourly_of_group (g : transaction * list transaction) : hourly_row :=
  {| hd_hour := hour_of_day (t_transaction_date (fst g));
     hd_total_transactions := count (snd g);
     hd_avg_amount := round_div (total (map t_amount (snd g))) (count (snd g)) |}.

Definition get_hourly_distribution (db : database) : list hourly_row :=
  order_by_asc hd_hour
    (map hourly_of_group
       (group_by Z.eqb (fun t => hour_of_day (t_transaction_date t)) (transactions db))).

(** *** [get_status_distribution] *)

Record status_row := {
  sd_status : string;
  sd_count : Z;
  sd_percentage : option Z
}.

Definition status_of_group (db : database) (g : transaction * list transaction)
    : status_row :=
  {| sd_status := t_status (fst g);
     sd_count := count (snd g);
     sd_percentage := ROUND_PERCENT (Some (count (snd g))) (count (transactions db)) |}.

Definition get_status_distribution (db : database) : list status_row :=
  order_by_desc sd_count
    (map (status_of_group db) (group_by String.eqb t_status (transactions db))).

End Database.

(** ** [generate_data.py] *)

Module GenerateData.

(** The outside world of one run: the raw draws of [random], the strings of
    Faker, the readings of the wall clock and the storage faults, each
    indexed by the number of oracle consultations made so far. *)
Record environment := {
  entropy : N -> Z;
  faker : N -> string;
  clock : N -> Z;
  io_fault : N -> bool
}.

(** A [sqlite3] connection: the durable content of the file and the content
    seen through the open transaction. *)
Record connection := {
  committed : database;
  working : database
}.

Record state := {
  tick : N;
  conn : connection
}.

Definition M (A : Type) : Type := environment -> state -> outcome A * state.

Definition ret {A : Type} (a : A) : M A := fun _ s => (Ok a, s).

Definition raise {A : Type} (x : exn) : M A := fun _ s => (Raise x, s).

Definition bind {A B : Type} (m : M A) (f : A -> M B) : M B :=
  fun e s =>
    match m e s with
    | (Ok a, s') => f a e s'
    | (Raise x, s') => (Raise x, s')
    end.

Notation "x <- m ;; k" := (bind m (fun x => k))
  (at level 61, m at next level, right associativity).
Notation "m ;; k" := (bind m (fun _ => k))
  (at level 61, right associativity).

(** [try: m except sqlite3.IntegrityError: h] *)
Definition except_IntegrityError {A : Type} (m h : M A) : M A :=
  fun e s =>
    match m e s with
    | (Raise IntegrityError, s') => h e s'
    | r => r
    end.

Fixpoint for_each {A S : Type} (l : list A) (body : A -> S -> M S) (acc : S) : M S :=
  match l with
  | [] => ret acc
  | x :: r => acc' <- body x acc ;; for_each r body acc'
  end.

Definition range (n : Z) : list Z := map Z.of_nat (seq 0 (Z.to_nat n)).

(** One consultation of an oracle. *)
Definition ask {A : Type} (oracle : environment -> N -> A) : M A :=
  fun e s => (Ok (oracle e (tick s)), {| tick := N.succ (tick s); conn := conn s |}).

(** *** [random], [faker], [datetime] *)

Definition random_choice {A : Type} (population : list A) : M A :=
  r <- ask entropy ;;
  match nth_error population (Z.to_nat (r mod Z.of_nat (List.length population))) with
  | Some x => ret x
  | None => raise IndexError
  end.

(** [random.random() < percent / 100] *)
Definition random_below (percent : Z) : M bool :=
  r <- ask entropy ;; ret (r mod 100 <? percent).

(** [round(random.uniform(a, b), 2)], in cents. *)
Definition round2_uniform (a b : Z) : M Z :=
  r <- ask entropy ;; ret (100 * a + r mod (100 * (b - a) + 1)).

Fixpoint pick_weighted {A : Type} (population : list A) (weights : list Z)
    (r : Z) : option A :=
  match population, weights with
  | x :: ps, w :: ws => if r <? w then Some x else pick_weighted ps ws (r - w)
  | _, _ => None
  end.

(** [random.choices(population, weights=weights)[0]], weights in percent. *)
Definition random_choices {A : Type} (population : list A) (weights : list Z) : M A :=
  r <- ask entropy ;;
  match pick_weighted population weights (r mod Sqlite.total weights) with
  | Some x => ret x
  | None => raise ValueError
  end.

(** [random.randint(a, b)]; also [int(random.triangular(a, b, a))]. *)
Definition random_randint (a b : Z) : M Z :=
  r <- ask entropy ;; ret (a + r mod (b - a + 1)).

Definition fake : M string := ask faker.

Definition datetime_now : M Z := ask clock.

(** *** The storage layer *)

Definition connect (db : database) : connection :=
  {| committed := db; working := db |}.

Definition get_working : M database := fun _ s => (Ok (working (conn s)), s).

Definition put_working (db : database) : M unit :=
  fun _ s => (Ok tt, {| tick := tick s;
                        conn := {| committed := committed (conn s); working := db |} |}).

(** Any call into the storage layer may fail. *)
Definition db_call : M unit :=
  failed <- ask io_fault ;; if failed : bool then raise OperationalError else ret tt.

Definition commit : M unit :=
  db_call ;;
  fun _ s => (Ok tt, {| tick := tick s;
                        conn := {| committed := working (conn s);
                                   working := working (conn s) |} |}).

Definition rollback (c : connection) : connection :=
  {| committed := committed c; working := committed c |}.

(** Closing the connection drops what was not committed. *)
Definition close (c : connection) : database := committed c.

Inductive table := Customers | Merchants | Transactions.

(** [DELETE FROM table]: the rows go, the [sqlite_sequence] counter stays. *)
Definition delete_from (tb : table) (db : database) : database :=
  {| schema := schema db;
     customers := match tb with Customers => [] | _ => customers db end;
     merchants := match tb with Merchants => [] | _ => merchants db end;
     transactions := match tb with Transactions => [] | _ => transactions db end;
     seq_customers := seq_customers db;
     seq_merchants := seq_merchants db;
     seq_transactions := seq_transactions db |}.

Definition execute_delete (tb : table) : M unit :=
  db_call ;; db <- get_working ;; put_working (delete_from tb db).

(** The rowid of [AUTOINCREMENT]: one more than the largest ever used. *)
Definition next_rowid (seq_ : Z) (ids : list Z) : Z :=
  Z.max seq_ (fold_right Z.max 0 ids) + 1.

(** [INSERT INTO customers (name, email, phone, document)], returning
    [cursor.lastrowid]; [email] and [document] are [UNIQUE]. *)
Definition insert_customer (name email phone document : string) : M Z :=
  db_call ;;
  db <- get_working ;;
  if existsb (fun c => String.eqb (c_email c) email || String.eqb (c_document c) document)
       (customers db)
  then raise IntegrityError
  else
    let id := next_rowid (seq_customers db) (map c_id (customers db)) in
    put_working
      {| schema := schema db;
         customers := customers db ++
           [{| c_id := id; c_name := name; c_email := email;
               c_phone := phone; c_document := document |}];
         merchants := merchants db;
         transactions := transactions db;
         seq_customers := id;
         seq_merchants := seq_merchants db;
         seq_transactions := seq_transactions db |} ;;
    ret id.

(** [INSERT INTO merchants (name, category, document)]; [document] is [UNIQUE]. *)
Definition insert_merchant (name category document : string) : M Z :=
  db_call ;;
  db <- get_working ;;
  if existsb (fun m => String.eqb (m_document m) document) (merchants db)
  then raise IntegrityError
  else
    let id := next_rowid (seq_merchants db) (map m_id (merchants db)) in
    put_working
      {| schema := schema db;
         customers := customers db;
         merchants := merchants db ++
           [{| m_id := id; m_name := name; m_category := category;
               m_document := document |}];
         transactions := transactions db;
         seq_customers := seq_customers db;
         seq_merchants := id;
         seq_transactions := seq_transactions db |} ;;
    ret id.

(** [INSERT INTO transactions (customer_id, merchant_id, amount,
    payment_method, status, transaction_date, description)]; foreign keys
    are declared but not enforced by the connection. *)
Definition insert_transaction (customer_id merchant_id amount : Z)
    (payment_method status : string) (transaction_date : Z) (description : string)
    : M Z :=
  db_call ;;
  db <- get_working ;;
  let id := next_rowid (seq_transactions db) (map t_id (transactions db)) in
  put_working
    {| schema := schema db;
       customers := customers db;
       merchants := merchants db;
       transactions := transactions db ++
         [{| t_id := id; t_customer_id := customer_id; t_merchant_id := merchant_id;
             t_amount := amount; t_payment_method := payment_method;
             t_status := status; t_transaction_date := transaction_date;
             t_description := description |}];
       seq_customers := seq_customers db;
       seq_merchants := seq_merchants db;
       seq_transactions := id |} ;;
  ret id.

(** *** Configuration *)

Definition NUM_CUSTOMERS : Z := 500.
Definition NUM_MERCHANTS : Z := 50.
Definition NUM_TRANSACTIONS : Z := 10000.

Definition CATEGORIES : list string :=
  [ "Supermercado"; "Restaurante"; "Farmácia"; "Posto de Gasolina";
    "Loja de Roupas"; "Eletrônicos"; "Padaria"; "Livraria";
    "Academia"; "Pet Shop"; "Cosméticos"; "Material de Construção" ].

Definition PAYMENT_METHODS : list string := [ "pix"; "credit_card"; "debit_card"; "boleto" ].

Definition STATUSES : list string := [ "approved"; "declined"; "pending"; "refunded" ].

Definition STATUS_WEIGHTS : list Z := [ 85; 10; 3; 2 ].
Definition METHOD_WEIGHTS : list Z := [ 40; 35; 20; 5 ].

(** *** The generators *)

Definition generate_customers : M (list Z) :=
  for_each (range NUM_CUSTOMERS) (fun _ customers =>
    name <- fake ;;
    email <- fake ;;
    phone <- fake ;;
    document <- fake ;;
    except_IntegrityError
      (id <- insert_customer name email phone document ;; ret (customers ++ [id]))
      (ret customers)) [].

Definition generate_merchants : M (list Z) :=
  for_each (range NUM_MERCHANTS) (fun _ merchants =>
    name <- fake ;;
    category <- random_choice CATEGORIES ;;
    document <- fake ;;
    except_IntegrityError
      (id <- insert_merchant name category document ;; ret (merchants ++ [id]))
      (ret merchants)) [].

Definition descriptions : list string :=
  [ "Compra em estabelecimento"; "Pagamento de serviço"; "Compra online";
    "Assinatura mensal"; "Recarga"; "Transferência" ].

Definition draw_amount : M Z :=
  low <- random_below 70 ;;
  if low : bool then round2_uniform 10 200
  else
    mid <- random_below 90 ;;
    if mid : bool then round2_uniform 200 1000 else round2_uniform 1000 5000.

(** Returns [transactions_created]. *)
Definition generate_transactions (customer_ids merchant_ids : list Z) : M Z :=
  now <- datetime_now ;;
  let start_date := now - timedelta 90 0 0 0 in
  for_each (range NUM_TRANSACTIONS) (fun _ transactions_created =>
    customer_id <- random_choice customer_ids ;;
    merchant_id <- random_choice merchant_ids ;;
    amount <- draw_amount ;;
    payment_method <- random_choices PAYMENT_METHODS METHOD_WEIGHTS ;;
    status <- random_choices STATUSES STATUS_WEIGHTS ;;
    days_ago <- random_randint 0 90 ;;
    hours <- random_randint 6 23 ;;
    minutes <- random_randint 0 59 ;;
    seconds <- random_randint 0 59 ;;
    let transaction_date := start_date + timedelta days_ago hours minutes seconds in
    description <- random_choice descriptions ;;
    insert_transaction customer_id merchant_id amount payment_method status
      transaction_date description ;;
    ret (transactions_created + 1)) 0.

Definition generate_anomalies (customer_ids merchant_ids : list Z) : M unit :=
  customer_id <- random_choice customer_ids ;;
  merchant_id <- random_choice merchant_ids ;;
  now <- datetime_now ;;
  insert_transaction customer_id merchant_id 2500000 "credit_card" "approved"
    (now - timedelta 0 2 0 0) "Compra de alto valor" ;;
  customer_id <- random_choice customer_ids ;;
  now <- datetime_now ;;
  let base_time := now - timedelta 0 1 0 0 in
  for_each (range 10) (fun i _ =>
    merchant_id <- random_choice merchant_ids ;;
    amount <- round2_uniform 100 500 ;;
    payment_method <- random_choice PAYMENT_METHODS ;;
    insert_transaction customer_id merchant_id amount payment_method "approved"
      (base_time + timedelta 0 0 (i * 2) 0) "Compra suspeita - múltiplas transações" ;;
    ret tt) tt.

(** The six [SELECT]s of [print_statistics]; formatting the approved volume
    with [:,.2f] needs a number, and [SUM] over no row is [None]. *)
Definition print_statistics : M unit :=
  db_call ;; db_call ;; db_call ;;
  db_call ;;
  db <- get_working ;;
  match Sqlite.SUM (map t_amount (filter approved (transactions db))) with
  | None => raise TypeError
  | Some _ => db_call ;; db_call
  end.

(** *** [main] *)

Definition clear_old_data : M unit :=
  execute_delete Transactions ;;
  execute_delete Merchants ;;
  execute_delete Customers ;;
  commit.

Definition generate_new_data : M unit :=
  customer_ids <- generate_customers ;;
  merchant_ids <- generate_merchants ;;
  generate_transactions customer_ids merchant_ids ;;
  generate_anomalies customer_ids merchant_ids.

Definition main_try : M unit :=
  clear_old_data ;;
  generate_new_data ;;
  commit ;;
  print_statistics.

Inductive report := Success | Failed (x : exn).

(** [main], from [sqlite3.connect] to [conn.close()]: what the operator is
    told and what the file holds afterwards. *)
Definition main (e : environment) (db : database) : report * database :=
  let '(r, s) := main_try e {| tick := 0; conn := connect db |} in
  match r with
  | Ok _ => (Success, close (conn s))
  | Raise x => (Failed x, close (rollback (conn s)))
  end.

End GenerateData.

(** ** Vocabulary of the specification *)

(** Rows in descending order of [key]. *)
Definition sorted_desc {A : Type} (key : A -> Z) (rows : list A) : Prop :=
  StronglySorted (fun a b => key b <= key a) rows.

(** The approved transactions of the merchant [id]. *)
Definition approved_of_merchant (db : database) (id : Z) : list transaction :=
  filter (fun t => approved t && (t_merchant_id t =? id)) (transactions db).


(** [PRIMARY KEY] on [merchants.id]. *)
Definition merchant_ids_unique (db : database) : Prop :=
  NoDup (map m_id (merchants db)).

(** Default thresholds of [get_anomalies]: 10000.00 in cents, and 5. *)
Definition threshold_amount_default : Z := 1000000.
Definition threshold_frequency_default : Z := 5.

(** The store right after provisioning. *)
Definition provisioned : database :=
  snd (SetupDatabase.execute_all SetupDatabase.statements SetupDatabase.empty_database).

(** A small populated store: two customers, three merchants in two
    categories, transactions of every status. *)
Definition sample_store : database :=
  {| schema := schema provisioned;
     customers :=
       [ {| c_id := 1; c_name := "Ana"; c_email := "ana@example.com";
            c_phone := "11 5555-0001"; c_document := "111.111.111-11" |};
         {| c_id := 2; c_name := "Bruno"; c_email := "bruno@example.com";
            c_phone := "11 5555-0002"; c_document := "222.222.222-22" |} ];
     merchants :=
       [ {| m_id := 1; m_name := "Mercado Sol"; m_category := "Supermercado";
            m_document := "11.111.111/0001-11" |};
         {| m_id := 2; m_name := "Padaria Lua"; m_category := "Padaria";
            m_document := "22.222.222/0001-22" |};
         {| m_id := 3; m_name := "Mercado Mar"; m_category := "Supermercado";
            m_document := "33.333.333/0001-33" |} ];
     transactions :=
       [ {| t_id := 1; t_customer_id := 1; t_merchant_id := 1; t_amount := 10000;
            t_payment_method := "pix"; t_status := "approved";
            t_transaction_date := 1793700000000000; t_description := "Compra online" |};
         {| t_id := 2; t_customer_id := 2; t_merchant_id := 1; t_amount := 5000;
            t_payment_method := "boleto"; t_status := "declined";
            t_transaction_date := 1793700060000000; t_description := "Recarga" |};
         {| t_id := 3; t_customer_id := 1; t_merchant_id := 2; t_amount := 2550;
            t_payment_method := "credit_card"; t_status := "approved";
            t_transaction_date := 1793703600000000; t_description := "Compra online" |};
         {| t_id := 4; t_customer_id := 2; t_merchant_id := 3; t_amount := 70000;
            t_payment_method := "debit_card"; t_status := "refunded";
            t_transaction_date := 1793707200000000; t_description := "Recarga" |};
         {| t_id := 5; t_customer_id := 2; t_merchant_id := 3; t_amount := 1999;
            t_payment_method := "pix"; t_status := "pending";
            t_transaction_date := 1793707260000000; t_description := "Recarga" |};
         {| t_id := 6; t_customer_id := 1; t_merchant_id := 3; t_amount := 120000;
            t_payment_method := "Todos"; t_status := "approved";
            t_transaction_date := 1793710800000000; t_description := "Recarga" |} ];
     seq_customers := 2; seq_merchants := 3; seq_transactions := 6 |}.

(** The sample store reduced to its last three transactions, one of which
    is approved. *)
Definition one_in_three : database :=
  {| schema := schema sample_store;
     customers := customers sample_store;
     merchants := merchants sample_store;
     transactions := skipn 3 (transactions sample_store);
     seq_customers := seq_customers sample_store;
     seq_merchants := seq_merchants sample_store;
     seq_transactions := seq_transactions sample_store |}.

(** *** Vocabulary for runs of the generator *)

(** The three tables seen through the open transaction. *)
Definition tables (s : GenerateData.state)
    : list customer * list merchant * list transaction :=
  let db := GenerateData.working (GenerateData.conn s) in
  (customers db, merchants db, transactions db).

(** The store after [DELETE FROM] on the three tables. *)
Definition cleared (db : database) : database :=
  GenerateData.delete_from GenerateData.Customers
    (GenerateData.delete_from GenerateData.Merchants
       (GenerateData.delete_from GenerateData.Transactions db)).

(** A transaction row that respects the invariants of the data model with
    respect to the customer and merchant identifiers [cids] and [mids]. *)
Definition row_ok (cids mids : list Z) (t : transaction) : Prop :=
  In (t_customer_id t) cids
  /\ In (t_merchant_id t) mids
  /\ 0 < t_amount t
  /\ In (t_status t) GenerateData.STATUSES
  /\ In (t_payment_method t) GenerateData.PAYMENT_METHODS.

(** The [i]-th row of the injected burst of customer [cid] from [base_time]. *)
Definition burst_row (cid base_time : Z) (i : Z) (t : transaction) : Prop :=
  t_customer_id t = cid
  /\ t_transaction_date t = base_time + timedelta 0 0 (i * 2) 0.

(** What a completed generation leaves in the three tables: bulk rows, then
    the high-value row, then the burst of ten, and no identifier twice among
    the customers or among the merchants. *)
Definition generated_tables
    (X : list customer * list merchant * list transaction) : Prop :=
  let '(C, M, T) := X in
  exists bulk hv cid base_time burst,
    T = bulk ++ hv :: burst
    /\ Forall (row_ok (map c_id C) (map m_id M)) T
    /\ t_amount hv = 2500000
    /\ In cid (map c_id C)
    /\ Forall2 (burst_row cid base_time) (GenerateData.range 10) burst
    /\ NoDup (map c_id C)
    /\ NoDup (map m_id M).

Definition generated (db : database) : Prop :=
  generated_tables (customers db, merchants db, transactions db).

(** Partial correctness: if [m] returns from state [s] in environment [e],
    then [Q] holds of the result and the final state. *)
Definition wp {A : Type} (e : GenerateData.environment) (m : GenerateData.M A)
    (Q : A -> GenerateData.state -> Prop) (s : GenerateData.state) : Prop :=
  match m e s with
  | (Ok a, s') => Q a s'
  | (Raise _, _) => True
  end.

(** [m] leaves the durable content of the file alone, however it ends. *)
Definition keeps_committed {A : Type} (m : GenerateData.M A) : Prop :=
  forall e s,
    GenerateData.committed (GenerateData.conn (snd (m e s)))
    = GenerateData.committed (GenerateData.conn s).

(** An environment whose storage layer fails at the ninth consultation of
    an oracle, the first [INSERT] of [generate_customers]. *)
Definition failing_environment : GenerateData.environment :=
  {| GenerateData.entropy := fun k => Z.of_N k;
     GenerateData.faker := fun _ => "x";
     GenerateData.clock := fun _ => 1793700000000000;
     GenerateData.io_fault := fun k => N.eqb k 8 |}.

(** An environment without storage faults; Faker repeats itself, so one
    customer and one merchant are created. *)
Definition quiet_environment : GenerateData.environment :=
  {| GenerateData.entropy := fun k => Z.of_N k;
     GenerateData.faker := fun _ => "x";
     GenerateData.clock := fun k => 1793700000000000 + Z.of_N k;
     GenerateData.io_fault := fun _ => false |}.

(** *** Further vocabulary *)

(** Rows in strictly descending, or strictly ascending, order of [key]: in
    order, and no key twice. *)
Definition strictly_desc {A : Type} (key : A -> Z) (rows : list A) : Prop :=
  StronglySorted (fun a b => key b < key a) rows.

Definition strictly_asc {A : Type} (key : A -> Z) (rows : list A) : Prop :=
  StronglySorted (fun a b => key a < key b) rows.

(** Every transaction of the store has one of the four statuses. *)
Definition statuses_valid (db : database) : Prop :=
  Forall (fun t => In (t_status t) GenerateData.STATUSES) (transactions db).


(** The transactions of customer [cid] within the hour [w]. *)
Definition of_customer_hour (db : database) (cid w : Z) : list transaction :=
  filter (fun t => (t_customer_id t =? cid)
                   && (hour_window (t_transaction_date t) =? w)) (transactions db).


(** [PRIMARY KEY] on [customers.id]. *)
Definition customer_ids_unique (db : database) : Prop :=
  NoDup (map c_id (customers db)).

(** The storage layer never fails. *)
Definition no_storage_fault (e : GenerateData.environment) : Prop :=
  forall k, GenerateData.io_fault e k = false.

(** Total correctness: [m] returns from state [s] in environment [e], and
    [Q] holds of the result and the final state. *)
Definition wp_total {A : Type} (e : GenerateData.environment) (m : GenerateData.M A)
    (Q : A -> GenerateData.state -> Prop) (s : GenerateData.state) : Prop :=
  match m e s with
  | (Ok a, s') => Q a s'
  | (Raise _, _) => False
  end.

(** Both sides of the connection carry the schema [S]. *)
Definition schema_is (S : list sql_object) (c : GenerateData.connection) : Prop :=
  schema (GenerateData.committed c) = S /\ schema (GenerateData.working c) = S.

(** [m] never touches the schema, however it ends. *)
Definition keeps_schema {A : Type} (m : GenerateData.M A) : Prop :=
  forall e s S,
    schema_is S (GenerateData.conn s) ->
    schema_is S (GenerateData.conn (snd (m e s))).

(** What a completed generation leaves in the three tables besides
    [generated_tables]: the sizes, the [UNIQUE] columns, the categories, the
    rowids of the transactions and the ranges of the amounts. *)
Definition generated_shape
    (X : list customer * list merchant * list transaction) : Prop :=
  let '(C, M, T) := X in
  Sqlite.count C <= GenerateData.NUM_CUSTOMERS
  /\ Sqlite.count M <= GenerateData.NUM_MERCHANTS
  /\ NoDup (map c_email C) /\ NoDup (map c_document C)
  /\ NoDup (map m_document M)
  /\ Forall (fun m => In (m_category m) GenerateData.CATEGORIES) M
  /\ NoDup (map t_id T)
  /\ exists bulk hv burst,
       T = bulk ++ hv :: burst
       /\ Sqlite.count bulk = GenerateData.NUM_TRANSACTIONS
       /\ Sqlite.count burst = 10
       /\ Forall (fun t => 1000 <= t_amount t <= 500000) bulk
       /\ t_amount hv = 2500000
       /\ Forall (fun t => 10000 <= t_amount t <= 50000) burst.

(** [m] leaves the connection alone, however it ends. *)
Definition keeps_conn {A : Type} (m : GenerateData.M A) : Prop :=
  forall e s, GenerateData.conn (snd (m e s)) = GenerateData.conn s.

(** An environment whose storage layer fails at the second [DELETE]. *)
Definition cleanup_fault_environment : GenerateData.environment :=
  {| GenerateData.entropy := fun k => Z.of_N k;
     GenerateData.faker := fun _ => "x";
     GenerateData.clock := fun _ => 1793700000000000;
     GenerateData.io_fault := fun k => N.eqb k 1 |}.

(** ** Facts about the SQL engine fragment *)

Section SqliteFacts.

Import Sqlite.

Context {A : Type}.
Variable key : A -> Z.

Lemma insert_desc_perm (x : A) (l : list A) :
  Permutation (insert_desc key x l) (x :: l).
Proof.
  induction l as [|y r IH]; simpl.
  - apply Permutation_refl.
  - destruct (key y <=? key x).
    + apply Permutation_refl.
    + eapply perm_trans; [apply perm_skip, IH | apply perm_swap].
Qed.

Lemma order_by_desc_perm (l : list A) : Permutation (order_by_desc key l) l.
Proof.
  induction l as [|x r IH]; simpl.
  - constructor.
  - eapply perm_trans; [apply insert_desc_perm | now apply perm_skip].
Qed.

Lemma order_by_desc_In (l : list A) (x : A) : In x (order_by_desc key l) <-> In x l.
Proof.
  split; apply Permutation_in;
    [apply order_by_desc_perm | apply Permutation_sym, order_by_desc_perm].
Qed.

Lemma order_by_desc_length (l : list A) :
  List.length (order_by_desc key l) = List.length l.
Proof. apply Permutation_length, order_by_desc_perm. Qed.

Lemma insert_desc_sorted (x : A) (l : list A) :
  sorted_desc key l -> sorted_desc key (insert_desc key x l).
Proof.
  unfold sorted_desc. induction l as [|y r IH]; simpl; intros Hs.
  - repeat constructor.
  - inversion Hs as [|? ? Hr Hall]; subst.
    destruct (key y <=? key x) eqn:Hc.
    + apply Z.leb_le in Hc. constructor; [exact Hs|].
      constructor; [exact Hc|].
      eapply Forall_impl; [|exact Hall]. simpl. intros z Hz. lia.
    + apply Z.leb_gt in Hc. constructor; [now apply IH|].
      apply Forall_forall. intros z Hz.
      apply (Permutation_in _ (insert_desc_perm x r)) in Hz.
      destruct Hz as [<-|Hz]; [lia|].
      rewrite Forall_forall in Hall. now apply Hall.
Qed.

Lemma order_by_desc_sorted (l : list A) : sorted_desc key (order_by_desc key l).
Proof.
  induction l as [|x r IH]; simpl.
  - constructor.
  - now apply insert_desc_sorted.
Qed.

Lemma firstn_sorted (n : nat) (l : list A) :
  sorted_desc key l -> sorted_desc key (firstn n l).
Proof.
  unfold sorted_desc. revert l. induction n as [|n IH]; intros [|x r] Hs; simpl;
    try constructor.
  - inversion Hs; subst. now apply IH.
  - inversion Hs as [|? ? _ Hall]; subst.
    apply Forall_forall. intros z Hz. rewrite Forall_forall in Hall.
    apply Hall. rewrite <- (firstn_skipn n r). apply in_or_app. now left.
Qed.

Lemma limit_sorted (n : Z) (l : list A) :
  sorted_desc key l -> sorted_desc key (limit n l).
Proof.
  unfold limit. destruct (n <? 0); [trivial | apply firstn_sorted].
Qed.

Lemma limit_In (n : Z) (l : list A) (x : A) : In x (limit n l) -> In x l.
Proof.
  unfold limit. destruct (n <? 0); [trivial|].
  intros H. rewrite <- (firstn_skipn (Z.to_nat n) l). apply in_or_app. now left.
Qed.

Lemma limit_count (n : Z) (l : list A) : 0 <= n -> count (limit n l) <= n.
Proof.
  intros Hn. unfold limit, count. destruct (n <? 0) eqn:Hc.
  - apply Z.ltb_lt in Hc. lia.
  - pose proof (firstn_le_length (Z.to_nat n) l). lia.
Qed.

Lemma limit_nonempty (n : Z) (l : list A) : 0 < n -> l <> [] -> limit n l <> [].
Proof.
  intros Hn Hl. unfold limit. destruct (n <? 0); [exact Hl|].
  destruct l as [|x r]; [contradiction|].
  assert (Hz : Z.to_nat n = S (Z.to_nat (n - 1))) by lia.
  rewrite Hz. discriminate.
Qed.

Lemma order_by_desc_nonempty (l : list A) : l <> [] -> order_by_desc key l <> [].
Proof.
  intros Hl Hs. apply Hl. apply length_zero_iff_nil.
  rewrite <- order_by_desc_length, Hs. reflexivity.
Qed.

End SqliteFacts.

Section GroupFacts.

Import Sqlite.

Context {A K : Type}.
Variable eqb : K -> K -> bool.
Variable key : A -> K.
Hypothesis eqb_spec : forall a b, eqb a b = true <-> a = b.

Lemma distinct_by_In (l : list A) (x : A) : In x (distinct_by eqb key l) -> In x l.
Proof.
  induction l as [|y r IH]; simpl; [trivial|].
  intros [->|H]; [now left|].
  apply filter_In in H. right. now apply IH.
Qed.

Lemma distinct_by_cover (l : list A) (y : A) :
  In y l -> exists x, In x (distinct_by eqb key l) /\ key x = key y.
Proof.
  induction l as [|z r IH]; simpl; [contradiction|].
  intros [->|H].
  - exists y. auto.
  - destruct (IH H) as (x & Hx & Hk).
    destruct (eqb (key x) (key z)) eqn:Hc.
    + apply eqb_spec in Hc. exists z. split; [now left | congruence].
    + exists x. split; [|exact Hk]. right. apply filter_In. now rewrite Hc.
Qed.

Lemma group_by_In (l : list A) (g : A * list A) :
  In g (group_by eqb key l) ->
  In (fst g) l /\ snd g = filter (fun y => eqb (key y) (key (fst g))) l.
Proof.
  unfold group_by. intros H. apply in_map_iff in H.
  destruct H as (x & <- & Hx). simpl. split; [|reflexivity].
  now apply distinct_by_In in Hx.
Qed.

Lemma group_by_first (l : list A) (g : A * list A) :
  In g (group_by eqb key l) -> In (fst g) (snd g).
Proof.
  intros H. destruct (group_by_In _ _ H) as [Hin ->].
  apply filter_In. split; [exact Hin|]. now apply eqb_spec.
Qed.

Lemma group_by_cover (l : list A) (y : A) :
  In y l -> exists g, In g (group_by eqb key l) /\ key (fst g) = key y.
Proof.
  intros H. destruct (distinct_by_cover _ _ H) as (x & Hx & Hk).
  exists (x, filter (fun z => eqb (key z) (key x)) l). split; [|exact Hk].
  unfold group_by. apply in_map_iff. now exists x.
Qed.

End GroupFacts.

Lemma pair_eqb_spec (a b : Z * Z) : Sqlite.pair_eqb a b = true <-> a = b.
Proof.
  destruct a as [a1 a2], b as [b1 b2]. unfold Sqlite.pair_eqb. simpl.
  rewrite andb_true_iff, !Z.eqb_eq. split; [intros [-> ->]; reflexivity|].
  intros H. now inversion H.
Qed.

Lemma total_app (l1 l2 : list Z) :
  Sqlite.total (l1 ++ l2) = Sqlite.total l1 + Sqlite.total l2.
Proof. induction l1 as [|x r IH]; simpl; [reflexivity | rewrite IH; lia]. Qed.

Lemma count_total {A : Type} (l : list A) :
  Sqlite.count l = Sqlite.total (map (fun _ => 1) l).
Proof.
  unfold Sqlite.count, Sqlite.total. induction l as [|x r IH]; [reflexivity|].
  cbn [List.length map fold_right]. rewrite Nat2Z.inj_succ, IH. lia.
Qed.

Lemma total_filter {A : Type} (p : A -> bool) (v : A -> Z) (l : list A) :
  Sqlite.total (map v (filter p l))
  = Sqlite.total (map (fun x => if p x then v x else 0) l).
Proof.
  induction l as [|x r IH]; simpl; [reflexivity|].
  destruct (p x); simpl; rewrite IH; reflexivity.
Qed.

Lemma total_ext {A : Type} (v w : A -> Z) (l : list A) :
  (forall x, In x l -> v x = w x) ->
  Sqlite.total (map v l) = Sqlite.total (map w l).
Proof.
  induction l as [|x r IH]; simpl; intros H; [reflexivity|].
  rewrite (H x), IH; auto.
Qed.

Lemma total_pointwise_add {A : Type} (v w : A -> Z) (l : list A) :
  Sqlite.total (map (fun x => v x + w x) l)
  = Sqlite.total (map v l) + Sqlite.total (map w l).
Proof. induction l as [|x r IH]; simpl; [reflexivity | rewrite IH; lia]. Qed.

Lemma total_zero {A : Type} (l : list A) : Sqlite.total (map (fun _ => 0) l) = 0.
Proof. induction l as [|x r IH]; simpl; [reflexivity | rewrite IH; reflexivity]. Qed.

Lemma total_filter_filter {A : Type} (p q : A -> bool) (v : A -> Z) (l : list A) :
  Sqlite.total (map v (filter p (filter q l)))
  = Sqlite.total (map (fun x => if q x then v x else 0) (filter p l)).
Proof.
  induction l as [|x r IH]; simpl; [reflexivity|].
  destruct (q x) eqn:Hq, (p x) eqn:Hp; simpl; rewrite ?Hp, ?Hq; simpl;
    rewrite IH; reflexivity.
Qed.

(** ** Facts about the merchant-transaction join *)

Lemma join_one_total (m : merchant) (P : merchant -> bool) (v : transaction -> Z)
    (l : list transaction) :
  Sqlite.total (map (fun mt => v (snd mt))
    (filter (fun mt => P (fst mt))
       (map (fun t => (m, t)) (filter (fun t => m_id m =? t_merchant_id t) l))))
  = Sqlite.total (map (fun t => if (m_id m =? t_merchant_id t) && P m then v t else 0) l).
Proof.
  induction l as [|t r IH]; [reflexivity|].
  unfold Sqlite.total in *. cbn [filter map fold_right].
  destruct (m_id m =? t_merchant_id t); cbn [map filter fst andb fold_right].
  - destruct (P m) eqn:HP; cbn [map fold_right snd]; rewrite IH; reflexivity.
  - rewrite IH. reflexivity.
Qed.

Section JoinFacts.

Import Sqlite.

Variable ts : list transaction.

Let join (ms : list merchant) : list (merchant * transaction) :=
  flat_map (fun m =>
    map (fun t => (m, t)) (filter (fun t => m_id m =? t_merchant_id t) ts)) ms.

Lemma join_In (ms : list merchant) (m : merchant) (t : transaction) :
  In (m, t) (join ms) <-> In m ms /\ In t ts /\ m_id m = t_merchant_id t.
Proof.
  unfold join. rewrite in_flat_map. split.
  - intros (m' & Hm & Hin). apply in_map_iff in Hin.
    destruct Hin as (t' & Heq & Ht). inversion Heq; subst.
    apply filter_In in Ht. destruct Ht as [Ht Hid]. apply Z.eqb_eq in Hid. auto.
  - intros (Hm & Ht & Hid). exists m. split; [exact Hm|].
    apply in_map_iff. exists t. split; [reflexivity|].
    apply filter_In. split; [exact Ht | now apply Z.eqb_eq].
Qed.

Lemma existsb_no_id (ms : list merchant) (P : merchant -> bool) (k : Z) :
  ~ In k (map m_id ms) -> existsb (fun m => (m_id m =? k) && P m) ms = false.
Proof.
  induction ms as [|m r IH]; simpl; intros Hk; [reflexivity|].
  destruct (m_id m =? k) eqn:Hc.
  - apply Z.eqb_eq in Hc. exfalso. auto.
  - simpl. apply IH. auto.
Qed.

(** With unique merchant ids every transaction is joined at most once. *)
Lemma join_total (ms : list merchant) (P : merchant -> bool) (v : transaction -> Z) :
  NoDup (map m_id ms) ->
  total (map (fun mt => v (snd mt)) (filter (fun mt => P (fst mt)) (join ms)))
  = total (map (fun t =>
      if existsb (fun m => (m_id m =? t_merchant_id t) && P m) ms then v t else 0) ts).
Proof.
  induction ms as [|m r IH]; intros Hnd.
  - simpl. now rewrite total_zero.
  - inversion Hnd as [|? ? Hnotin Hnd']; subst.
    unfold join in *. cbn [flat_map]. rewrite filter_app, map_app, total_app, (IH Hnd').
    transitivity
      (total (map (fun t => if (m_id m =? t_merchant_id t) && P m then v t else 0) ts)
       + total (map (fun t =>
           if existsb (fun m' => (m_id m' =? t_merchant_id t) && P m') r
           then v t else 0) ts)).
    + f_equal. apply join_one_total.
    + rewrite <- total_pointwise_add. apply total_ext. intros t _.
      cbn [existsb]. destruct (m_id m =? t_merchant_id t) eqn:Hc.
      * apply Z.eqb_eq in Hc. rewrite existsb_no_id by (rewrite <- Hc; exact Hnotin).
        destruct (P m); simpl; lia.
      * simpl. destruct (existsb _ r); lia.
Qed.

End JoinFacts.

Lemma existsb_merchant_id (ms : list merchant) (m : merchant) (k : Z) :
  In m ms ->
  existsb (fun m' => (m_id m' =? k) && (m_id m' =? m_id m)) ms = (k =? m_id m).
Proof.
  intros Hin. destruct (k =? m_id m) eqn:Hc.
  - apply Z.eqb_eq in Hc. apply existsb_exists. exists m. split; [exact Hin|].
    rewrite Hc, Z.eqb_refl. reflexivity.
  - apply Z.eqb_neq in Hc. apply not_true_is_false. intros H.
    apply existsb_exists in H. destruct H as (m' & _ & H).
    apply andb_true_iff in H. destruct H as [H1 H2].
    apply Z.eqb_eq in H1, H2. congruence.
Qed.

(** The aggregate of one group of [get_top_merchants] ranges over the
    approved transactions of that merchant, each counted once. *)
Lemma merchant_group_total (db : database) (m : merchant) (v : transaction -> Z) :
  merchant_ids_unique db -> In m (merchants db) ->
  Sqlite.total (map (fun mt => v (snd mt))
    (filter (fun y => m_id (fst y) =? m_id m)
       (filter (fun mt => approved (snd mt)) (Database.join_merchants_transactions db))))
  = Sqlite.total (map v (approved_of_merchant db (m_id m))).
Proof.
  intros Hnd Hin. rewrite total_filter_filter.
  unfold Database.join_merchants_transactions.
  rewrite (join_total (transactions db) (merchants db) (fun m' => m_id m' =? m_id m)
             (fun t => if approved t then v t else 0) Hnd).
  unfold approved_of_merchant. rewrite total_filter. apply total_ext. intros t _.
  rewrite (existsb_merchant_id _ _ _ Hin).
  destruct (approved t), (t_merchant_id t =? m_id m); reflexivity.
Qed.

(** ** The schema provisioner *)

(** C8.  Whatever the file held before (or if it did not exist),
    [create_database] succeeds and leaves the same store, so that running it
    on its own result changes nothing: three tables, five indexes, two
    views, every name once, and no rows. *)
Theorem create_database_idempotent (file : option database) :
  let once := SetupDatabase.create_database file in
  let twice := SetupDatabase.create_database (snd once) in
  twice = once
  /\ once = (Ok tt, Some provisioned)
  /\ map obj_name (filter SetupDatabase.is_table (schema provisioned))
     = ["customers"; "merchants"; "transactions"]
  /\ map obj_name (filter SetupDatabase.is_index (schema provisioned))
     = ["idx_transaction_date"; "idx_transaction_status"; "idx_transaction_method";
        "idx_customer_id"; "idx_merchant_id"]
  /\ map obj_name (filter SetupDatabase.is_view (schema provisioned))
     = ["daily_summary"; "merchant_performance"]
  /\ NoDup (map obj_name (schema provisioned))
  /\ customers provisioned = [] /\ merchants provisioned = []
  /\ transactions provisioned = [].
Proof.
  assert (Hrun : forall f, SetupDatabase.create_database f = (Ok tt, Some provisioned)).
  { intros [db|]; vm_compute; reflexivity. }
  cbv zeta. rewrite !Hrun. repeat split.
  vm_compute. repeat (constructor; [simpl; intuition discriminate|]). constructor.
Qed.

(** ** The query layer *)

Section QueryFacts.

Import Sqlite Database.

(** C5.  The high-value query returns only joined transactions of the store
    whose amount exceeds the threshold, at most 50 of them, in descending
    order of amount. *)
Theorem query_high_value_spec (db : database) (threshold_amount : Z) :
  let rows := query_high_value db threshold_amount in
  Forall (fun r => threshold_amount < hv_amount r
                   /\ exists t, In t (transactions db)
                                /\ hv_id r = t_id t /\ hv_amount r = t_amount t) rows
  /\ count rows <= 50
  /\ sorted_desc hv_amount rows.
Proof.
  cbv zeta. unfold query_high_value. split; [|split].
  - apply Forall_forall. intros r Hr.
    apply limit_In, order_by_desc_In, in_map_iff in Hr.
    destruct Hr as ([[t c] m] & <- & Hin). apply filter_In in Hin.
    destruct Hin as [Hjoin Hgt]. simpl in *. split; [lia|].
    exists t. repeat split.
    unfold join_transactions_customers_merchants in Hjoin.
    apply in_flat_map in Hjoin. destruct Hjoin as (t' & Ht' & Hin).
    apply in_flat_map in Hin. destruct Hin as (c' & _ & Hin).
    apply in_map_iff in Hin. destruct Hin as (m' & Heq & _).
    inversion Heq; subst. exact Ht'.
  - apply limit_count. lia.
  - apply limit_sorted, order_by_desc_sorted.
Qed.

Lemma top_merchant_row_inv (db : database) (limit_ : Z) (r : top_merchant_row) :
  In r (get_top_merchants db limit_) ->
  exists m t g,
    r = top_merchant_of_group ((m, t), g)
    /\ In m (merchants db) /\ In (m, t) g
    /\ g = filter (fun y => m_id (fst y) =? m_id m)
             (filter (fun mt => approved (snd mt)) (join_merchants_transactions db)).
Proof.
  unfold get_top_merchants. intros Hr.
  apply limit_In, order_by_desc_In, in_map_iff in Hr.
  destruct Hr as ([[m t] g] & <- & Hg).
  pose proof (group_by_first Z.eqb _ Z.eqb_eq _ _ Hg) as Hfirst.
  apply (group_by_In Z.eqb) in Hg. simpl in Hg, Hfirst. destruct Hg as [Hin Hg].
  exists m, t, g. repeat split; try assumption.
  apply filter_In in Hin. destruct Hin as [Hin _].
  apply join_In in Hin. tauto.
Qed.

(** C6.  With a limit [N] that is a row count, top-merchants returns at most
    [N] rows in descending order of volume; each row belongs to a merchant
    of the store, and its volume and its transaction count are the sum and
    the number of that merchant's approved transactions. *)
Theorem get_top_merchants_spec (db : database) (N : Z) :
  merchant_ids_unique db -> 0 <= N ->
  let rows := get_top_merchants db N in
  count rows <= N
  /\ sorted_desc tm_total_volume rows
  /\ Forall (fun r => exists m,
       In m (merchants db)
       /\ tm_name r = m_name m /\ tm_category r = m_category m
       /\ tm_total_volume r = total (map t_amount (approved_of_merchant db (m_id m)))
       /\ tm_total_transactions r = count (approved_of_merchant db (m_id m))) rows.
Proof.
  intros Hnd HN. cbv zeta. split; [|split].
  - now apply limit_count.
  - apply limit_sorted, order_by_desc_sorted.
  - apply Forall_forall. intros r Hr.
    destruct (top_merchant_row_inv _ _ _ Hr) as (m & t & g & -> & Hm & _ & ->).
    exists m. repeat split; try assumption; simpl.
    + apply (merchant_group_total db m t_amount Hnd Hm).
    + rewrite !count_total.
      rewrite <- (merchant_group_total db m (fun _ => 1) Hnd Hm).
      reflexivity.
Qed.

Lemma round_div_percent (n : Z) : 0 < n -> round_div (10000 * n) n = 10000.
Proof.
  intros Hn. unfold round_div.
  destruct (10000 * n <? 0) eqn:Hc; [apply Z.ltb_lt in Hc; lia|].
  symmetry. apply (Z.div_unique _ _ _ n); lia.
Qed.

(** C10.  Every row of top-merchants reports an approval rate of 100.00:
    the rate is computed over groups that only hold approved rows. *)
Theorem get_top_merchants_approval_rate (db : database) (N : Z) :
  Forall (fun r => tm_approval_rate r = Some 10000) (get_top_merchants db N).
Proof.
  apply Forall_forall. intros r Hr.
  destruct (top_merchant_row_inv _ _ _ Hr) as (m & t & g & -> & _ & Hin & Hg).
  cbn [top_merchant_of_group tm_approval_rate snd].
  assert (Hones : count_approved g = map (fun _ => 1) g).
  { unfold count_approved. apply map_ext_in. intros mt Hmt. rewrite Hg in Hmt.
    apply filter_In in Hmt. destruct Hmt as [Hmt _].
    apply filter_In in Hmt. destruct Hmt as [_ ->]. reflexivity. }
  rewrite Hones. clear Hg Hones.
  destruct g as [|x g']; [contradiction|].
  assert (Hsum : SUM (map (fun _ => 1) (x :: g')) = Some (count (x :: g'))).
  { rewrite (count_total (x :: g')). reflexivity. }
  rewrite Hsum. unfold ROUND_PERCENT.
  assert (Hpos : 0 < count (x :: g')).
  { unfold count. cbn [List.length]. lia. }
  destruct (count (x :: g') =? 0) eqn:Hz; [apply Z.eqb_eq in Hz; lia|].
  now rewrite round_div_percent.
Qed.

Lemma get_top_merchants_spec_witness :
  let rows := get_top_merchants sample_store 2 in
  count rows <= 2
  /\ sorted_desc tm_total_volume rows
  /\ Forall (fun r => exists m,
       In m (merchants sample_store)
       /\ tm_name r = m_name m /\ tm_category r = m_category m
       /\ tm_total_volume r
          = total (map t_amount (approved_of_merchant sample_store (m_id m)))
       /\ tm_total_transactions r = count (approved_of_merchant sample_store (m_id m)))
      rows.
Proof.
  apply (get_top_merchants_spec sample_store 2).
  - unfold merchant_ids_unique. simpl.
    repeat (constructor; [simpl; intuition discriminate|]). constructor.
  - lia.
Defined.





Lemma round_div_nearest (p q : Z) :
  0 <= p -> 0 < q -> 2 * Z.abs (round_div p q * q - p) <= q.
Proof.
  intros Hp Hq. unfold round_div.
  destruct (p <? 0) eqn:Hc; [apply Z.ltb_lt in Hc; lia|].
  pose proof (Z.div_mod (2 * p + q) (2 * q) ltac:(lia)) as Hdiv.
  pose proof (Z.mod_pos_bound (2 * p + q) (2 * q) ltac:(lia)) as Hmod.
  set (r := (2 * p + q) / (2 * q)) in *.
  set (m := (2 * p + q) mod (2 * q)) in *.
  assert (Heq : 2 * (r * q - p) = q - m) by lia.
  lia.
Qed.

Lemma approved_ones (ts : list transaction) :
  total (map (fun t => if approved t then 1 else 0) ts) = count (filter approved ts).
Proof. now rewrite count_total, total_filter. Qed.

(** C3, as the code has it.  Over an empty transactions table the KPI
    snapshot reports no approval rate (NULL, [None]) and does not fail;
    otherwise it reports 100 * approved / total rounded to two decimals,
    which is within half a hundredth of the exact percentage. *)
Theorem get_kpis_approval_rate (db : database) :
  match kpi_approval_rate (get_kpis db) with
  | None => transactions db = []
  | Some r =>
      transactions db <> []
      /\ r = round_div (10000 * approved_count db) (count (transactions db))
      /\ 2 * Z.abs (r * count (transactions db) - 10000 * approved_count db)
         <= count (transactions db)
  end.
Proof.
  unfold get_kpis, approved_count. cbn [kpi_approval_rate].
  destruct (transactions db) as [|t ts] eqn:Hts; [reflexivity|].
  assert (Hsum : SUM (map (fun t => if approved t then 1 else 0) (t :: ts))
                 = Some (count (filter approved (t :: ts)))).
  { rewrite <- approved_ones. reflexivity. }
  rewrite Hsum. unfold ROUND_PERCENT.
  assert (Hpos : 0 < count (t :: ts)).
  { unfold count. cbn [List.length]. lia. }
  destruct (count (t :: ts) =? 0) eqn:Hz; [apply Z.eqb_eq in Hz; lia|].
  split; [discriminate|]. split; [reflexivity|].
  apply round_div_nearest; [|exact Hpos].
  unfold count. lia.
Qed.

(** C3, as the specification has it, fails: the provisioned, still empty
    store has no approval rate rather than the rate 0; and with one
    approved transaction out of three the rate is 33.33, which is not a
    third of 100. *)
Lemma kpi_approval_rate_counterexample :
  kpi_approval_rate (get_kpis provisioned) = None
  /\ kpi_approval_rate (get_kpis provisioned) <> Some 0
  /\ approved_count one_in_three = 1
  /\ count (transactions one_in_three) = 3
  /\ kpi_approval_rate (get_kpis one_in_three) = Some 3333
  /\ 3333 * count (transactions one_in_three) <> 10000 * approved_count one_in_three.
Proof.
  vm_compute. repeat split; discriminate.
Qed.

(** C9.  In the filtered listing the sentinel ['Todos'] for the payment
    method, or for the status, gives the result of leaving that filter
    out. *)
Theorem get_transactions_filtered_todos (db : database)
    (start_date end_date : option Z) (payment_method status : option string)
    (limit_ : Z) :
  get_transactions_filtered db start_date end_date (Some "Todos") status limit_
  = get_transactions_filtered db start_date end_date None status limit_
  /\ get_transactions_filtered db start_date end_date payment_method (Some "Todos") limit_
     = get_transactions_filtered db start_date end_date payment_method None limit_.
Proof.
  unfold get_transactions_filtered, where_clause. split.
  - reflexivity.
  - cbn [truthy String.eqb Ascii.eqb Bool.eqb andb negb]. rewrite !app_nil_r.
    reflexivity.
Qed.

(** *** The queries on the sample store *)

Example get_top_merchants_sample :
  map (fun r => (tm_name r, tm_total_transactions r, tm_total_volume r, tm_approval_rate r))
      (get_top_merchants sample_store 2)
  = [("Mercado Mar", 1, 120000, Some 10000); ("Mercado Sol", 1, 10000, Some 10000)].
Proof. reflexivity. Qed.

(** A negative limit is no limit. *)
Example get_top_merchants_negative_limit :
  count (get_top_merchants sample_store (-1)) = 3.
Proof. reflexivity. Qed.

Example get_category_performance_sample :
  map (fun r => (cp_category r, cp_total_transactions r, cp_total_volume r, cp_avg_ticket r))
      (get_category_performance sample_store)
  = [("Supermercado", 5, 130000, 41400); ("Padaria", 1, 2550, 2550)].
Proof. reflexivity. Qed.

Example query_high_value_sample :
  map hv_amount (query_high_value sample_store 5000) = [120000; 70000; 10000].
Proof. reflexivity. Qed.

Example query_frequency_sample :
  map (fun r => (hf_customer_name r, hf_transactions_count r))
      (query_frequency sample_store 2)
  = [("Bruno", 2)].
Proof. reflexivity. Qed.

Example get_kpis_sample :
  kpi_total_transactions (get_kpis sample_store) = 6
  /\ kpi_total_volume (get_kpis sample_store) = Some 132550
  /\ kpi_avg_ticket (get_kpis sample_store) = Some 34925
  /\ kpi_approval_rate (get_kpis sample_store) = Some 5000.
Proof. repeat split. Qed.

(** The sentinel does not select the row whose payment method is literally
    ['Todos']; a real value filters. *)
Example get_transactions_filtered_sample :
  map ls_id (get_transactions_filtered sample_store None None (Some "Todos") None 100)
  = [6; 5; 4; 3; 2; 1]
  /\ map ls_id (get_transactions_filtered sample_store None None (Some "pix")
                  (Some "approved") 100)
     = [1]
  /\ map ls_id (get_transactions_filtered sample_store (Some 20760) (Some 20760)
                  None None 2)
     = [6; 5].
Proof. repeat split. Qed.

End QueryFacts.

(** ** Reasoning about runs of the generator *)

Section RunFacts.

Import GenerateData.

Variable e : environment.

Lemma wp_ret {A : Type} (a : A) (Q : A -> state -> Prop) (s : state) :
  Q a s -> wp e (ret a) Q s.
Proof. intros H. exact H. Qed.

Lemma wp_raise {A : Type} (x : exn) (Q : A -> state -> Prop) (s : state) :
  wp e (raise x) Q s.
Proof. exact I. Qed.

Lemma wp_bind {A B : Type} (m : M A) (f : A -> M B) (Q : B -> state -> Prop)
    (s : state) :
  wp e m (fun a s' => wp e (f a) Q s') s -> wp e (bind m f) Q s.
Proof.
  unfold wp, bind. destruct (m e s) as [[a|x] s']; trivial.
Qed.

Lemma wp_mono {A : Type} (m : M A) (Q Q' : A -> state -> Prop) (s : state) :
  (forall a s', Q a s' -> Q' a s') -> wp e m Q s -> wp e m Q' s.
Proof.
  unfold wp. intros H. destruct (m e s) as [[a|x] s']; auto.
Qed.

(** The loop rule: the invariant may mention the items already visited. *)
Lemma wp_for_each {A S : Type} (body : A -> S -> M S)
    (Inv : list A -> S -> state -> Prop) (l : list A) :
  (forall visited x acc s,
      Inv visited acc s -> wp e (body x acc) (Inv (visited ++ [x])) s) ->
  forall visited acc s,
    Inv visited acc s -> wp e (for_each l body acc) (Inv (visited ++ l)) s.
Proof.
  intros Hbody. induction l as [|x r IH]; intros visited acc s Hinv.
  - simpl. rewrite app_nil_r. exact Hinv.
  - cbn [for_each]. apply wp_bind.
    eapply wp_mono; [|apply (Hbody visited x acc s Hinv)].
    intros acc' s' Hinv'. simpl.
    replace (visited ++ x :: r) with ((visited ++ [x]) ++ r)
      by (rewrite <- app_assoc; reflexivity).
    now apply IH.
Qed.

(** *** Oracles leave the connection alone *)

Lemma tables_conn (s s' : state) : conn s' = conn s -> tables s' = tables s.
Proof. unfold tables. now intros ->. Qed.

Ltac frame :=
  repeat match goal with
  | Hc : conn ?s' = conn ?s, Ht : tables ?s = ?X |- _ =>
      let Ht' := fresh "Ht" in
      assert (Ht' : tables s' = X) by (rewrite (tables_conn _ _ Hc); exact Ht);
      clear Hc Ht
  end.

Lemma wp_ask {A : Type} (oracle : environment -> N -> A) (Q : A -> state -> Prop)
    (s : state) :
  (forall v s', conn s' = conn s -> Q v s') -> wp e (ask oracle) Q s.
Proof. intros H. apply H. reflexivity. Qed.

Lemma wp_random_choice {A : Type} (population : list A) (Q : A -> state -> Prop)
    (s : state) :
  (forall x s', In x population -> conn s' = conn s -> Q x s') ->
  wp e (random_choice population) Q s.
Proof.
  intros H. unfold random_choice. apply wp_bind, wp_ask. intros r s' Hs'.
  destruct (nth_error population _) as [x|] eqn:Hnth; [|exact I].
  apply H; [|exact Hs']. eapply nth_error_In, Hnth.
Qed.

Lemma pick_weighted_In {A : Type} (population : list A) (weights : list Z) (r : Z)
    (x : A) :
  pick_weighted population weights r = Some x -> In x population.
Proof.
  revert weights r. induction population as [|y ps IH]; intros [|w ws] r H;
    simpl in H; try discriminate.
  destruct (r <? w).
  - inversion H. now left.
  - right. eapply IH, H.
Qed.

Lemma wp_random_choices {A : Type} (population : list A) (weights : list Z)
    (Q : A -> state -> Prop) (s : state) :
  (forall x s', In x population -> conn s' = conn s -> Q x s') ->
  wp e (random_choices population weights) Q s.
Proof.
  intros H. unfold random_choices. apply wp_bind, wp_ask. intros r s' Hs'.
  destruct (pick_weighted _ _ _) as [x|] eqn:Hpick; [|exact I].
  apply H; [|exact Hs']. eapply pick_weighted_In, Hpick.
Qed.

Lemma wp_random_randint (a b : Z) (Q : Z -> state -> Prop) (s : state) :
  (forall v s', conn s' = conn s -> Q v s') -> wp e (random_randint a b) Q s.
Proof.
  intros H. unfold random_randint. apply wp_bind, wp_ask. intros r s' Hs'.
  now apply H.
Qed.

Lemma wp_round2_uniform (a b : Z) (Q : Z -> state -> Prop) (s : state) :
  a <= b ->
  (forall v s', 100 * a <= v <= 100 * b -> conn s' = conn s -> Q v s') ->
  wp e (round2_uniform a b) Q s.
Proof.
  intros Hab H. unfold round2_uniform. apply wp_bind, wp_ask. intros r s' Hs'.
  apply H; [|exact Hs'].
  pose proof (Z.mod_pos_bound r (100 * (b - a) + 1) ltac:(lia)). lia.
Qed.

Lemma wp_draw_amount (Q : Z -> state -> Prop) (s : state) :
  (forall v s', 1000 <= v <= 500000 -> conn s' = conn s -> Q v s') ->
  wp e draw_amount Q s.
Proof.
  intros H. unfold draw_amount, random_below.
  apply wp_bind, wp_bind, wp_ask. intros r1 s1 Hs1. simpl.
  destruct (r1 mod 100 <? 70).
  - apply wp_round2_uniform; [lia|]. intros v s' Hv Hs'.
    apply H; [lia | congruence].
  - apply wp_bind, wp_bind, wp_ask. intros r2 s2 Hs2. simpl.
    destruct (r2 mod 100 <? 90);
      (apply wp_round2_uniform; [lia|]; intros v s' Hv Hs';
       apply H; [lia | congruence]).
Qed.

Lemma wp_db_call (Q : unit -> state -> Prop) (s : state) :
  (forall s', conn s' = conn s -> Q tt s') -> wp e db_call Q s.
Proof.
  intros H. unfold db_call. apply wp_bind, wp_ask. intros failed s' Hs'.
  destruct failed; [exact I | now apply H].
Qed.

(** *** Statements *)

Lemma wp_commit (Q : unit -> state -> Prop) (s : state) :
  (forall s', conn s' = {| committed := working (conn s); working := working (conn s) |} ->
              Q tt s') ->
  wp e commit Q s.
Proof.
  intros H. unfold commit. apply wp_bind, wp_db_call. intros s' Hs'.
  unfold wp. apply H. simpl. now rewrite Hs'.
Qed.

Lemma wp_execute_delete (tb : table) (Q : unit -> state -> Prop) (s : state) :
  (forall s', conn s' = {| committed := committed (conn s);
                           working := delete_from tb (working (conn s)) |} ->
              Q tt s') ->
  wp e (execute_delete tb) Q s.
Proof.
  intros H. unfold execute_delete. apply wp_bind, wp_db_call. intros s' Hs'.
  unfold wp, bind, get_working, put_working. simpl. apply H. now rewrite Hs'.
Qed.

Lemma wp_insert_transaction (customer_id merchant_id amount : Z)
    (payment_method status : string) (transaction_date : Z) (description : string)
    (Q : Z -> state -> Prop) (s : state) C Mt T :
  tables s = (C, Mt, T) ->
  (forall id s',
      tables s'
      = (C, Mt, T ++ [{| t_id := id; t_customer_id := customer_id;
                         t_merchant_id := merchant_id; t_amount := amount;
                         t_payment_method := payment_method; t_status := status;
                         t_transaction_date := transaction_date;
                         t_description := description |}]) ->
      Q id s') ->
  wp e (insert_transaction customer_id merchant_id amount payment_method status
          transaction_date description) Q s.
Proof.
  intros Hs H. unfold insert_transaction. apply wp_bind, wp_db_call.
  intros s1 Hs1. frame. unfold wp, bind, get_working, put_working, ret. simpl.
  apply H. unfold tables in *. simpl. inversion Ht. reflexivity.
Qed.

Lemma fold_max_ge (ids : list Z) (x : Z) : In x ids -> x <= fold_right Z.max 0 ids.
Proof.
  induction ids as [|y r IH]; simpl; [contradiction|].
  intros [->|H]; [lia|]. specialize (IH H). lia.
Qed.

(** [AUTOINCREMENT] never reuses a rowid of the table. *)
Lemma next_rowid_fresh (seq_ : Z) (ids : list Z) : ~ In (next_rowid seq_ ids) ids.
Proof.
  intros H. apply fold_max_ge in H. unfold next_rowid in H. lia.
Qed.

Lemma NoDup_snoc {A : Type} (l : list A) (x : A) :
  NoDup l -> ~ In x l -> NoDup (l ++ [x]).
Proof.
  intros Hl Hx. apply NoDup_rev in Hl. rewrite <- (rev_involutive (l ++ [x])).
  apply NoDup_rev. rewrite rev_app_distr. simpl. constructor; [|exact Hl].
  now rewrite <- in_rev.
Qed.

(** One iteration of [generate_customers]: the row is appended and its id
    recorded, or the insert violated a [UNIQUE] constraint and nothing
    changed. *)
Lemma wp_try_insert_customer (acc : list Z) (name email phone document : string)
    (Q : list Z -> state -> Prop) (s : state) C Mt T :
  tables s = (C, Mt, T) ->
  (forall s', tables s' = (C, Mt, T) -> Q acc s') ->
  (forall id s',
      ~ In id (map c_id C) ->
      tables s' = (C ++ [{| c_id := id; c_name := name; c_email := email;
                            c_phone := phone; c_document := document |}], Mt, T) ->
      Q (acc ++ [id]) s') ->
  wp e (except_IntegrityError
          (id <- insert_customer name email phone document ;; ret (acc ++ [id]))
          (ret acc)) Q s.
Proof.
  intros Hs Hskip Hins.
  unfold wp, except_IntegrityError, bind, insert_customer, db_call, ask, bind,
    get_working, put_working, raise, ret. simpl.
  destruct (io_fault e (tick s)); simpl; [exact I|].
  unfold tables in Hs. inversion Hs as [[HC HM HT]]. subst C Mt T.
  destruct (existsb _ (customers (working (conn s)))); simpl.
  - apply Hskip. unfold tables. simpl. reflexivity.
  - apply Hins; [apply next_rowid_fresh|]. unfold tables. simpl. reflexivity.
Qed.

Lemma wp_try_insert_merchant (acc : list Z) (name category document : string)
    (Q : list Z -> state -> Prop) (s : state) C Mt T :
  tables s = (C, Mt, T) ->
  (forall s', tables s' = (C, Mt, T) -> Q acc s') ->
  (forall id s',
      ~ In id (map m_id Mt) ->
      tables s' = (C, Mt ++ [{| m_id := id; m_name := name; m_category := category;
                                m_document := document |}], T) ->
      Q (acc ++ [id]) s') ->
  wp e (except_IntegrityError
          (id <- insert_merchant name category document ;; ret (acc ++ [id]))
          (ret acc)) Q s.
Proof.
  intros Hs Hskip Hins.
  unfold wp, except_IntegrityError, bind, insert_merchant, db_call, ask, bind,
    get_working, put_working, raise, ret. simpl.
  destruct (io_fault e (tick s)); simpl; [exact I|].
  unfold tables in Hs. inversion Hs as [[HC HM HT]]. subst C Mt T.
  destruct (existsb _ (merchants (working (conn s)))); simpl.
  - apply Hskip. unfold tables. simpl. reflexivity.
  - apply Hins; [apply next_rowid_fresh|]. unfold tables. simpl. reflexivity.
Qed.

(** *** The generators *)

Lemma wp_generate_customers (Q : list Z -> state -> Prop) (s : state) Mt T :
  tables s = ([], Mt, T) ->
  (forall C s', tables s' = (C, Mt, T) -> NoDup (map c_id C) -> Q (map c_id C) s') ->
  wp e generate_customers Q s.
Proof.
  intros Hs HQ. unfold generate_customers.
  pose (Inv := fun (_ : list Z) (acc : list Z) (s' : state) =>
                 exists C, tables s' = (C, Mt, T) /\ acc = map c_id C
                           /\ NoDup (map c_id C)).
  eapply wp_mono;
    [|apply (wp_for_each _ Inv (range NUM_CUSTOMERS)) with (visited := [])].
  - intros cids s' (C & Hs' & -> & Hnd). now apply HQ.
  - clear s Hs. intros visited x acc s (C & Hs & -> & Hnd). unfold fake.
    apply wp_bind, wp_ask; intros name s1 H1; frame.
    apply wp_bind, wp_ask; intros email s2 H2; frame.
    apply wp_bind, wp_ask; intros phone s3 H3; frame.
    apply wp_bind, wp_ask; intros document s4 H4; frame.
    eapply wp_try_insert_customer; [eassumption| |].
    + intros s' Hs'. exists C. auto.
    + intros id s' Hid Hs'. eexists. split; [exact Hs'|].
      rewrite map_app. split; [reflexivity|]. now apply NoDup_snoc.
  - exists []. repeat split; [exact Hs | constructor].
Qed.

Lemma wp_generate_merchants (Q : list Z -> state -> Prop) (s : state) C T :
  tables s = (C, [], T) ->
  (forall Mt s', tables s' = (C, Mt, T) -> NoDup (map m_id Mt) -> Q (map m_id Mt) s') ->
  wp e generate_merchants Q s.
Proof.
  intros Hs HQ. unfold generate_merchants.
  pose (Inv := fun (_ : list Z) (acc : list Z) (s' : state) =>
                 exists Mt, tables s' = (C, Mt, T) /\ acc = map m_id Mt
                            /\ NoDup (map m_id Mt)).
  eapply wp_mono;
    [|apply (wp_for_each _ Inv (range NUM_MERCHANTS)) with (visited := [])].
  - intros mids s' (Mt & Hs' & -> & Hnd). now apply HQ.
  - clear s Hs. intros visited x acc s (Mt & Hs & -> & Hnd). unfold fake.
    apply wp_bind, wp_ask; intros name s1 H1; frame.
    apply wp_bind, wp_random_choice; intros category s2 _ H2; frame.
    apply wp_bind, wp_ask; intros document s3 H3; frame.
    eapply wp_try_insert_merchant; [eassumption| |].
    + intros s' Hs'. exists Mt. auto.
    + intros id s' Hid Hs'. eexists. split; [exact Hs'|].
      rewrite map_app. split; [reflexivity|]. now apply NoDup_snoc.
  - exists []. repeat split; [exact Hs | constructor].
Qed.

Lemma wp_generate_transactions (customer_ids merchant_ids : list Z)
    (Q : Z -> state -> Prop) (s : state) C Mt T :
  tables s = (C, Mt, T) ->
  (forall n bulk s',
      tables s' = (C, Mt, T ++ bulk) ->
      Forall (row_ok customer_ids merchant_ids) bulk -> Q n s') ->
  wp e (generate_transactions customer_ids merchant_ids) Q s.
Proof.
  intros Hs HQ. unfold generate_transactions, datetime_now.
  apply wp_bind, wp_ask; intros now s0 H0; frame.
  pose (Inv := fun (_ : list Z) (_ : Z) (s' : state) =>
                 exists bulk, tables s' = (C, Mt, T ++ bulk)
                              /\ Forall (row_ok customer_ids merchant_ids) bulk).
  eapply wp_mono;
    [|apply (wp_for_each _ Inv (range NUM_TRANSACTIONS)) with (visited := [])].
  - intros n s' (bulk & Hs' & Hok). now apply (HQ n bulk).
  - clear s0 Ht. intros visited x acc s0 (bulk & Ht & Hok).
    apply wp_bind, wp_random_choice; intros customer_id s1 Hc H1; frame.
    apply wp_bind, wp_random_choice; intros merchant_id s2 Hm H2; frame.
    apply wp_bind, wp_draw_amount; intros amount s3 Ha H3; frame.
    apply wp_bind, wp_random_choices; intros payment_method s4 Hp H4; frame.
    apply wp_bind, wp_random_choices; intros status s5 Hst H5; frame.
    apply wp_bind, wp_random_randint; intros days_ago s6 H6; frame.
    apply wp_bind, wp_random_randint; intros hours s7 H7; frame.
    apply wp_bind, wp_random_randint; intros minutes s8 H8; frame.
    apply wp_bind, wp_random_randint; intros seconds s9 H9; frame.
    apply wp_bind, wp_random_choice; intros description s10 _ H10; frame.
    apply wp_bind. eapply wp_insert_transaction; [eassumption|].
    intros id s' Hs'. apply wp_ret.
    eexists. split; [rewrite Hs', <- app_assoc; reflexivity|].
    apply Forall_app. split; [exact Hok|]. constructor; [|constructor].
    unfold row_ok. simpl. repeat split; try assumption. lia.
  - exists []. rewrite app_nil_r. auto.
Qed.

Lemma wp_generate_anomalies (customer_ids merchant_ids : list Z)
    (Q : unit -> state -> Prop) (s : state) C Mt T :
  tables s = (C, Mt, T) ->
  (forall hv cid base_time burst s',
      tables s' = (C, Mt, T ++ hv :: burst) ->
      row_ok customer_ids merchant_ids hv -> t_amount hv = 2500000 ->
      In cid customer_ids ->
      Forall2 (burst_row cid base_time) (range 10) burst ->
      Forall (row_ok customer_ids merchant_ids) burst -> Q tt s') ->
  wp e (generate_anomalies customer_ids merchant_ids) Q s.
Proof.
  intros Hs HQ. unfold generate_anomalies, datetime_now.
  apply wp_bind, wp_random_choice; intros customer_id s1 Hc H1; frame.
  apply wp_bind, wp_random_choice; intros merchant_id s2 Hm H2; frame.
  apply wp_bind, wp_ask; intros now s3 H3; frame.
  apply wp_bind. eapply wp_insert_transaction; [eassumption|].
  intros id s4 Hs4.
  apply wp_bind, wp_random_choice; intros cid s5 Hcid H5; frame.
  apply wp_bind, wp_ask; intros now' s6 H6; frame.
  set (hv := {| t_id := id; t_customer_id := customer_id |}) in *.
  set (base_time := now' - timedelta 0 1 0 0).
  pose (Inv := fun (visited : list Z) (_ : unit) (s' : state) =>
                 exists burst, tables s' = (C, Mt, (T ++ [hv]) ++ burst)
                               /\ Forall2 (burst_row cid base_time) visited burst
                               /\ Forall (row_ok customer_ids merchant_ids) burst).
  eapply wp_mono;
    [|apply (wp_for_each _ Inv (range 10)) with (visited := [])].
  - intros [] s' (burst & Hs' & Hburst & Hok).
    apply (HQ hv cid base_time burst); try assumption.
    + rewrite Hs', <- app_assoc. reflexivity.
    + unfold row_ok, hv. simpl. repeat split; try assumption; try lia; auto.
    + reflexivity.
  - intros visited i acc t0 (burst & Hinv & Hburst & Hok).
    apply wp_bind, wp_random_choice; intros mid t1 Hmid G1; frame.
    apply wp_bind, wp_round2_uniform; [lia|]; intros amount t2 Ha G2; frame.
    apply wp_bind, wp_random_choice; intros payment_method t3 Hp G3; frame.
    apply wp_bind. eapply wp_insert_transaction; [eassumption|].
    intros id' s' Hs'. apply wp_ret.
    eexists. split; [rewrite Hs', <- app_assoc; reflexivity|]. split.
    + apply Forall2_app; [exact Hburst|]. constructor; [|constructor].
      split; reflexivity.
    + apply Forall_app. split; [exact Hok|]. constructor; [|constructor].
      unfold row_ok. simpl. repeat split; try assumption; try lia; auto.
  - exists []. rewrite app_nil_r. auto.
Qed.

(** *** [main] *)

Lemma wp_clear_old_data (Q : unit -> state -> Prop) (s : state) :
  (forall s', conn s' = {| committed := cleared (working (conn s));
                           working := cleared (working (conn s)) |} ->
              Q tt s') ->
  wp e clear_old_data Q s.
Proof.
  intros H. unfold clear_old_data.
  apply wp_bind, wp_execute_delete; intros s1 H1.
  apply wp_bind, wp_execute_delete; intros s2 H2.
  apply wp_bind, wp_execute_delete; intros s3 H3.
  apply wp_commit; intros s4 H4. apply H.
  rewrite H4, H3, H2, H1. reflexivity.
Qed.

Lemma wp_print_statistics (Q : unit -> state -> Prop) (s : state) :
  (forall s', conn s' = conn s -> Q tt s') -> wp e print_statistics Q s.
Proof.
  intros H. unfold print_statistics.
  apply wp_bind, wp_db_call; intros s1 H1.
  apply wp_bind, wp_db_call; intros s2 H2.
  apply wp_bind, wp_db_call; intros s3 H3.
  apply wp_bind, wp_db_call; intros s4 H4.
  apply wp_bind. unfold get_working at 1. unfold wp at 1.
  destruct (Sqlite.SUM _); [|exact I].
  apply wp_bind, wp_db_call; intros s5 H5.
  apply wp_db_call; intros s6 H6. apply H. congruence.
Qed.

Lemma wp_generate_new_data (Q : unit -> state -> Prop) (s : state) :
  tables s = ([], [], []) ->
  (forall s', generated_tables (tables s') -> Q tt s') ->
  wp e generate_new_data Q s.
Proof.
  intros Hs HQ. unfold generate_new_data.
  apply wp_bind. eapply wp_generate_customers; [eassumption|]. intros C s1 H1 HC.
  apply wp_bind. eapply wp_generate_merchants; [eassumption|]. intros Mt s2 H2 HM.
  apply wp_bind. eapply wp_generate_transactions; [eassumption|].
  intros n bulk s3 H3 Hbulk.
  eapply wp_generate_anomalies; [eassumption|].
  intros hv cid base_time burst s4 H4 Hhv Hamount Hcid Hburst Hok.
  apply HQ. rewrite H4. simpl.
  exists bulk, hv, cid, base_time, burst. repeat split; try assumption.
  apply Forall_app. split; [exact Hbulk|]. now constructor.
Qed.

Lemma wp_main_try (db : database) :
  wp e main_try (fun _ s => generated (committed (conn s)))
     {| tick := 0; conn := connect db |}.
Proof.
  unfold main_try.
  apply wp_bind, wp_clear_old_data; intros s1 H1.
  apply wp_bind, wp_generate_new_data; [unfold tables; rewrite H1; reflexivity|].
  intros s2 H2.
  apply wp_bind, wp_commit; intros s3 H3.
  apply wp_print_statistics; intros s4 H4.
  rewrite H4, H3. exact H2.
Qed.

End RunFacts.

(** A run of [main] that reports success leaves a generated store. *)
Lemma main_success_generated (e : GenerateData.environment) (db : database) :
  fst (GenerateData.main e db) = GenerateData.Success ->
  generated (snd (GenerateData.main e db)).
Proof.
  pose proof (wp_main_try e db) as H. unfold wp in H. unfold GenerateData.main.
  destruct (GenerateData.main_try e _) as [[[]|x] s]; simpl; intros Hok;
    [exact H | discriminate].
Qed.

(** A run of [main] that reports success leaves a store that respects the
    primary keys of [customers] and [merchants]. *)
Lemma main_success_primary_keys (e : GenerateData.environment) (db : database) :
  fst (GenerateData.main e db) = GenerateData.Success ->
  NoDup (map c_id (customers (snd (GenerateData.main e db))))
  /\ merchant_ids_unique (snd (GenerateData.main e db)).
Proof.
  intros Hok. apply main_success_generated in Hok.
  unfold generated, generated_tables in Hok.
  destruct Hok as (bulk & hv & cid & base_time & burst & _ & _ & _ & _ & _ & HC & HM).
  split; assumption.
Qed.

(** *** What never commits *)

Section CommitFacts.

Import GenerateData.

Lemma kc_ret {A : Type} (a : A) : keeps_committed (ret a).
Proof. intros e s. reflexivity. Qed.

Lemma kc_raise {A : Type} (x : exn) : keeps_committed (@raise A x).
Proof. intros e s. reflexivity. Qed.

Lemma kc_ask {A : Type} (oracle : environment -> N -> A) : keeps_committed (ask oracle).
Proof. intros e s. reflexivity. Qed.

Lemma kc_get_working : keeps_committed get_working.
Proof. intros e s. reflexivity. Qed.

Lemma kc_put_working (db : database) : keeps_committed (put_working db).
Proof. intros e s. reflexivity. Qed.

Lemma kc_bind {A B : Type} (m : M A) (f : A -> M B) :
  keeps_committed m -> (forall a, keeps_committed (f a)) -> keeps_committed (bind m f).
Proof.
  intros Hm Hf e s. unfold bind. specialize (Hm e s).
  destruct (m e s) as [[a|x] s']; simpl in *; [|exact Hm].
  rewrite (Hf a e s'). exact Hm.
Qed.

Lemma kc_except {A : Type} (m h : M A) :
  keeps_committed m -> keeps_committed h -> keeps_committed (except_IntegrityError m h).
Proof.
  intros Hm Hh e s. unfold except_IntegrityError. specialize (Hm e s).
  destruct (m e s) as [[a|[]] s']; simpl in *; try exact Hm.
  rewrite (Hh e s'). exact Hm.
Qed.

Lemma kc_for_each {A S : Type} (l : list A) (body : A -> S -> M S) :
  (forall x acc, keeps_committed (body x acc)) ->
  forall acc, keeps_committed (for_each l body acc).
Proof.
  intros Hbody. induction l as [|x r IH]; intros acc; simpl.
  - apply kc_ret.
  - apply kc_bind; [apply Hbody | exact IH].
Qed.

Ltac kc :=
  repeat match goal with
  | |- keeps_committed (bind _ _) => apply kc_bind; [|intros]
  | |- keeps_committed (ret _) => apply kc_ret
  | |- keeps_committed (raise _) => apply kc_raise
  | |- keeps_committed (ask _) => apply kc_ask
  | |- keeps_committed get_working => apply kc_get_working
  | |- keeps_committed (put_working _) => apply kc_put_working
  | |- keeps_committed (except_IntegrityError _ _) => apply kc_except
  | |- keeps_committed (for_each _ _ _) => apply kc_for_each; intros
  | |- keeps_committed (match ?x with _ => _ end) => destruct x
  | |- keeps_committed _ =>
      first
        [ progress cbv zeta
        | progress unfold random_choice, random_below, round2_uniform,
            random_choices, random_randint, fake, datetime_now, db_call,
            draw_amount, insert_customer, insert_merchant, insert_transaction ]
  end.

Lemma kc_generate_new_data : keeps_committed generate_new_data.
Proof.
  unfold generate_new_data, generate_customers, generate_merchants,
    generate_transactions, generate_anomalies. kc.
Qed.

End CommitFacts.

(** ** The generator *)

Section GeneratorTheorems.

Import GenerateData.

Lemma clear_old_data_ok (e : environment) (db : database) (s1 : state) :
  clear_old_data e {| tick := 0; conn := connect db |} = (Ok tt, s1) ->
  conn s1 = {| committed := cleared db; working := cleared db |}.
Proof.
  intros Hrun.
  pose proof (wp_clear_old_data e
    (fun _ s' => conn s' = {| committed := cleared db; working := cleared db |})
    {| tick := 0; conn := connect db |}) as H.
  unfold wp in H. rewrite Hrun in H. apply H. trivial.
Qed.

(** C1, as the code has it.  When the old rows have been deleted and that
    deletion committed, and the generation that follows raises an exception,
    [main] reports the failure and leaves the three tables empty: no row of
    the failing run is kept, and the rows of the previous run are not
    restored. *)
Theorem main_failure_during_generation (e : environment) (db : database)
    (s1 s2 : state) (x : exn) :
  clear_old_data e {| tick := 0; conn := connect db |} = (Ok tt, s1) ->
  generate_new_data e s1 = (Raise x, s2) ->
  main e db = (Failed x, cleared db)
  /\ customers (cleared db) = []
  /\ merchants (cleared db) = []
  /\ transactions (cleared db) = [].
Proof.
  intros Hclear Hgen. split; [|repeat split].
  pose proof (clear_old_data_ok _ _ _ Hclear) as Hs1.
  pose proof (kc_generate_new_data e s1) as Hkc. rewrite Hgen in Hkc. simpl in Hkc.
  unfold main, main_try. unfold bind at 1. rewrite Hclear.
  unfold bind at 1. rewrite Hgen. unfold close, rollback. simpl.
  rewrite Hkc, Hs1. reflexivity.
Qed.

Lemma main_failure_during_generation_witness :
  main failing_environment sample_store
  = (Failed OperationalError, cleared sample_store)
  /\ customers (cleared sample_store) = []
  /\ merchants (cleared sample_store) = []
  /\ transactions (cleared sample_store) = [].
Proof.
  pose (s0 := {| tick := 0; conn := connect sample_store |}).
  pose (s1 := snd (clear_old_data failing_environment s0)).
  pose (s2 := snd (generate_new_data failing_environment s1)).
  apply (main_failure_during_generation failing_environment sample_store s1 s2
           OperationalError).
  - vm_compute. reflexivity.
  - vm_compute. reflexivity.
Defined.

(** C1, as the specification has it, fails: a storage fault at the first
    [INSERT] of the generation, on a store that holds the rows of a previous
    run, is reported and rolled back, yet the store is not in its prior
    state: the rows of the previous run are gone. *)
Lemma main_failure_loses_prior_rows_counterexample :
  let s0 := {| tick := 0; conn := connect sample_store |} in
  let s1 := snd (clear_old_data failing_environment s0) in
  let after := snd (main failing_environment sample_store) in
  fst (clear_old_data failing_environment s0) = Ok tt
  /\ fst (generate_new_data failing_environment s1) = Raise OperationalError
  /\ fst (main failing_environment sample_store) = Failed OperationalError
  /\ List.length (customers sample_store) = 2%nat
  /\ List.length (merchants sample_store) = 3%nat
  /\ List.length (transactions sample_store) = 6%nat
  /\ customers after = [] /\ merchants after = [] /\ transactions after = []
  /\ after <> sample_store.
Proof.
  vm_compute. repeat split. discriminate.
Qed.

(** C7.  After a run of [main] that reports success, every transaction of
    the store refers to a customer and to a merchant of the store (all of
    them created by that run, the tables having been emptied first), has a
    positive amount, one of the four statuses and one of the four payment
    methods. *)
Theorem generated_transactions_valid (e : environment) (db : database) :
  fst (main e db) = Success ->
  let after := snd (main e db) in
  Forall (row_ok (map c_id (customers after)) (map m_id (merchants after)))
         (transactions after).
Proof.
  intros Hok. cbv zeta. apply main_success_generated in Hok.
  unfold generated, generated_tables in Hok.
  destruct Hok as (bulk & hv & cid & base_time & burst & _ & Hall & _).
  exact Hall.
Qed.

(** *** The injected anomalies are found *)

Lemma In_nonempty {A : Type} (x : A) (l : list A) : In x l -> l <> [].
Proof. intros H ->. contradiction. Qed.

Lemma In_id_customer (C : list customer) (id : Z) :
  In id (map c_id C) -> exists c, In c C /\ c_id c = id.
Proof. intros H. apply in_map_iff in H. destruct H as (c & Hc & Hin). eauto. Qed.

Lemma In_id_merchant (Mt : list merchant) (id : Z) :
  In id (map m_id Mt) -> exists m, In m Mt /\ m_id m = id.
Proof. intros H. apply in_map_iff in H. destruct H as (m & Hm & Hin). eauto. Qed.

Lemma generated_high_value (db : database) :
  generated db -> Database.query_high_value db threshold_amount_default <> [].
Proof.
  unfold generated, generated_tables.
  intros (bulk & hv & cid & base_time & burst & HT & Hall & Hamount & _).
  assert (Hhv : In hv (transactions db)).
  { rewrite HT. apply in_or_app. right. now left. }
  rewrite Forall_forall in Hall. destruct (Hall hv Hhv) as (Hc & Hm & _).
  destruct (In_id_customer _ _ Hc) as (c & Hcin & Hcid).
  destruct (In_id_merchant _ _ Hm) as (m & Hmin & Hmid).
  unfold Database.query_high_value.
  apply limit_nonempty; [lia|]. apply order_by_desc_nonempty.
  apply (In_nonempty (Database.high_value_of (hv, c, m))).
  apply in_map, filter_In. split.
  - unfold Database.join_transactions_customers_merchants.
    apply in_flat_map. exists hv. split; [exact Hhv|].
    apply in_flat_map. exists c. split.
    + apply filter_In. split; [exact Hcin | apply Z.eqb_eq; congruence].
    + apply in_map, filter_In. split; [exact Hmin | apply Z.eqb_eq; congruence].
  - simpl. rewrite Hamount. reflexivity.
Qed.

Lemma filter_cover_length {A : Type} (p q : A -> bool) (l : list A) :
  Forall (fun x => p x = true \/ q x = true) l ->
  (List.length l <= List.length (filter p l) + List.length (filter q l))%nat.
Proof.
  induction 1 as [|x r Hx _ IH]; simpl; [lia|].
  destruct Hx as [-> | ->]; simpl; destruct (p x), (q x); simpl; lia.
Qed.

Lemma filter_length_In {A : Type} (p : A -> bool) (l : list A) :
  (0 < List.length (filter p l))%nat -> exists x, In x l /\ p x = true.
Proof.
  destruct (filter p l) as [|x r] eqn:Hf; simpl; [lia|]. intros _.
  exists x. apply filter_In. rewrite Hf. now left.
Qed.

Lemma Forall2_Forall_r {A B : Type} (R : A -> B -> Prop) (P : A -> Prop)
    (Q : B -> Prop) (l : list A) (l' : list B) :
  (forall a b, P a -> R a b -> Q b) ->
  Forall2 R l l' -> Forall P l -> Forall Q l'.
Proof.
  intros H HR. induction HR as [|a b l l' Hab _ IH]; intros HP; constructor;
    inversion HP; subst; eauto.
Qed.

(** The ten rows of a burst lie in the hour of its first row or in the
    next one, so one of these two hours holds five of them. *)
Lemma burst_pigeonhole (cid base_time : Z) (burst : list transaction) :
  Forall2 (burst_row cid base_time) (range 10) burst ->
  exists w,
    (5 <= List.length
            (filter (fun t => Sqlite.pair_eqb (Database.customer_hour t) (cid, w))
                    burst))%nat.
Proof.
  intros Hburst.
  set (w0 := hour_window base_time).
  set (p := fun w t => Sqlite.pair_eqb (Database.customer_hour t) (cid, w)).
  assert (Hlen : List.length burst = 10%nat).
  { apply Forall2_length in Hburst. rewrite <- Hburst. reflexivity. }
  assert (Hrange : Forall (fun i => 0 <= i <= 9) (range 10)).
  { vm_compute. repeat constructor; discriminate. }
  assert (Hcover : Forall (fun t => p w0 t = true \/ p (w0 + 1) t = true) burst).
  { refine (Forall2_Forall_r _ _ _ _ _ _ Hburst Hrange).
    intros i t Hi Hit. simpl in Hi. destruct Hit as [Hc Hd]. unfold p.
    rewrite !pair_eqb_spec. unfold Database.customer_hour. rewrite Hc, Hd.
    assert (Hw : hour_window (base_time + timedelta 0 0 (i * 2) 0) = w0
                 \/ hour_window (base_time + timedelta 0 0 (i * 2) 0) = w0 + 1).
    { unfold w0, hour_window, timedelta.
      Z.to_euclidean_division_equations. lia. }
    destruct Hw as [-> | ->]; auto. }
  apply filter_cover_length in Hcover. rewrite Hlen in Hcover.
  destruct (Nat.le_gt_cases 5 (List.length (filter (p w0) burst))) as [H|H].
  - exists w0. exact H.
  - exists (w0 + 1). fold (p (w0 + 1)). lia.
Qed.

Lemma generated_high_frequency (db : database) :
  generated db -> Database.query_frequency db threshold_frequency_default <> [].
Proof.
  unfold generated, generated_tables.
  intros (bulk & hv & cid & base_time & burst & HT & _ & _ & Hcid & Hburst & _).
  destruct (burst_pigeonhole _ _ _ Hburst) as (w & Hfive).
  set (p := fun t => Sqlite.pair_eqb (Database.customer_hour t) (cid, w)) in *.
  destruct (filter_length_In p burst ltac:(lia)) as (r & Hr & Hpr).
  assert (HrT : In r (transactions db)).
  { rewrite HT. apply in_or_app. right. now right. }
  assert (Hkey : Database.customer_hour r = (cid, w)) by now apply pair_eqb_spec.
  (* the group of the burst in the common table expression *)
  destruct (group_by_cover Sqlite.pair_eqb Database.customer_hour pair_eqb_spec
              _ _ HrT) as (g & Hg & Hgkey).
  destruct (group_by_In Sqlite.pair_eqb Database.customer_hour _ _ Hg) as [_ Hsnd].
  rewrite Hkey in Hgkey.
  assert (Hcount : 5 <= Sqlite.count (snd g)).
  { rewrite Hsnd, Hgkey, HT. fold p. unfold Sqlite.count.
    rewrite filter_app, length_app. cbn [filter].
    destruct (p hv); cbn [List.length]; lia. }
  set (ch := {| Database.ch_customer_id := t_customer_id (fst g);
                Database.ch_hour_window := hour_window (t_transaction_date (fst g));
                Database.ch_transactions_count := Sqlite.count (snd g) |}).
  assert (Hch : In ch (Database.customer_hourly db threshold_frequency_default)).
  { unfold Database.customer_hourly.
    apply in_map_iff. exists g. split; [reflexivity|].
    apply filter_In. split; [exact Hg|].
    unfold threshold_frequency_default. apply Z.geb_le. exact Hcount. }
  unfold Database.customer_hour in Hgkey, Hkey.
  inversion Hgkey as [[Hgc Hgw]]. inversion Hkey as [[Hrc Hrw]].
  destruct (In_id_customer _ _ Hcid) as (c & Hcin & Hcidc).
  unfold Database.query_frequency.
  apply limit_nonempty; [lia|]. apply order_by_desc_nonempty.
  assert (Hjoin : In (ch, c, r)
            (Database.join_hourly_customers_transactions db
               (Database.customer_hourly db threshold_frequency_default))).
  { unfold Database.join_hourly_customers_transactions.
    apply in_flat_map. exists ch. split; [exact Hch|].
    apply in_flat_map. exists c. split.
    - apply filter_In. split; [exact Hcin|]. apply Z.eqb_eq. simpl. congruence.
    - apply in_map, filter_In. split; [exact HrT|].
      apply andb_true_iff. split; apply Z.eqb_eq; simpl; congruence. }
  destruct (group_by_cover Sqlite.pair_eqb
              (fun r => (t_customer_id (snd r), Database.ch_hour_window (fst (fst r))))
              pair_eqb_spec _ _ Hjoin) as (g' & Hg' & _).
  apply (In_nonempty (Database.high_frequency_of g')). now apply in_map.
Qed.

(** C4.  After a run of [main] that reports success, both anomaly queries
    find something at their default thresholds: the high-value query at
    10000.00 returns a row, and so does the high-frequency query at 5,
    wherever the hour boundary falls within the injected burst. *)
Theorem generated_anomalies_found (e : environment) (db : database) :
  fst (main e db) = Success ->
  let after := snd (main e db) in
  Database.query_high_value after threshold_amount_default <> []
  /\ Database.query_frequency after threshold_frequency_default <> [].
Proof.
  intros Hok. cbv zeta. apply main_success_generated in Hok. split.
  - now apply generated_high_value.
  - now apply generated_high_frequency.
Qed.

Lemma generated_transactions_valid_witness :
  let after := snd (main quiet_environment provisioned) in
  Forall (row_ok (map c_id (customers after)) (map m_id (merchants after)))
         (transactions after).
Proof.
  apply (generated_transactions_valid quiet_environment provisioned).
  vm_compute. reflexivity.
Defined.

Lemma generated_anomalies_found_witness :
  let after := snd (main quiet_environment sample_store) in
  Database.query_high_value after threshold_amount_default <> []
  /\ Database.query_frequency after threshold_frequency_default <> [].
Proof.
  apply (generated_anomalies_found quiet_environment sample_store).
  vm_compute. reflexivity.
Defined.

End GeneratorTheorems.

(** ** More facts about grouping and ordering *)

Lemma total_perm (l l' : list Z) :
  Permutation l l' -> Sqlite.total l = Sqlite.total l'.
Proof.
  induction 1; simpl; try lia.
Qed.

Lemma total_order_by_desc {A : Type} (key v : A -> Z) (l : list A) :
  Sqlite.total (map v (Sqlite.order_by_desc key l)) = Sqlite.total (map v l).
Proof. apply total_perm, Permutation_map, order_by_desc_perm. Qed.

Lemma total_nonneg {A : Type} (v : A -> Z) (l : list A) :
  (forall x, In x l -> 0 <= v x) -> 0 <= Sqlite.total (map v l).
Proof.
  induction l as [|x r IH]; simpl; intros H; [lia|].
  pose proof (H x (or_introl eq_refl)). specialize (IH (fun y Hy => H y (or_intror Hy))).
  lia.
Qed.

Lemma total_le {A : Type} (v w : A -> Z) (l : list A) :
  (forall x, In x l -> v x <= w x) ->
  Sqlite.total (map v l) <= Sqlite.total (map w l).
Proof.
  induction l as [|x r IH]; simpl; intros H; [lia|].
  pose proof (H x (or_introl eq_refl)). specialize (IH (fun y Hy => H y (or_intror Hy))).
  lia.
Qed.

Lemma sorted_desc_strict {A : Type} (key : A -> Z) (rows : list A) :
  sorted_desc key rows -> NoDup (map key rows) -> strictly_desc key rows.
Proof.
  unfold sorted_desc, strictly_desc. induction 1 as [|x r Hr IH Hall]; intros Hnd.
  - constructor.
  - simpl in Hnd. inversion Hnd as [|? ? Hx Hnd']; subst.
    constructor; [now apply IH|].
    rewrite Forall_forall in *. intros y Hy. specialize (Hall y Hy).
    assert (key y <> key x); [|lia].
    intros Heq. apply Hx. rewrite <- Heq. now apply in_map.
Qed.

Lemma NoDup_map_opp (l : list Z) : NoDup l -> NoDup (map Z.opp l).
Proof.
  induction 1 as [|x r Hx _ IH]; simpl; constructor; [|exact IH].
  intros Hin. apply in_map_iff in Hin. destruct Hin as (y & Hy & Hin).
  assert (y = x) by lia. subst. contradiction.
Qed.

Lemma order_by_asc_perm {A : Type} (key : A -> Z) (l : list A) :
  Permutation (Sqlite.order_by_asc key l) l.
Proof. apply order_by_desc_perm. Qed.

Lemma order_by_asc_strict {A : Type} (key : A -> Z) (rows : list A) :
  NoDup (map key rows) -> strictly_asc key (Sqlite.order_by_asc key rows).
Proof.
  intros Hnd. unfold Sqlite.order_by_asc.
  assert (Hs : strictly_desc (fun x => - key x)
                 (Sqlite.order_by_desc (fun x => - key x) rows)).
  { apply sorted_desc_strict; [apply order_by_desc_sorted|].
    apply (Permutation_NoDup (l := map (fun x => - key x) rows)).
    - apply Permutation_map, Permutation_sym, order_by_desc_perm.
    - rewrite <- (map_map key Z.opp). now apply NoDup_map_opp. }
  unfold strictly_desc, strictly_asc in *.
  induction Hs as [|x r _ IH Hall]; constructor; [exact IH|].
  eapply Forall_impl; [|exact Hall]. simpl. intros y Hy. lia.
Qed.

Section PartitionFacts.

Context {A K : Type}.
Variable eqb : K -> K -> bool.
Variable key : A -> K.
Hypothesis eqb_spec : forall a b, eqb a b = true <-> a = b.

Lemma eqb_refl_spec (a : K) : eqb a a = true.
Proof. now apply eqb_spec. Qed.

Lemma NoDup_map_filter (p : A -> bool) (l : list A) :
  NoDup (map key l) -> NoDup (map key (filter p l)).
Proof.
  induction l as [|x r IH]; simpl; intros Hnd; [constructor|].
  inversion Hnd as [|? ? Hx Hnd']; subst.
  destruct (p x); simpl; [|now apply IH].
  constructor; [|now apply IH].
  intros Hin. apply Hx. apply in_map_iff in Hin. destruct Hin as (y & Hy & Hin).
  apply filter_In in Hin. rewrite <- Hy. apply in_map. tauto.
Qed.

(** The groups have pairwise different keys. *)
Lemma distinct_by_NoDup (l : list A) :
  NoDup (map key (Sqlite.distinct_by eqb key l)).
Proof.
  induction l as [|x r IH]; simpl; [constructor|].
  constructor; [|now apply NoDup_map_filter].
  intros Hin. apply in_map_iff in Hin. destruct Hin as (y & Hy & Hin).
  apply filter_In in Hin. destruct Hin as [_ Hneq].
  rewrite Hy, eqb_refl_spec in Hneq. discriminate.
Qed.

Lemma group_by_keys (l : list A) :
  map (fun g => key (fst g)) (Sqlite.group_by eqb key l)
  = map key (Sqlite.distinct_by eqb key l).
Proof. unfold Sqlite.group_by. rewrite map_map. reflexivity. Qed.

Lemma unique_key_total (D : list A) (k : K) (c : Z) :
  NoDup (map key D) -> In k (map key D) ->
  Sqlite.total (map (fun x => if eqb k (key x) then c else 0) D) = c.
Proof.
  induction D as [|x r IH]; simpl; intros Hnd Hin; [contradiction|].
  inversion Hnd as [|? ? Hx Hnd']; subst.
  destruct (eqb k (key x)) eqn:Hk.
  - apply eqb_spec in Hk. subst k.
    assert (Hz : Sqlite.total (map (fun y => if eqb (key x) (key y) then c else 0) r) = 0).
    { transitivity (Sqlite.total (map (fun _ : A => 0) r)); [|apply total_zero].
      apply total_ext. intros y Hy.
      destruct (eqb (key x) (key y)) eqn:Hxy; [|reflexivity].
      apply eqb_spec in Hxy. exfalso. apply Hx. rewrite Hxy. now apply in_map. }
    rewrite Hz. lia.
  - destruct Hin as [Heq|Hin].
    + rewrite Heq, eqb_refl_spec in Hk. discriminate.
    + rewrite (IH Hnd' Hin). lia.
Qed.

(** Every row falls into exactly one group: an aggregate that is a sum over
    the groups is the sum over the rows. *)
Lemma group_by_partition (v : A -> Z) (l : list A) :
  Sqlite.total (map (fun g => Sqlite.total (map v (snd g))) (Sqlite.group_by eqb key l))
  = Sqlite.total (map v l).
Proof.
  unfold Sqlite.group_by. rewrite map_map. cbn [snd].
  pose proof (distinct_by_NoDup l) as Hnd.
  assert (Hcover : forall y, In y l -> In (key y) (map key (Sqlite.distinct_by eqb key l))).
  { intros y Hy. destruct (distinct_by_cover eqb key eqb_spec l y Hy) as (x & Hx & Hk).
    rewrite <- Hk. now apply in_map. }
  revert Hnd Hcover. generalize (Sqlite.distinct_by eqb key l) as D. intros D Hnd.
  induction l as [|y m IH]; intros Hcover.
  - simpl. apply total_zero.
  - transitivity
      (Sqlite.total (map (fun x => (if eqb (key y) (key x) then v y else 0)
                                   + Sqlite.total (map v (filter (fun z => eqb (key z) (key x)) m))) D)).
    + apply total_ext. intros x _. cbn [filter].
      destruct (eqb (key y) (key x)); simpl; lia.
    + rewrite total_pointwise_add, IH by (intros z Hz; apply Hcover; now right).
      rewrite unique_key_total; [reflexivity | exact Hnd |].
      apply Hcover. now left.
Qed.

Lemma group_by_count (l : list A) :
  Sqlite.total (map (fun g => Sqlite.count (snd g)) (Sqlite.group_by eqb key l))
  = Sqlite.count l.
Proof.
  rewrite (count_total l), <- (group_by_partition (fun _ => 1) l).
  apply total_ext. intros g _. apply count_total.
Qed.

Lemma group_by_nonempty (l : list A) (g : A * list A) :
  In g (Sqlite.group_by eqb key l) -> 1 <= Sqlite.count (snd g).
Proof.
  intros Hg. apply (group_by_first eqb key eqb_spec) in Hg.
  unfold Sqlite.count. destruct (snd g); [contradiction|]. simpl List.length. lia.
Qed.

End PartitionFacts.

(** ** The grouped reports of [database.py] *)

Section ReportFacts.

Import Sqlite Database.

Lemma round_div_percent_bounds (a n : Z) :
  0 <= a <= n -> 0 < n -> 0 <= round_div (10000 * a) n <= 10000.
Proof.
  intros Ha Hn. unfold round_div.
  destruct (10000 * a <? 0) eqn:Hc; [apply Z.ltb_lt in Hc; lia|].
  split.
  - apply Z.div_pos; lia.
  - assert ((2 * (10000 * a) + n) / (2 * n) < 10001)
      by (apply Z.div_lt_upper_bound; lia).
    lia.
Qed.

Lemma count_filter_le {A : Type} (p : A -> bool) (l : list A) :
  0 <= count (filter p l) <= count l.
Proof.
  unfold count. pose proof (filter_length_le p l). lia.
Qed.

(** The approval rate of a group that has a row is a percentage, never NULL. *)
Lemma approval_rate_of_spec (g : list transaction) :
  g <> [] ->
  exists r, approval_rate_of g = Some r /\ 0 <= r <= 10000
            /\ r = round_div (10000 * count (filter approved g)) (count g).
Proof.
  intros Hg. unfold approval_rate_of.
  assert (Hsum : SUM (map (fun t => if approved t then 1 else 0) g)
                 = Some (count (filter approved g))).
  { rewrite <- approved_ones. destruct g; [contradiction | reflexivity]. }
  rewrite Hsum. unfold ROUND_PERCENT.
  assert (Hpos : 0 < count g).
  { unfold count. destruct g; [contradiction|]. cbn [List.length]. lia. }
  destruct (count g =? 0) eqn:Hz; [apply Z.eqb_eq in Hz; lia|].
  eexists. split; [reflexivity|]. split; [|reflexivity].
  apply round_div_percent_bounds; [apply count_filter_le | exact Hpos].
Qed.

Lemma count_status_count (s : string) (g : list transaction) :
  count_status s g = count (filter (fun t => String.eqb (t_status t) s) g).
Proof. unfold count_status. now rewrite count_total, total_filter. Qed.

Lemma approved_volume_total (g : list transaction) :
  approved_volume g = total (map t_amount (filter approved g)).
Proof. unfold approved_volume. now rewrite total_filter. Qed.

Lemma filter_filter {A : Type} (p q : A -> bool) (l : list A) :
  filter p (filter q l) = filter (fun x => p x && q x) l.
Proof.
  induction l as [|x r IH]; simpl; [reflexivity|].
  destruct (q x); simpl; rewrite ?andb_true_r, ?andb_false_r;
    [destruct (p x)|]; now rewrite IH.
Qed.

(** *** [get_daily_summary] *)

Lemma daily_row_inv (db : database) (today days : Z) (r : daily_row) :
  In r (get_daily_summary db today days) ->
  exists t g,
    r = daily_of_group (t, g)
    /\ In t g
    /\ g = filter (fun y => DATE (t_transaction_date y) =? DATE (t_transaction_date t))
             (filter (since (date_now_minus today days)) (transactions db)).
Proof.
  unfold get_daily_summary. intros Hr.
  apply order_by_desc_In, in_map_iff in Hr. destruct Hr as ([t g] & <- & Hg).
  pose proof (group_by_first Z.eqb _ Z.eqb_eq _ _ Hg) as Hfirst.
  apply (group_by_In Z.eqb) in Hg. destruct Hg as [_ Hg]. simpl in *.
  now exists t, g.
Qed.



(** X2.  Whatever the lookback, the daily summary has one row per day, in
    strictly descending order of date; every row stands for at least one
    transaction, its approved count does not exceed its total, its volume
    is the sum of its approved amounts only, and its approval rate is a
    percentage between 0 and 100, never NULL. *)
Theorem get_daily_summary_rows (db : database) (today days : Z) :
  let rows := get_daily_summary db today days in
  strictly_desc ds_date rows
  /\ Forall (fun r =>
       1 <= ds_total_transactions r
       /\ 0 <= ds_approved r <= ds_total_transactions r
       /\ ds_total_volume r
          = total (map t_amount
              (filter (fun t => approved t
                                && (DATE (t_transaction_date t) =? ds_date r)
                                && since (date_now_minus today days) t)
                      (transactions db)))
       /\ exists p, ds_approval_rate r = Some p /\ 0 <= p <= 10000) rows.
Proof.
  cbv zeta. split.
  - apply sorted_desc_strict; [apply order_by_desc_sorted|].
    unfold get_daily_summary.
    eapply Permutation_NoDup;
      [apply Permutation_map, Permutation_sym, order_by_desc_perm|].
    rewrite map_map. cbn [daily_of_group ds_date].
    rewrite (group_by_keys Z.eqb (fun t => DATE (t_transaction_date t))).
    apply (distinct_by_NoDup Z.eqb _ Z.eqb_eq).
  - apply Forall_forall. intros r Hr.
    destruct (daily_row_inv _ _ _ _ Hr) as (t & g & -> & Hin & Hg).
    cbn [daily_of_group ds_total_transactions ds_approved ds_total_volume
         ds_approval_rate ds_date fst snd].
    assert (Hne : g <> []) by (intros ->; contradiction).
    split; [|split; [|split]].
    + unfold count. destruct g; [contradiction|]. cbn [List.length]. lia.
    + rewrite count_status_count. apply count_filter_le.
    + rewrite approved_volume_total, Hg, !filter_filter. reflexivity.
    + destruct (approval_rate_of_spec g Hne) as (p & Hp & Hb & _). eauto.
Qed.

Lemma status_indicators (s : string) :
  In s GenerateData.STATUSES ->
  (if String.eqb s "approved" then 1 else 0)
  + (if String.eqb s "declined" then 1 else 0)
  + (if String.eqb s "pending" then 1 else 0)
  + (if String.eqb s "refunded" then 1 else 0) = 1.
Proof.
  simpl. intros [<-|[<-|[<-|[<-|[]]]]]; reflexivity.
Qed.

(** X3.  When every transaction of the store has one of the four statuses,
    the four status counts of each daily row add up to its total. *)
Theorem get_daily_summary_status_counts (db : database) (today days : Z) :
  statuses_valid db ->
  Forall (fun r => ds_approved r + ds_declined r + ds_pending r + ds_refunded r
                   = ds_total_transactions r)
         (get_daily_summary db today days).
Proof.
  intros Hvalid. apply Forall_forall. intros r Hr.
  destruct (daily_row_inv _ _ _ _ Hr) as (t & g & -> & _ & Hg).
  cbn [daily_of_group ds_total_transactions ds_approved ds_declined ds_pending
       ds_refunded snd].
  unfold count_status. rewrite <- !total_pointwise_add, count_total.
  apply total_ext. intros y Hy. apply status_indicators.
  rewrite Hg in Hy. apply filter_In in Hy. destruct Hy as [Hy _].
  apply filter_In in Hy. destruct Hy as [Hy _].
  unfold statuses_valid in Hvalid. rewrite Forall_forall in Hvalid. now apply Hvalid.
Qed.

Lemma get_daily_summary_status_counts_witness :
  Forall (fun r => ds_approved r + ds_declined r + ds_pending r + ds_refunded r
                   = ds_total_transactions r)
         (get_daily_summary sample_store 20760 30).
Proof.
  apply (get_daily_summary_status_counts sample_store 20760 30).
  unfold statuses_valid. simpl. repeat constructor; simpl; tauto.
Defined.

(** *** [get_payment_method_stats] *)

Lemma payment_method_row_inv (db : database) (r : payment_method_row) :
  In r (get_payment_method_stats db) ->
  exists t g,
    r = payment_method_of_group (t, g)
    /\ In t g
    /\ g = filter (fun y => String.eqb (t_payment_method y) (t_payment_method t))
             (transactions db).
Proof.
  unfold get_payment_method_stats. intros Hr.
  apply order_by_desc_In, in_map_iff in Hr. destruct Hr as ([t g] & <- & Hg).
  pose proof (group_by_first String.eqb _ String.eqb_eq _ _ Hg) as Hfirst.
  apply (group_by_In String.eqb) in Hg. destruct Hg as [_ Hg]. simpl in *.
  now exists t, g.
Qed.

(** X4.  The payment-method report has one row per payment method that
    occurs, in descending order of transaction count, and the counts add up
    to the number of transactions; each row counts the transactions of its
    method, sums the approved ones as volume, and has an approval rate
    between 0 and 100, never NULL. *)
Theorem get_payment_method_stats_spec (db : database) :
  let rows := get_payment_method_stats db in
  NoDup (map pm_payment_method rows)
  /\ sorted_desc pm_total_transactions rows
  /\ total (map pm_total_transactions rows) = count (transactions db)
  /\ Forall (fun r =>
       1 <= pm_total_transactions r
       /\ pm_total_transactions r
          = count (filter (fun t => String.eqb (t_payment_method t) (pm_payment_method r))
                          (transactions db))
       /\ 0 <= pm_approved r <= pm_total_transactions r
       /\ pm_total_volume r
          = total (map t_amount
              (filter (fun t => approved t
                                && String.eqb (t_payment_method t) (pm_payment_method r))
                      (transactions db)))
       /\ exists p, pm_approval_rate r = Some p /\ 0 <= p <= 10000) rows.
Proof.
  cbv zeta. split; [|split; [|split]].
  - unfold get_payment_method_stats.
    eapply Permutation_NoDup;
      [apply Permutation_map, Permutation_sym, order_by_desc_perm|].
    rewrite map_map. cbn [payment_method_of_group pm_payment_method].
    rewrite (group_by_keys String.eqb t_payment_method).
    apply (distinct_by_NoDup String.eqb _ String.eqb_eq).
  - apply order_by_desc_sorted.
  - unfold get_payment_method_stats. rewrite total_order_by_desc, map_map.
    cbn [payment_method_of_group pm_total_transactions].
    apply (group_by_count String.eqb _ String.eqb_eq).
  - apply Forall_forall. intros r Hr.
    destruct (payment_method_row_inv _ _ Hr) as (t & g & -> & Hin & Hg).
    cbn [payment_method_of_group pm_total_transactions pm_approved pm_total_volume
         pm_approval_rate pm_payment_method fst snd].
    assert (Hne : g <> []) by (intros ->; contradiction).
    split; [|split; [|split; [|split]]].
    + unfold count. destruct g; [contradiction|]. cbn [List.length]. lia.
    + now rewrite Hg.
    + rewrite count_status_count. apply count_filter_le.
    + rewrite approved_volume_total, Hg, filter_filter. reflexivity.
    + destruct (approval_rate_of_spec g Hne) as (p & Hp & Hb & _). eauto.
Qed.

(** *** [get_hourly_distribution] *)

Lemma strictly_asc_bounded (lo hi : Z) (l : list Z) :
  StronglySorted Z.lt l -> Forall (fun k => lo <= k <= hi) l ->
  count l <= Z.max 0 (hi - lo + 1).
Proof.
  unfold count. intros Hs. revert lo.
  induction Hs as [|x r _ IH Hall]; intros lo Hb; simpl List.length; [lia|].
  inversion Hb as [|? ? Hx Hb']; subst.
  assert (Hr : Forall (fun k => x + 1 <= k <= hi) r).
  { rewrite Forall_forall in *. intros k Hk.
    specialize (Hall k Hk). specialize (Hb' k Hk). lia. }
  specialize (IH (x + 1) Hr). lia.
Qed.

Lemma strictly_asc_map {A : Type} (key : A -> Z) (l : list A) :
  strictly_asc key l -> StronglySorted Z.lt (map key l).
Proof.
  unfold strictly_asc. induction 1 as [|x r _ IH Hall]; simpl; constructor;
    [exact IH|].
  apply Forall_forall. intros k Hk. apply in_map_iff in Hk.
  destruct Hk as (y & <- & Hy). rewrite Forall_forall in Hall. now apply Hall.
Qed.

(** X5.  The hourly distribution has one row per hour of the day that
    occurs, in strictly ascending order of hour; the hours lie between 0
    and 23, so there are at most 24 rows, and the counts add up to the
    number of transactions. *)
Theorem get_hourly_distribution_spec (db : database) :
  let rows := get_hourly_distribution db in
  strictly_asc hd_hour rows
  /\ Forall (fun r => 0 <= hd_hour r <= 23 /\ 1 <= hd_total_transactions r) rows
  /\ count rows <= 24
  /\ total (map hd_total_transactions rows) = count (transactions db).
Proof.
  cbv zeta.
  assert (Hasc : strictly_asc hd_hour (get_hourly_distribution db)).
  { apply order_by_asc_strict. rewrite map_map. cbn [hourly_of_group hd_hour].
    rewrite (group_by_keys Z.eqb (fun t => hour_of_day (t_transaction_date t))).
    apply (distinct_by_NoDup Z.eqb _ Z.eqb_eq). }
  assert (Hrows : Forall (fun r => 0 <= hd_hour r <= 23 /\ 1 <= hd_total_transactions r)
                         (get_hourly_distribution db)).
  { apply Forall_forall. intros r Hr. unfold get_hourly_distribution in Hr.
    apply (Permutation_in _ (order_by_asc_perm _ _)), in_map_iff in Hr.
    destruct Hr as (g & <- & Hg). cbn [hourly_of_group hd_hour hd_total_transactions].
    split.
    - unfold hour_of_day. pose proof (Z.mod_pos_bound
        (hour_window (t_transaction_date (fst g))) 24 ltac:(lia)). lia.
    - apply (group_by_nonempty Z.eqb _ Z.eqb_eq _ _ Hg). }
  split; [exact Hasc|]. split; [exact Hrows|]. split.
  - pose proof (strictly_asc_bounded 0 23 (map hd_hour (get_hourly_distribution db))
                  (strictly_asc_map _ _ Hasc)) as Hlen.
    unfold count in *. rewrite length_map in Hlen. apply Hlen.
    apply Forall_forall. intros k Hk. apply in_map_iff in Hk.
    destruct Hk as (r & <- & Hr). rewrite Forall_forall in Hrows.
    now apply Hrows.
  - unfold get_hourly_distribution, order_by_asc.
    rewrite total_order_by_desc, map_map.
    cbn [hourly_of_group hd_total_transactions].
    apply (group_by_count Z.eqb _ Z.eqb_eq).
Qed.

(** *** [get_status_distribution] *)

(** X6.  The status distribution has one row per status that occurs, in
    descending order of count, and the counts add up to the number of
    transactions; the percentage of a row is never NULL, lies between 0 and
    100, and is within half a hundredth of 100 * count / total. *)
Theorem get_status_distribution_spec (db : database) :
  let rows := get_status_distribution db in
  let n := count (transactions db) in
  NoDup (map sd_status rows)
  /\ sorted_desc sd_count rows
  /\ total (map sd_count rows) = n
  /\ Forall (fun r =>
       sd_count r = count (filter (fun t => String.eqb (t_status t) (sd_status r))
                                  (transactions db))
       /\ 1 <= sd_count r <= n
       /\ exists p, sd_percentage r = Some p /\ 0 <= p <= 10000
                    /\ 2 * Z.abs (p * n - 10000 * sd_count r) <= n) rows.
Proof.
  cbv zeta. split; [|split; [|split]].
  - unfold get_status_distribution.
    eapply Permutation_NoDup;
      [apply Permutation_map, Permutation_sym, order_by_desc_perm|].
    rewrite map_map. cbn [status_of_group sd_status].
    rewrite (group_by_keys String.eqb t_status).
    apply (distinct_by_NoDup String.eqb _ String.eqb_eq).
  - apply order_by_desc_sorted.
  - unfold get_status_distribution. rewrite total_order_by_desc, map_map.
    cbn [status_of_group sd_count].
    apply (group_by_count String.eqb _ String.eqb_eq).
  - apply Forall_forall. intros r Hr. unfold get_status_distribution in Hr.
    apply order_by_desc_In, in_map_iff in Hr. destruct Hr as (g & <- & Hg).
    pose proof (group_by_nonempty String.eqb _ String.eqb_eq _ _ Hg) as Hone.
    apply (group_by_In String.eqb) in Hg. destruct Hg as [_ Hg].
    cbn [status_of_group sd_count sd_status sd_percentage].
    assert (Hle : count (snd g) <= count (transactions db)).
    { rewrite Hg. apply count_filter_le. }
    split; [now rewrite Hg|]. split; [lia|].
    unfold ROUND_PERCENT.
    destruct (count (transactions db) =? 0) eqn:Hz; [apply Z.eqb_eq in Hz; lia|].
    eexists. split; [reflexivity|]. split.
    + apply round_div_percent_bounds; lia.
    + apply round_div_nearest; lia.
Qed.

End ReportFacts.

(** ** More about the anomaly query, the listing and the ranking *)

Section DetailFacts.

Import Sqlite Database.

(** X7.  The high-frequency query returns at most 50 rows in descending
    order of count; every row names a customer of the store and an hour in
    which that customer has at least [threshold_frequency] transactions,
    and reports exactly their number. *)
Theorem query_frequency_spec (db : database) (threshold_frequency : Z) :
  let rows := query_frequency db threshold_frequency in
  count rows <= 50
  /\ sorted_desc hf_transactions_count rows
  /\ Forall (fun r =>
       threshold_frequency <= hf_transactions_count r
       /\ hf_transactions_count r
          = count (of_customer_hour db (hf_customer_id r) (hf_hour_window r))
       /\ exists c, In c (customers db)
                    /\ c_id c = hf_customer_id r /\ c_name c = hf_customer_name r) rows.
Proof.
  cbv zeta. unfold query_frequency. split; [apply limit_count; lia|].
  split; [apply limit_sorted, order_by_desc_sorted|].
  apply Forall_forall. intros r Hr.
  apply limit_In, order_by_desc_In, in_map_iff in Hr.
  destruct Hr as ([[[ch c] t] l] & <- & Hg').
  apply (group_by_In pair_eqb) in Hg'. destruct Hg' as [Hjoin _]. cbn [fst] in Hjoin.
  unfold join_hourly_customers_transactions in Hjoin.
  apply in_flat_map in Hjoin. destruct Hjoin as (ch' & Hch & Hin).
  apply in_flat_map in Hin. destruct Hin as (c' & Hc & Hin).
  apply in_map_iff in Hin. destruct Hin as (t' & Heq & Ht).
  inversion Heq; subst ch' c' t'. clear Heq.
  apply filter_In in Hc. destruct Hc as [Hc Hcid]. apply Z.eqb_eq in Hcid.
  apply filter_In in Ht. destruct Ht as [Ht Htk].
  apply andb_true_iff in Htk. destruct Htk as [Htc Htw]. apply Z.eqb_eq in Htc, Htw.
  unfold customer_hourly in Hch. apply in_map_iff in Hch.
  destruct Hch as (g & <- & Hg). apply filter_In in Hg. destruct Hg as [Hg Hcount].
  apply (group_by_In pair_eqb) in Hg. destruct Hg as [_ Hsnd].
  cbn [high_frequency_of fst hf_transactions_count hf_customer_id hf_hour_window
       hf_customer_name ch_transactions_count ch_hour_window ch_customer_id] in *.
  split; [apply Z.geb_le; exact Hcount|]. split.
  - rewrite Hsnd. unfold of_customer_hour. f_equal. apply filter_ext. intros y.
    unfold pair_eqb, customer_hour. cbn [fst snd]. now rewrite Htc.
  - exists c. repeat split; [exact Hc | congruence].
Qed.

(** X8.  With a row limit [limit_] >= 0 the filtered listing returns at
    most [limit_] rows, latest first; every row is a transaction of the
    store joined to its customer and its merchant, and passes every filter
    that was given: the date range, and the payment method and the status
    unless empty or ['Todos']. *)
Theorem get_transactions_filtered_spec (db : database)
    (start_date end_date : option Z) (payment_method status : option string)
    (limit_ : Z) :
  0 <= limit_ ->
  let rows :=
    get_transactions_filtered db start_date end_date payment_method status limit_ in
  count rows <= limit_
  /\ sorted_desc ls_transaction_date rows
  /\ Forall (fun r =>
       (forall d, start_date = Some d -> d <= DATE (ls_transaction_date r))
       /\ (forall d, end_date = Some d -> DATE (ls_transaction_date r) <= d)
       /\ (forall s, payment_method = Some s -> s <> "" -> s <> "Todos" ->
                     ls_payment_method r = s)
       /\ (forall s, status = Some s -> s <> "" -> s <> "Todos" -> ls_status r = s)
       /\ exists t c m,
            In t (transactions db) /\ In c (customers db) /\ In m (merchants db)
            /\ c_id c = t_customer_id t /\ m_id m = t_merchant_id t
            /\ r = listing_of (t, c, m)) rows.
Proof.
  intros Hlimit. cbv zeta. unfold get_transactions_filtered.
  split; [now apply limit_count|]. split; [apply limit_sorted, order_by_desc_sorted|].
  apply Forall_forall. intros r Hr.
  apply limit_In, order_by_desc_In, in_map_iff in Hr.
  destruct Hr as ([[t c] m] & <- & Hin). apply filter_In in Hin.
  destruct Hin as [Hjoin Hholds]. cbn [fst] in Hholds.
  unfold where_clause in Hholds. rewrite !forallb_app in Hholds.
  apply andb_true_iff in Hholds. destruct Hholds as [H1 Hholds].
  apply andb_true_iff in Hholds. destruct Hholds as [H2 Hholds].
  apply andb_true_iff in Hholds. destruct Hholds as [H3 H4].
  cbn [listing_of ls_transaction_date ls_payment_method ls_status].
  split; [|split; [|split; [|split]]].
  - intros d ->. simpl in H1. rewrite andb_true_r in H1. apply Z.geb_le in H1. lia.
  - intros d ->. simpl in H2. rewrite andb_true_r in H2. now apply Z.leb_le in H2.
  - intros s -> Hne Htodos. unfold truthy in H3.
    apply String.eqb_neq in Hne, Htodos. rewrite Hne, Htodos in H3. simpl in H3.
    rewrite andb_true_r in H3. now apply String.eqb_eq in H3.
  - intros s -> Hne Htodos. unfold truthy in H4.
    apply String.eqb_neq in Hne, Htodos. rewrite Hne, Htodos in H4. simpl in H4.
    rewrite andb_true_r in H4. now apply String.eqb_eq in H4.
  - unfold join_transactions_customers_merchants in Hjoin.
    apply in_flat_map in Hjoin. destruct Hjoin as (t' & Ht & Hin).
    apply in_flat_map in Hin. destruct Hin as (c' & Hc & Hin).
    apply in_map_iff in Hin. destruct Hin as (m' & Heq & Hm).
    inversion Heq; subst t' c' m'.
    apply filter_In in Hc. destruct Hc as [Hc Hcid]. apply Z.eqb_eq in Hcid.
    apply filter_In in Hm. destruct Hm as [Hm Hmid]. apply Z.eqb_eq in Hmid.
    exists t, c, m. repeat split; auto.
Qed.

Lemma get_transactions_filtered_spec_witness :
  let rows :=
    get_transactions_filtered sample_store (Some 20760) None (Some "pix")
      (Some "approved") 10 in
  count rows <= 10
  /\ sorted_desc ls_transaction_date rows
  /\ Forall (fun r =>
       (forall d, Some 20760 = Some d -> d <= DATE (ls_transaction_date r))
       /\ (forall d, None = Some d -> DATE (ls_transaction_date r) <= d)
       /\ (forall s, Some "pix" = Some s -> s <> "" -> s <> "Todos" ->
                     ls_payment_method r = s)
       /\ (forall s, Some "approved" = Some s -> s <> "" -> s <> "Todos" ->
                     ls_status r = s)
       /\ exists t c m,
            In t (transactions sample_store) /\ In c (customers sample_store)
            /\ In m (merchants sample_store)
            /\ c_id c = t_customer_id t /\ m_id m = t_merchant_id t
            /\ r = listing_of (t, c, m)) rows.
Proof.
  apply (get_transactions_filtered_spec sample_store (Some 20760) None (Some "pix")
           (Some "approved") 10).
  lia.
Defined.





End DetailFacts.

(** ** How [main] can end *)

Section OutcomeFacts.

Import GenerateData.

Lemma bind_raise_inv {A B : Type} (m : M A) (f : A -> M B) (e : environment)
    (s s' : state) (x : exn) :
  bind m f e s = (Raise x, s') ->
  m e s = (Raise x, s')
  \/ exists a s1, m e s = (Ok a, s1) /\ f a e s1 = (Raise x, s').
Proof.
  unfold bind. destruct (m e s) as [[a|y] s1]; intros H.
  - right. eauto.
  - left. inversion H. reflexivity.
Qed.

Lemma kc_execute_delete (tb : table) : keeps_committed (execute_delete tb).
Proof.
  unfold execute_delete, db_call.
  repeat (apply kc_bind; intros); try apply kc_ask; try apply kc_get_working;
    try apply kc_put_working.
  destruct a; [apply kc_raise | apply kc_ret].
Qed.

Lemma commit_raise (e : environment) (s s' : state) (x : exn) :
  commit e s = (Raise x, s') -> conn s' = conn s.
Proof.
  cbv [commit db_call bind ask raise ret]. simpl.
  destruct (io_fault e (tick s)); simpl; intros H; inversion H. reflexivity.
Qed.

Lemma commit_ok (e : environment) (s s' : state) :
  commit e s = (Ok tt, s') ->
  conn s' = {| committed := working (conn s); working := working (conn s) |}.
Proof.
  cbv [commit db_call bind ask raise ret]. simpl.
  destruct (io_fault e (tick s)); simpl; intros H; inversion H. reflexivity.
Qed.

Lemma clear_old_data_raise (e : environment) (s s' : state) (x : exn) :
  clear_old_data e s = (Raise x, s') -> committed (conn s') = committed (conn s).
Proof.
  unfold clear_old_data. intros H.
  apply bind_raise_inv in H.
  destruct H as [H | (a1 & s1 & H1 & H)].
  { pose proof (kc_execute_delete Transactions e s) as Hk. now rewrite H in Hk. }
  pose proof (kc_execute_delete Transactions e s) as K1. rewrite H1 in K1. simpl in K1.
  apply bind_raise_inv in H.
  destruct H as [H | (a2 & s2 & H2 & H)].
  { pose proof (kc_execute_delete Merchants e s1) as Hk. rewrite H in Hk. simpl in Hk.
    congruence. }
  pose proof (kc_execute_delete Merchants e s1) as K2. rewrite H2 in K2. simpl in K2.
  apply bind_raise_inv in H.
  destruct H as [H | (a3 & s3 & H3 & H)].
  { pose proof (kc_execute_delete Customers e s2) as Hk. rewrite H in Hk. simpl in Hk.
    congruence. }
  pose proof (kc_execute_delete Customers e s2) as K3. rewrite H3 in K3. simpl in K3.
  apply commit_raise in H. congruence.
Qed.

(** X10.  When one of the three [DELETE]s, or the commit that follows them,
    raises an exception, [main] reports it and the store is exactly what it
    was before. *)
Theorem main_failure_during_cleanup (e : environment) (db : database)
    (s1 : state) (x : exn) :
  clear_old_data e {| tick := 0; conn := connect db |} = (Raise x, s1) ->
  main e db = (Failed x, db).
Proof.
  intros Hclear. pose proof (clear_old_data_raise _ _ _ _ Hclear) as Hc.
  unfold main, main_try. unfold bind at 1. rewrite Hclear.
  unfold close, rollback. simpl. now rewrite Hc.
Qed.

Lemma main_failure_during_cleanup_witness :
  main cleanup_fault_environment sample_store = (Failed OperationalError, sample_store).
Proof.
  apply (main_failure_during_cleanup cleanup_fault_environment sample_store
           (snd (clear_old_data cleanup_fault_environment
                   {| tick := 0; conn := connect sample_store |}))).
  vm_compute. reflexivity.
Defined.

Lemma keeps_conn_ret {A : Type} (a : A) : keeps_conn (ret a).
Proof. intros e s. reflexivity. Qed.

Lemma keeps_conn_raise {A : Type} (x : exn) : keeps_conn (@raise A x).
Proof. intros e s. reflexivity. Qed.

Lemma keeps_conn_ask {A : Type} (oracle : environment -> N -> A) :
  keeps_conn (ask oracle).
Proof. intros e s. reflexivity. Qed.

Lemma keeps_conn_bind {A B : Type} (m : M A) (f : A -> M B) :
  keeps_conn m -> (forall a, keeps_conn (f a)) -> keeps_conn (bind m f).
Proof.
  intros Hm Hf e s. unfold bind. specialize (Hm e s).
  destruct (m e s) as [[a|x] s']; simpl in *; [|exact Hm].
  rewrite (Hf a e s'). exact Hm.
Qed.

Lemma keeps_conn_db_call : keeps_conn db_call.
Proof.
  unfold db_call. apply keeps_conn_bind; [apply keeps_conn_ask|].
  intros []; [apply keeps_conn_raise | apply keeps_conn_ret].
Qed.

(** [print_statistics] only reads. *)
Lemma keeps_conn_print_statistics : keeps_conn print_statistics.
Proof.
  unfold print_statistics.
  repeat (apply keeps_conn_bind; [apply keeps_conn_db_call | intros _]).
  apply keeps_conn_bind; [intros e s; reflexivity|]. intros db.
  destruct (Sqlite.SUM _); [|apply keeps_conn_raise].
  repeat (apply keeps_conn_bind; [apply keeps_conn_db_call | intros _]).
  apply keeps_conn_db_call.
Qed.

(** X11.  All or nothing: however [main] ends, the store afterwards is the
    store as it was, or that store with its three tables emptied, or a
    completely generated store; a partial load is never left behind.  When
    [main] reports success it is the generated store. *)
Theorem main_all_or_nothing (e : environment) (db : database) :
  let after := snd (main e db) in
  (after = db \/ after = cleared db \/ generated after)
  /\ match fst (main e db) with
     | Success => generated after
     | Failed _ => True
     end.
Proof.
  cbv zeta. split.
  2:{ destruct (fst (main e db)) eqn:Hr; [|exact I]. now apply main_success_generated. }
  set (s0 := {| tick := 0; conn := connect db |}).
  assert (Hafter : snd (main e db) = committed (conn (snd (main_try e s0)))).
  { unfold main. fold s0. destruct (main_try e s0) as [[[]|x] s]; reflexivity. }
  rewrite Hafter. clear Hafter. unfold main_try, bind.
  destruct (clear_old_data e s0) as [[[]|x] s1] eqn:Hclear.
  2:{ left. simpl. now rewrite (clear_old_data_raise _ _ _ _ Hclear). }
  pose proof (clear_old_data_ok _ _ _ Hclear) as Hs1.
  pose proof (kc_generate_new_data e s1) as Hkc.
  pose proof (wp_generate_new_data e (fun _ s' => generated_tables (tables s')) s1) as Hgen.
  unfold wp in Hgen.
  destruct (generate_new_data e s1) as [[[]|x] s2] eqn:Hrun; simpl in Hkc.
  2:{ right. left. simpl. now rewrite Hkc, Hs1. }
  assert (Hgenerated : generated (working (conn s2))).
  { apply Hgen; [|trivial]. unfold tables. rewrite Hs1. reflexivity. }
  destruct (commit e s2) as [[[]|x] s3] eqn:Hcommit.
  2:{ right. left. simpl. apply commit_raise in Hcommit. now rewrite Hcommit, Hkc, Hs1. }
  apply commit_ok in Hcommit.
  right. right.
  pose proof (keeps_conn_print_statistics e s3) as Hps.
  destruct (print_statistics e s3) as [[[]|x] s4]; simpl in *;
    rewrite Hps, Hcommit; exact Hgenerated.
Qed.

(** *** The schema *)

Lemma ks_ret {A : Type} (a : A) : keeps_schema (ret a).
Proof. intros e s S H. exact H. Qed.

Lemma ks_raise {A : Type} (x : exn) : keeps_schema (@raise A x).
Proof. intros e s S H. exact H. Qed.

Lemma ks_ask {A : Type} (oracle : environment -> N -> A) : keeps_schema (ask oracle).
Proof. intros e s S H. exact H. Qed.

Lemma ks_conn {A : Type} (m : M A) : keeps_conn m -> keeps_schema m.
Proof. intros Hm e s S H. now rewrite Hm. Qed.

Lemma ks_bind {A B : Type} (m : M A) (f : A -> M B) :
  keeps_schema m -> (forall a, keeps_schema (f a)) -> keeps_schema (bind m f).
Proof.
  intros Hm Hf e s S H. unfold bind. specialize (Hm e s S H).
  destruct (m e s) as [[a|x] s']; simpl in *; [|exact Hm].
  now apply Hf.
Qed.

Lemma ks_except {A : Type} (m h : M A) :
  keeps_schema m -> keeps_schema h -> keeps_schema (except_IntegrityError m h).
Proof.
  intros Hm Hh e s S H. unfold except_IntegrityError. specialize (Hm e s S H).
  destruct (m e s) as [[a|[]] s']; simpl in *; try exact Hm.
  now apply Hh.
Qed.

Lemma ks_for_each {A S : Type} (l : list A) (body : A -> S -> M S) :
  (forall x acc, keeps_schema (body x acc)) ->
  forall acc, keeps_schema (for_each l body acc).
Proof.
  intros Hbody. induction l as [|x r IH]; intros acc; simpl.
  - apply ks_ret.
  - apply ks_bind; [apply Hbody | exact IH].
Qed.

Lemma ks_execute_delete (tb : table) : keeps_schema (execute_delete tb).
Proof.
  intros e s S [Hc Hw].
  cbv [execute_delete bind db_call ask get_working put_working raise ret].
  simpl. destruct (io_fault e (tick s)); simpl; split; assumption.
Qed.

Lemma ks_commit : keeps_schema commit.
Proof.
  intros e s S [Hc Hw]. cbv [commit db_call bind ask raise ret]. simpl.
  destruct (io_fault e (tick s)); simpl; split; assumption.
Qed.

Lemma ks_insert_customer (name email phone document : string) :
  keeps_schema (insert_customer name email phone document).
Proof.
  intros e s S [Hc Hw].
  cbv [insert_customer bind db_call ask get_working put_working raise ret].
  simpl. destruct (io_fault e (tick s)); simpl; [split; assumption|].
  destruct (existsb _ _); simpl; split; assumption.
Qed.

Lemma ks_insert_merchant (name category document : string) :
  keeps_schema (insert_merchant name category document).
Proof.
  intros e s S [Hc Hw].
  cbv [insert_merchant bind db_call ask get_working put_working raise ret].
  simpl. destruct (io_fault e (tick s)); simpl; [split; assumption|].
  destruct (existsb _ _); simpl; split; assumption.
Qed.

Lemma ks_insert_transaction (customer_id merchant_id amount : Z)
    (payment_method status : string) (transaction_date : Z) (description : string) :
  keeps_schema (insert_transaction customer_id merchant_id amount payment_method
                  status transaction_date description).
Proof.
  intros e s S [Hc Hw].
  cbv [insert_transaction bind db_call ask get_working put_working raise ret].
  simpl. destruct (io_fault e (tick s)); simpl; split; assumption.
Qed.

Ltac ks :=
  repeat match goal with
  | |- keeps_schema (bind _ _) => apply ks_bind; [|intros]
  | |- keeps_schema (ret _) => apply ks_ret
  | |- keeps_schema (raise _) => apply ks_raise
  | |- keeps_schema (ask _) => apply ks_ask
  | |- keeps_schema (insert_customer _ _ _ _) => apply ks_insert_customer
  | |- keeps_schema (insert_merchant _ _ _) => apply ks_insert_merchant
  | |- keeps_schema (insert_transaction _ _ _ _ _ _ _) => apply ks_insert_transaction
  | |- keeps_schema (execute_delete _) => apply ks_execute_delete
  | |- keeps_schema commit => apply ks_commit
  | |- keeps_schema print_statistics => apply ks_conn, keeps_conn_print_statistics
  | |- keeps_schema (except_IntegrityError _ _) => apply ks_except
  | |- keeps_schema (for_each _ _ _) => apply ks_for_each; intros
  | |- keeps_schema (match ?x with _ => _ end) => destruct x
  | |- keeps_schema _ =>
      first
        [ progress cbv zeta
        | progress unfold random_choice, random_below, round2_uniform,
            random_choices, random_randint, fake, datetime_now, draw_amount ]
  end.

Lemma ks_main_try : keeps_schema main_try.
Proof.
  unfold main_try, clear_old_data, generate_new_data, generate_customers,
    generate_merchants, generate_transactions, generate_anomalies. ks.
Qed.

Lemma main_schema (e : environment) (db : database) :
  schema (snd (main e db)) = schema db.
Proof.
  pose proof (ks_main_try e {| tick := 0; conn := connect db |} (schema db)
                (conj eq_refl eq_refl)) as [Hc _].
  unfold main. destruct (main_try e _) as [[[]|x] s]; exact Hc.
Qed.

(** X12.  [main] never touches the schema: whatever the environment and
    however the run ends, the tables, indexes and views of the store are
    those it started with. *)
Theorem main_keeps_schema (e : environment) (db : database) :
  schema (snd (main e db)) = schema db.
Proof. apply main_schema. Qed.

End OutcomeFacts.

(** ** Runs without storage faults *)

Section QuietRunFacts.

Import GenerateData.

Variable e : environment.
Hypothesis quiet : no_storage_fault e.

Lemma wpt_ret {A : Type} (a : A) (Q : A -> state -> Prop) (s : state) :
  Q a s -> wp_total e (ret a) Q s.
Proof. intros H. exact H. Qed.

Lemma wpt_bind {A B : Type} (m : M A) (f : A -> M B) (Q : B -> state -> Prop)
    (s : state) :
  wp_total e m (fun a s' => wp_total e (f a) Q s') s -> wp_total e (bind m f) Q s.
Proof.
  unfold wp_total, bind. destruct (m e s) as [[a|x] s']; trivial.
Qed.

Lemma wpt_mono {A : Type} (m : M A) (Q Q' : A -> state -> Prop) (s : state) :
  (forall a s', Q a s' -> Q' a s') -> wp_total e m Q s -> wp_total e m Q' s.
Proof.
  unfold wp_total. intros H. destruct (m e s) as [[a|x] s']; auto.
Qed.

Lemma wpt_for_each {A S : Type} (body : A -> S -> M S)
    (Inv : list A -> S -> state -> Prop) (l : list A) :
  (forall visited x acc s,
      Inv visited acc s -> wp_total e (body x acc) (Inv (visited ++ [x])) s) ->
  forall visited acc s,
    Inv visited acc s -> wp_total e (for_each l body acc) (Inv (visited ++ l)) s.
Proof.
  intros Hbody. induction l as [|x r IH]; intros visited acc s Hinv.
  - simpl. rewrite app_nil_r. exact Hinv.
  - cbn [for_each]. apply wpt_bind.
    eapply wpt_mono; [|apply (Hbody visited x acc s Hinv)].
    intros acc' s' Hinv'. simpl.
    replace (visited ++ x :: r) with ((visited ++ [x]) ++ r)
      by (rewrite <- app_assoc; reflexivity).
    now apply IH.
Qed.

Ltac framed :=
  repeat match goal with
  | Hc : conn ?s' = conn ?s, Ht : tables ?s = ?X |- _ =>
      let Ht' := fresh "Ht" in
      assert (Ht' : tables s' = X) by (rewrite (tables_conn _ _ Hc); exact Ht);
      clear Hc Ht
  end.

Lemma wpt_ask {A : Type} (oracle : environment -> N -> A) (Q : A -> state -> Prop)
    (s : state) :
  (forall v s', conn s' = conn s -> Q v s') -> wp_total e (ask oracle) Q s.
Proof. intros H. apply H. reflexivity. Qed.

Lemma wpt_db_call (Q : unit -> state -> Prop) (s : state) :
  (forall s', conn s' = conn s -> Q tt s') -> wp_total e db_call Q s.
Proof.
  intros H. cbv [wp_total db_call bind ask]. rewrite quiet. simpl.
  apply H. reflexivity.
Qed.

Lemma wpt_random_choice {A : Type} (population : list A) (Q : A -> state -> Prop)
    (s : state) :
  population <> [] ->
  (forall x s', In x population -> conn s' = conn s -> Q x s') ->
  wp_total e (random_choice population) Q s.
Proof.
  intros Hne H. unfold random_choice. apply wpt_bind, wpt_ask. intros r s' Hs'.
  destruct (nth_error population _) as [x|] eqn:Hnth.
  - apply H; [|exact Hs']. eapply nth_error_In, Hnth.
  - exfalso. apply nth_error_None in Hnth.
    assert (Hlen : (0 < List.length population)%nat).
    { destruct population; [contradiction | simpl; lia]. }
    pose proof (Z.mod_pos_bound r (Z.of_nat (List.length population)) ltac:(lia)).
    lia.
Qed.

Lemma pick_weighted_Some {A : Type} (population : list A) (weights : list Z) (r : Z) :
  List.length population = List.length weights ->
  0 <= r < Sqlite.total weights ->
  exists x, pick_weighted population weights r = Some x.
Proof.
  revert weights r. induction population as [|y ps IH]; intros [|w ws] r Hlen Hr;
    simpl in *; try discriminate; try lia.
  destruct (r <? w) eqn:Hc; [eauto|].
  apply Z.ltb_ge in Hc. apply IH; [congruence | lia].
Qed.

Lemma wpt_random_choices {A : Type} (population : list A) (weights : list Z)
    (Q : A -> state -> Prop) (s : state) :
  List.length population = List.length weights ->
  0 < Sqlite.total weights ->
  (forall x s', conn s' = conn s -> Q x s') ->
  wp_total e (random_choices population weights) Q s.
Proof.
  intros Hlen Hpos H. unfold random_choices. apply wpt_bind, wpt_ask.
  intros r s' Hs'.
  destruct (pick_weighted_Some population weights (r mod Sqlite.total weights) Hlen
              (Z.mod_pos_bound _ _ Hpos)) as (x & ->).
  now apply H.
Qed.

Lemma wpt_random_randint (a b : Z) (Q : Z -> state -> Prop) (s : state) :
  (forall v s', conn s' = conn s -> Q v s') -> wp_total e (random_randint a b) Q s.
Proof.
  intros H. unfold random_randint. apply wpt_bind, wpt_ask. intros r s' Hs'.
  now apply H.
Qed.

Lemma wpt_round2_uniform (a b : Z) (Q : Z -> state -> Prop) (s : state) :
  (forall v s', conn s' = conn s -> Q v s') -> wp_total e (round2_uniform a b) Q s.
Proof.
  intros H. unfold round2_uniform. apply wpt_bind, wpt_ask. intros r s' Hs'.
  now apply H.
Qed.

Lemma wpt_draw_amount (Q : Z -> state -> Prop) (s : state) :
  (forall v s', conn s' = conn s -> Q v s') -> wp_total e draw_amount Q s.
Proof.
  intros H. unfold draw_amount, random_below.
  apply wpt_bind, wpt_bind, wpt_ask. intros r1 s1 Hs1. simpl.
  destruct (r1 mod 100 <? 70).
  - apply wpt_round2_uniform. intros v s' Hs'. apply H. congruence.
  - apply wpt_bind, wpt_bind, wpt_ask. intros r2 s2 Hs2. simpl.
    destruct (r2 mod 100 <? 90);
      (apply wpt_round2_uniform; intros v s' Hs'; apply H; congruence).
Qed.

Lemma wpt_commit (Q : unit -> state -> Prop) (s : state) :
  (forall s', conn s' = {| committed := working (conn s); working := working (conn s) |} ->
              Q tt s') ->
  wp_total e commit Q s.
Proof.
  intros H. unfold commit. apply wpt_bind, wpt_db_call. intros s' Hs'.
  unfold wp_total. apply H. simpl. now rewrite Hs'.
Qed.

Lemma wpt_execute_delete (tb : table) (Q : unit -> state -> Prop) (s : state) :
  (forall s', conn s' = {| committed := committed (conn s);
                           working := delete_from tb (working (conn s)) |} ->
              Q tt s') ->
  wp_total e (execute_delete tb) Q s.
Proof.
  intros H. unfold execute_delete. apply wpt_bind, wpt_db_call. intros s' Hs'.
  unfold wp_total, bind, get_working, put_working. simpl. apply H. now rewrite Hs'.
Qed.

Lemma wpt_insert_transaction (customer_id merchant_id amount : Z)
    (payment_method status : string) (transaction_date : Z) (description : string)
    (Q : Z -> state -> Prop) (s : state) C Mt T :
  tables s = (C, Mt, T) ->
  (forall id s',
      tables s'
      = (C, Mt, T ++ [{| t_id := id; t_customer_id := customer_id;
                         t_merchant_id := merchant_id; t_amount := amount;
                         t_payment_method := payment_method; t_status := status;
                         t_transaction_date := transaction_date;
                         t_description := description |}]) ->
      Q id s') ->
  wp_total e (insert_transaction customer_id merchant_id amount payment_method status
                transaction_date description) Q s.
Proof.
  intros Hs H. unfold insert_transaction. apply wpt_bind, wpt_db_call.
  intros s1 Hs1. framed. unfold wp_total, bind, get_working, put_working, ret. simpl.
  apply H. unfold tables in *. simpl. inversion Ht. reflexivity.
Qed.

(** Without storage faults an insert into [customers] can only fail on a
    row that is already there. *)
Lemma wpt_try_insert_customer (acc : list Z) (name email phone document : string)
    (Q : list Z -> state -> Prop) (s : state) C Mt T :
  tables s = (C, Mt, T) ->
  (forall s', C <> [] -> tables s' = (C, Mt, T) -> Q acc s') ->
  (forall id c s', tables s' = (C ++ [c], Mt, T) -> c_id c = id -> Q (acc ++ [id]) s') ->
  wp_total e (except_IntegrityError
                (id <- insert_customer name email phone document ;; ret (acc ++ [id]))
                (ret acc)) Q s.
Proof.
  intros Hs Hskip Hins.
  cbv [wp_total except_IntegrityError bind insert_customer db_call ask
       get_working put_working raise ret]. rewrite quiet. simpl.
  unfold tables in Hs. inversion Hs as [[HC HM HT]]. subst C Mt T.
  destruct (existsb _ (customers (working (conn s)))) eqn:Hex; simpl.
  - apply Hskip; [|reflexivity]. intros Hnil. rewrite Hnil in Hex. discriminate.
  - eapply Hins; reflexivity.
Qed.

Lemma wpt_try_insert_merchant (acc : list Z) (name category document : string)
    (Q : list Z -> state -> Prop) (s : state) C Mt T :
  tables s = (C, Mt, T) ->
  (forall s', Mt <> [] -> tables s' = (C, Mt, T) -> Q acc s') ->
  (forall id m s', tables s' = (C, Mt ++ [m], T) -> m_id m = id -> Q (acc ++ [id]) s') ->
  wp_total e (except_IntegrityError
                (id <- insert_merchant name category document ;; ret (acc ++ [id]))
                (ret acc)) Q s.
Proof.
  intros Hs Hskip Hins.
  cbv [wp_total except_IntegrityError bind insert_merchant db_call ask
       get_working put_working raise ret]. rewrite quiet. simpl.
  unfold tables in Hs. inversion Hs as [[HC HM HT]]. subst C Mt T.
  destruct (existsb _ (merchants (working (conn s)))) eqn:Hex; simpl.
  - apply Hskip; [|reflexivity]. intros Hnil. rewrite Hnil in Hex. discriminate.
  - eapply Hins; reflexivity.
Qed.

Lemma range_nonempty (n : Z) : 0 < n -> range n <> [].
Proof.
  intros Hn. unfold range.
  assert (Hz : Z.to_nat n = S (Z.to_nat (n - 1))) by lia.
  rewrite Hz. discriminate.
Qed.

Lemma app_nonempty {A : Type} (l : list A) (x : A) : l ++ [x] <> [].
Proof. destruct l; discriminate. Qed.

Lemma map_nonempty {A B : Type} (f : A -> B) (l : list A) : l <> [] -> map f l <> [].
Proof. destruct l; [contradiction | discriminate]. Qed.

(** The first insert into an empty table cannot clash: at least one
    customer is created. *)
Lemma wpt_generate_customers (Q : list Z -> state -> Prop) (s : state) Mt T :
  tables s = ([], Mt, T) ->
  (forall C s', C <> [] -> tables s' = (C, Mt, T) -> Q (map c_id C) s') ->
  wp_total e generate_customers Q s.
Proof.
  intros Hs HQ. unfold generate_customers.
  pose (Inv := fun (visited : list Z) (acc : list Z) (s' : state) =>
                 exists C, tables s' = (C, Mt, T) /\ acc = map c_id C
                           /\ (visited <> [] -> C <> [])).
  eapply wpt_mono;
    [|apply (wpt_for_each _ Inv (range NUM_CUSTOMERS)) with (visited := [])].
  - intros cids s' (C & Hs' & -> & Hne). apply HQ; [|exact Hs'].
    apply Hne. apply range_nonempty. reflexivity.
  - clear s Hs. intros visited x acc s (C & Hs & -> & Hne). unfold fake.
    apply wpt_bind, wpt_ask; intros name s1 H1; framed.
    apply wpt_bind, wpt_ask; intros email s2 H2; framed.
    apply wpt_bind, wpt_ask; intros phone s3 H3; framed.
    apply wpt_bind, wpt_ask; intros document s4 H4; framed.
    eapply wpt_try_insert_customer; [eassumption| |].
    + intros s' HC Hs'. exists C. auto.
    + intros id c s' Hs' Hid. exists (C ++ [c]). split; [exact Hs'|].
      rewrite map_app. simpl. rewrite Hid. split; [reflexivity|].
      intros _. apply app_nonempty.
  - exists []. repeat split; [exact Hs | intros H; now contradiction H].
Qed.

Lemma wpt_generate_merchants (Q : list Z -> state -> Prop) (s : state) C T :
  tables s = (C, [], T) ->
  (forall Mt s', Mt <> [] -> tables s' = (C, Mt, T) -> Q (map m_id Mt) s') ->
  wp_total e generate_merchants Q s.
Proof.
  intros Hs HQ. unfold generate_merchants.
  pose (Inv := fun (visited : list Z) (acc : list Z) (s' : state) =>
                 exists Mt, tables s' = (C, Mt, T) /\ acc = map m_id Mt
                            /\ (visited <> [] -> Mt <> [])).
  eapply wpt_mono;
    [|apply (wpt_for_each _ Inv (range NUM_MERCHANTS)) with (visited := [])].
  - intros mids s' (Mt & Hs' & -> & Hne). apply HQ; [|exact Hs'].
    apply Hne. apply range_nonempty. reflexivity.
  - clear s Hs. intros visited x acc s (Mt & Hs & -> & Hne). unfold fake.
    apply wpt_bind, wpt_ask; intros name s1 H1; framed.
    apply wpt_bind, wpt_random_choice; [discriminate|]; intros category s2 _ H2; framed.
    apply wpt_bind, wpt_ask; intros document s3 H3; framed.
    eapply wpt_try_insert_merchant; [eassumption| |].
    + intros s' HM Hs'. exists Mt. auto.
    + intros id m s' Hs' Hid. exists (Mt ++ [m]). split; [exact Hs'|].
      rewrite map_app. simpl. rewrite Hid. split; [reflexivity|].
      intros _. apply app_nonempty.
  - exists []. repeat split; [exact Hs | intros H; now contradiction H].
Qed.

Lemma wpt_generate_transactions (customer_ids merchant_ids : list Z)
    (Q : Z -> state -> Prop) (s : state) C Mt T :
  customer_ids <> [] -> merchant_ids <> [] ->
  tables s = (C, Mt, T) ->
  (forall n bulk s', tables s' = (C, Mt, T ++ bulk) -> Q n s') ->
  wp_total e (generate_transactions customer_ids merchant_ids) Q s.
Proof.
  intros Hcne Hmne Hs HQ. unfold generate_transactions, datetime_now.
  apply wpt_bind, wpt_ask; intros now s0 H0; framed.
  pose (Inv := fun (_ : list Z) (_ : Z) (s' : state) =>
                 exists bulk, tables s' = (C, Mt, T ++ bulk)).
  eapply wpt_mono;
    [|apply (wpt_for_each _ Inv (range NUM_TRANSACTIONS)) with (visited := [])].
  - intros n s' (bulk & Hs'). now apply (HQ n bulk).
  - clear s0 Ht. intros visited x acc s0 (bulk & Ht).
    apply wpt_bind, wpt_random_choice; [exact Hcne|]; intros customer_id s1 _ H1; framed.
    apply wpt_bind, wpt_random_choice; [exact Hmne|]; intros merchant_id s2 _ H2; framed.
    apply wpt_bind, wpt_draw_amount; intros amount s3 H3; framed.
    apply wpt_bind, wpt_random_choices; [reflexivity | reflexivity |];
      intros payment_method s4 H4; framed.
    apply wpt_bind, wpt_random_choices; [reflexivity | reflexivity |];
      intros status s5 H5; framed.
    apply wpt_bind, wpt_random_randint; intros days_ago s6 H6; framed.
    apply wpt_bind, wpt_random_randint; intros hours s7 H7; framed.
    apply wpt_bind, wpt_random_randint; intros minutes s8 H8; framed.
    apply wpt_bind, wpt_random_randint; intros seconds s9 H9; framed.
    apply wpt_bind, wpt_random_choice; [discriminate|]; intros description s10 _ H10;
      framed.
    apply wpt_bind. eapply wpt_insert_transaction; [eassumption|].
    intros id s' Hs'. apply wpt_ret.
    eexists. rewrite Hs', <- app_assoc. reflexivity.
  - exists []. now rewrite app_nil_r.
Qed.

Lemma wpt_generate_anomalies (customer_ids merchant_ids : list Z)
    (Q : unit -> state -> Prop) (s : state) C Mt T :
  customer_ids <> [] -> merchant_ids <> [] ->
  tables s = (C, Mt, T) ->
  (forall T' s', tables s' = (C, Mt, T') ->
                 (exists t, In t T' /\ approved t = true) -> Q tt s') ->
  wp_total e (generate_anomalies customer_ids merchant_ids) Q s.
Proof.
  intros Hcne Hmne Hs HQ. unfold generate_anomalies, datetime_now.
  apply wpt_bind, wpt_random_choice; [exact Hcne|]; intros customer_id s1 _ H1; framed.
  apply wpt_bind, wpt_random_choice; [exact Hmne|]; intros merchant_id s2 _ H2; framed.
  apply wpt_bind, wpt_ask; intros now s3 H3; framed.
  apply wpt_bind. eapply wpt_insert_transaction; [eassumption|].
  intros id s4 Hs4.
  apply wpt_bind, wpt_random_choice; [exact Hcne|]; intros cid s5 _ H5; framed.
  apply wpt_bind, wpt_ask; intros now' s6 H6; framed.
  set (hv := {| t_id := id; t_customer_id := customer_id |}) in *.
  pose (Inv := fun (_ : list Z) (_ : unit) (s' : state) =>
                 exists burst, tables s' = (C, Mt, (T ++ [hv]) ++ burst)).
  eapply wpt_mono;
    [|apply (wpt_for_each _ Inv (range 10)) with (visited := [])].
  - intros [] s' (burst & Hs'). apply (HQ _ s' Hs').
    exists hv. split; [|reflexivity].
    apply in_or_app. left. apply in_or_app. right. now left.
  - intros visited i acc t0 (burst & Hinv).
    apply wpt_bind, wpt_random_choice; [exact Hmne|]; intros mid t1 _ G1; framed.
    apply wpt_bind, wpt_round2_uniform; intros amount t2 G2; framed.
    apply wpt_bind, wpt_random_choice; [discriminate|]; intros payment_method t3 _ G3;
      framed.
    apply wpt_bind. eapply wpt_insert_transaction; [eassumption|].
    intros id' s' Hs'. apply wpt_ret.
    eexists. rewrite Hs', <- app_assoc. reflexivity.
  - exists []. now rewrite app_nil_r.
Qed.

Lemma wpt_print_statistics (Q : unit -> state -> Prop) (s : state) :
  (exists t, In t (transactions (working (conn s))) /\ approved t = true) ->
  (forall s', conn s' = conn s -> Q tt s') ->
  wp_total e print_statistics Q s.
Proof.
  intros (t & Ht & Hap) H. unfold print_statistics.
  apply wpt_bind, wpt_db_call; intros s1 H1.
  apply wpt_bind, wpt_db_call; intros s2 H2.
  apply wpt_bind, wpt_db_call; intros s3 H3.
  apply wpt_bind, wpt_db_call; intros s4 H4.
  apply wpt_bind. unfold get_working at 1. unfold wp_total at 1.
  assert (Hconn : conn s4 = conn s) by congruence. rewrite Hconn.
  destruct (filter approved (transactions (working (conn s)))) as [|y l] eqn:Hf.
  { exfalso. assert (Hin : In t (filter approved (transactions (working (conn s)))))
      by (apply filter_In; auto).
    rewrite Hf in Hin. contradiction. }
  cbn [map Sqlite.SUM].
  apply wpt_bind, wpt_db_call; intros s5 H5.
  apply wpt_db_call; intros s6 H6. apply H. congruence.
Qed.

Lemma wpt_main_try (db : database) :
  wp_total e main_try (fun _ _ => True) {| tick := 0; conn := connect db |}.
Proof.
  unfold main_try, clear_old_data.
  apply wpt_bind, wpt_bind, wpt_execute_delete; intros s1 H1.
  apply wpt_bind, wpt_execute_delete; intros s2 H2.
  apply wpt_bind, wpt_execute_delete; intros s3 H3.
  apply wpt_commit; intros s4 H4.
  assert (Ht4 : tables s4 = ([], [], [])).
  { unfold tables. rewrite H4, H3, H2, H1. reflexivity. }
  unfold generate_new_data.
  apply wpt_bind, wpt_bind. eapply wpt_generate_customers; [eassumption|].
  intros C s5 HC H5.
  apply wpt_bind. eapply wpt_generate_merchants; [eassumption|].
  intros Mt s6 HM H6.
  apply wpt_bind. eapply wpt_generate_transactions;
    [now apply map_nonempty | now apply map_nonempty | eassumption |].
  intros n bulk s7 H7.
  eapply wpt_generate_anomalies;
    [now apply map_nonempty | now apply map_nonempty | eassumption |].
  intros T' s8 H8 Happroved.
  apply wpt_bind, wpt_commit; intros s9 H9.
  apply wpt_print_statistics; [|trivial].
  rewrite H9. simpl. unfold tables in H8. inversion H8 as [[HC8 HM8 HT8]].
  rewrite HT8. exact Happroved.
Qed.

End QuietRunFacts.

(** Without storage faults [main] reports success. *)
Lemma quiet_main_succeeds (e : GenerateData.environment) (db : database) :
  no_storage_fault e -> fst (GenerateData.main e db) = GenerateData.Success.
Proof.
  intros Hq. pose proof (wpt_main_try e Hq db) as H. unfold wp_total in H.
  unfold GenerateData.main.
  destruct (GenerateData.main_try e _) as [[[]|x] s]; [reflexivity | contradiction].
Qed.

Lemma quiet_environment_quiet : no_storage_fault quiet_environment.
Proof. intros k. reflexivity. Qed.



(** ** The shape of a generated store *)

Section ShapeFacts.

Import GenerateData.

Variable e : environment.

Ltac framed :=
  repeat match goal with
  | Hc : conn ?s' = conn ?s, Ht : tables ?s = ?X |- _ =>
      let Ht' := fresh "Ht" in
      assert (Ht' : tables s' = X) by (rewrite (tables_conn _ _ Hc); exact Ht);
      clear Hc Ht
  end.

Lemma count_app {A : Type} (l l' : list A) :
  Sqlite.count (l ++ l') = Sqlite.count l + Sqlite.count l'.
Proof. unfold Sqlite.count. rewrite length_app. lia. Qed.

Lemma count_snoc {A : Type} (l : list A) (x : A) :
  Sqlite.count (l ++ [x]) = Sqlite.count l + 1.
Proof. rewrite count_app. reflexivity. Qed.

Lemma count_range (n : Z) : 0 <= n -> Sqlite.count (range n) = n.
Proof.
  intros Hn. unfold Sqlite.count, range. rewrite length_map, length_seq. lia.
Qed.

Lemma wp_random_randint_bounds (a b : Z) (Q : Z -> state -> Prop) (s : state) :
  a <= b ->
  (forall v s', a <= v <= b -> conn s' = conn s -> Q v s') ->
  wp e (random_randint a b) Q s.
Proof.
  intros Hab H. unfold random_randint. apply wp_bind, wp_ask. intros r s' Hs'.
  apply H; [|exact Hs'].
  pose proof (Z.mod_pos_bound r (b - a + 1) ltac:(lia)). lia.
Qed.

(** The reading of the clock is the one the environment gives at this step. *)
Lemma wp_datetime_now (Q : Z -> state -> Prop) (s : state) :
  (forall s', conn s' = conn s -> Q (clock e (tick s)) s') -> wp e datetime_now Q s.
Proof. intros H. apply H. reflexivity. Qed.

Lemma existsb_false_Forall {A : Type} (p : A -> bool) (l : list A) :
  existsb p l = false -> Forall (fun x => p x = false) l.
Proof.
  induction l as [|x r IH]; simpl; intros H; [constructor|].
  apply orb_false_iff in H. destruct H. constructor; auto.
Qed.

(** An insert into [customers] that goes through met neither its email nor
    its document in the table. *)
Lemma wp_try_insert_customer_fresh (acc : list Z) (name email phone document : string)
    (Q : list Z -> state -> Prop) (s : state) C Mt T :
  tables s = (C, Mt, T) ->
  (forall s', tables s' = (C, Mt, T) -> Q acc s') ->
  (forall id s',
      ~ In email (map c_email C) -> ~ In document (map c_document C) ->
      tables s' = (C ++ [{| c_id := id; c_name := name; c_email := email;
                            c_phone := phone; c_document := document |}], Mt, T) ->
      Q (acc ++ [id]) s') ->
  wp e (except_IntegrityError
          (id <- insert_customer name email phone document ;; ret (acc ++ [id]))
          (ret acc)) Q s.
Proof.
  intros Hs Hskip Hins.
  cbv [wp except_IntegrityError bind insert_customer db_call ask
       get_working put_working raise ret]. simpl.
  destruct (io_fault e (tick s)); simpl; [exact I|].
  unfold tables in Hs. inversion Hs as [[HC HM HT]]. subst C Mt T.
  destruct (existsb _ (customers (working (conn s)))) eqn:Hex; simpl.
  - apply Hskip. reflexivity.
  - apply existsb_false_Forall in Hex. rewrite Forall_forall in Hex.
    apply Hins; [| |reflexivity].
    + intros Hin. apply in_map_iff in Hin. destruct Hin as (c & Hc & Hin).
      specialize (Hex c Hin). apply orb_false_iff in Hex. destruct Hex as [Hex _].
      apply String.eqb_neq in Hex. contradiction.
    + intros Hin. apply in_map_iff in Hin. destruct Hin as (c & Hc & Hin).
      specialize (Hex c Hin). apply orb_false_iff in Hex. destruct Hex as [_ Hex].
      apply String.eqb_neq in Hex. contradiction.
Qed.

Lemma wp_try_insert_merchant_fresh (acc : list Z) (name category document : string)
    (Q : list Z -> state -> Prop) (s : state) C Mt T :
  tables s = (C, Mt, T) ->
  (forall s', tables s' = (C, Mt, T) -> Q acc s') ->
  (forall id s',
      ~ In document (map m_document Mt) ->
      tables s' = (C, Mt ++ [{| m_id := id; m_name := name; m_category := category;
                                m_document := document |}], T) ->
      Q (acc ++ [id]) s') ->
  wp e (except_IntegrityError
          (id <- insert_merchant name category document ;; ret (acc ++ [id]))
          (ret acc)) Q s.
Proof.
  intros Hs Hskip Hins.
  cbv [wp except_IntegrityError bind insert_merchant db_call ask
       get_working put_working raise ret]. simpl.
  destruct (io_fault e (tick s)); simpl; [exact I|].
  unfold tables in Hs. inversion Hs as [[HC HM HT]]. subst C Mt T.
  destruct (existsb _ (merchants (working (conn s)))) eqn:Hex; simpl.
  - apply Hskip. reflexivity.
  - apply existsb_false_Forall in Hex. rewrite Forall_forall in Hex.
    apply Hins; [|reflexivity].
    intros Hin. apply in_map_iff in Hin. destruct Hin as (m & Hm & Hin).
    specialize (Hex m Hin). apply String.eqb_neq in Hex. contradiction.
Qed.

Lemma wp_insert_transaction_fresh (customer_id merchant_id amount : Z)
    (payment_method status : string) (transaction_date : Z) (description : string)
    (Q : Z -> state -> Prop) (s : state) C Mt T :
  tables s = (C, Mt, T) ->
  (forall id s',
      ~ In id (map t_id T) ->
      tables s'
      = (C, Mt, T ++ [{| t_id := id; t_customer_id := customer_id;
                         t_merchant_id := merchant_id; t_amount := amount;
                         t_payment_method := payment_method; t_status := status;
                         t_transaction_date := transaction_date;
                         t_description := description |}]) ->
      Q id s') ->
  wp e (insert_transaction customer_id merchant_id amount payment_method status
          transaction_date description) Q s.
Proof.
  intros Hs H.
  cbv [wp insert_transaction bind db_call ask get_working put_working raise ret].
  simpl. destruct (io_fault e (tick s)); simpl; [exact I|].
  unfold tables in Hs. inversion Hs as [[HC HM HT]]. subst C Mt T.
  apply H; [apply next_rowid_fresh | reflexivity].
Qed.

Lemma wp_generate_customers_shape (Q : list Z -> state -> Prop) (s : state) Mt T :
  tables s = ([], Mt, T) ->
  (forall C s',
      tables s' = (C, Mt, T) ->
      Sqlite.count C <= NUM_CUSTOMERS ->
      NoDup (map c_email C) -> NoDup (map c_document C) -> Q (map c_id C) s') ->
  wp e generate_customers Q s.
Proof.
  intros Hs HQ. unfold generate_customers.
  pose (Inv := fun (visited : list Z) (acc : list Z) (s' : state) =>
                 exists C, tables s' = (C, Mt, T) /\ acc = map c_id C
                           /\ Sqlite.count C <= Sqlite.count visited
                           /\ NoDup (map c_email C) /\ NoDup (map c_document C)).
  eapply wp_mono;
    [|apply (wp_for_each e _ Inv (range NUM_CUSTOMERS)) with (visited := [])].
  - intros cids s' (C & Hs' & -> & Hn & He & Hd).
    simpl in Hn. rewrite count_range in Hn by (unfold NUM_CUSTOMERS; lia).
    apply HQ; assumption.
  - clear s Hs. intros visited x acc s (C & Hs & -> & Hn & He & Hd). unfold fake.
    apply wp_bind, wp_ask; intros name s1 H1; framed.
    apply wp_bind, wp_ask; intros email s2 H2; framed.
    apply wp_bind, wp_ask; intros phone s3 H3; framed.
    apply wp_bind, wp_ask; intros document s4 H4; framed.
    eapply wp_try_insert_customer_fresh; [eassumption| |].
    + intros s' Hs'. exists C. rewrite count_snoc.
      repeat split; auto. lia.
    + intros id s' Hem Hdoc Hs'. eexists. split; [exact Hs'|].
      rewrite !map_app, !count_snoc.
      repeat split; try (now apply NoDup_snoc). lia.
  - exists []. repeat split; try constructor. exact Hs. reflexivity.
Qed.

Lemma wp_generate_merchants_shape (Q : list Z -> state -> Prop) (s : state) C T :
  tables s = (C, [], T) ->
  (forall Mt s',
      tables s' = (C, Mt, T) ->
      Sqlite.count Mt <= NUM_MERCHANTS ->
      NoDup (map m_document Mt) ->
      Forall (fun m => In (m_category m) CATEGORIES) Mt -> Q (map m_id Mt) s') ->
  wp e generate_merchants Q s.
Proof.
  intros Hs HQ. unfold generate_merchants.
  pose (Inv := fun (visited : list Z) (acc : list Z) (s' : state) =>
                 exists Mt, tables s' = (C, Mt, T) /\ acc = map m_id Mt
                            /\ Sqlite.count Mt <= Sqlite.count visited
                            /\ NoDup (map m_document Mt)
                            /\ Forall (fun m => In (m_category m) CATEGORIES) Mt).
  eapply wp_mono;
    [|apply (wp_for_each e _ Inv (range NUM_MERCHANTS)) with (visited := [])].
  - intros mids s' (Mt & Hs' & -> & Hn & Hd & Hcat).
    simpl in Hn. rewrite count_range in Hn by (unfold NUM_MERCHANTS; lia).
    apply HQ; assumption.
  - clear s Hs. intros visited x acc s (Mt & Hs & -> & Hn & Hd & Hcat). unfold fake.
    apply wp_bind, wp_ask; intros name s1 H1; framed.
    apply wp_bind, wp_random_choice; intros category s2 Hin H2; framed.
    apply wp_bind, wp_ask; intros document s3 H3; framed.
    eapply wp_try_insert_merchant_fresh; [eassumption| |].
    + intros s' Hs'. exists Mt. rewrite count_snoc.
      repeat split; auto. lia.
    + intros id s' Hdoc Hs'. eexists. split; [exact Hs'|].
      rewrite !map_app, !count_snoc.
      repeat split; try (now apply NoDup_snoc); try lia.
      apply Forall_app. split; [exact Hcat|]. constructor; [exact Hin | constructor].
  - exists []. repeat split; try constructor. exact Hs. reflexivity.
Qed.

(** The window of the event times drawn by [generate_transactions] when the
    clock reads [now]. *)
Lemma wp_generate_transactions_shape (customer_ids merchant_ids : list Z)
    (Q : Z -> state -> Prop) (s : state) C Mt T :
  tables s = (C, Mt, T) ->
  (forall bulk s',
      tables s' = (C, Mt, T ++ bulk) ->
      Sqlite.count bulk = NUM_TRANSACTIONS ->
      (NoDup (map t_id T) -> NoDup (map t_id (T ++ bulk))) ->
      Forall (fun t =>
        1000 <= t_amount t <= 500000
        /\ clock e (tick s) - timedelta 90 0 0 0 + timedelta 0 6 0 0
           <= t_transaction_date t
           <= clock e (tick s) + timedelta 0 23 59 59) bulk ->
      Q NUM_TRANSACTIONS s') ->
  wp e (generate_transactions customer_ids merchant_ids) Q s.
Proof.
  intros Hs HQ. unfold generate_transactions.
  apply wp_bind, wp_datetime_now; intros s0 H0; framed.
  set (now := clock e (tick s)) in *.
  pose (Inv := fun (visited : list Z) (acc : Z) (s' : state) =>
    exists bulk,
      tables s' = (C, Mt, T ++ bulk)
      /\ acc = Sqlite.count visited
      /\ Sqlite.count bulk = Sqlite.count visited
      /\ (NoDup (map t_id T) -> NoDup (map t_id (T ++ bulk)))
      /\ Forall (fun t =>
           1000 <= t_amount t <= 500000
           /\ now - timedelta 90 0 0 0 + timedelta 0 6 0 0
              <= t_transaction_date t <= now + timedelta 0 23 59 59) bulk).
  eapply wp_mono;
    [|apply (wp_for_each e _ Inv (range NUM_TRANSACTIONS)) with (visited := [])].
  - intros n s' (bulk & Hs' & -> & Hn & Hnd' & Hall). simpl in *.
    rewrite count_range in * by (unfold NUM_TRANSACTIONS; lia).
    now apply (HQ bulk).
  - clear s0 Ht. intros visited x acc s0 (bulk & Ht & -> & Hn & Hnd' & Hall).
    apply wp_bind, wp_random_choice; intros customer_id s1 Hc H1; framed.
    apply wp_bind, wp_random_choice; intros merchant_id s2 Hm H2; framed.
    apply wp_bind, wp_draw_amount; intros amount s3 Ha H3; framed.
    apply wp_bind, wp_random_choices; intros payment_method s4 Hp H4; framed.
    apply wp_bind, wp_random_choices; intros status s5 Hst H5; framed.
    apply wp_bind, wp_random_randint_bounds; [lia|]; intros days_ago s6 Hd H6; framed.
    apply wp_bind, wp_random_randint_bounds; [lia|]; intros hours s7 Hh H7; framed.
    apply wp_bind, wp_random_randint_bounds; [lia|]; intros minutes s8 Hmi H8; framed.
    apply wp_bind, wp_random_randint_bounds; [lia|]; intros seconds s9 Hse H9; framed.
    apply wp_bind, wp_random_choice; intros description s10 _ H10; framed.
    apply wp_bind. eapply wp_insert_transaction_fresh; [eassumption|].
    intros id s' Hid Hs'. apply wp_ret.
    eexists. split; [rewrite Hs', <- app_assoc; reflexivity|].
    rewrite !count_snoc.
    split; [lia|]. split; [lia|]. split.
    + intros HndT. rewrite app_assoc. rewrite map_app. simpl.
      apply NoDup_snoc; auto.
    + apply Forall_app. split; [exact Hall|]. constructor; [|constructor].
      simpl. unfold timedelta. lia.
  - exists []. rewrite app_nil_r. repeat split; auto.
Qed.

Lemma wp_generate_anomalies_shape (customer_ids merchant_ids : list Z)
    (Q : unit -> state -> Prop) (s : state) C Mt T :
  tables s = (C, Mt, T) ->
  NoDup (map t_id T) ->
  (forall hv burst s',
      tables s' = (C, Mt, T ++ hv :: burst) ->
      NoDup (map t_id (T ++ hv :: burst)) ->
      t_amount hv = 2500000 ->
      Sqlite.count burst = 10 ->
      Forall (fun t => 10000 <= t_amount t <= 50000) burst -> Q tt s') ->
  wp e (generate_anomalies customer_ids merchant_ids) Q s.
Proof.
  intros Hs Hnd HQ. unfold generate_anomalies, datetime_now.
  apply wp_bind, wp_random_choice; intros customer_id s1 Hc H1; framed.
  apply wp_bind, wp_random_choice; intros merchant_id s2 Hm H2; framed.
  apply wp_bind, wp_ask; intros now s3 H3; framed.
  apply wp_bind. eapply wp_insert_transaction_fresh; [eassumption|].
  intros id s4 Hid Hs4.
  apply wp_bind, wp_random_choice; intros cid s5 Hcid H5; framed.
  apply wp_bind, wp_ask; intros now' s6 H6; framed.
  set (hv := {| t_id := id; t_customer_id := customer_id |}) in *.
  pose (Inv := fun (visited : list Z) (_ : unit) (s' : state) =>
                 exists burst, tables s' = (C, Mt, (T ++ [hv]) ++ burst)
                               /\ Sqlite.count burst = Sqlite.count visited
                               /\ NoDup (map t_id ((T ++ [hv]) ++ burst))
                               /\ Forall (fun t => 10000 <= t_amount t <= 50000) burst).
  eapply wp_mono;
    [|apply (wp_for_each e _ Inv (range 10)) with (visited := [])].
  - intros [] s' (burst & Hs' & Hn & Hnd' & Hall).
    rewrite <- app_assoc in Hs', Hnd'.
    apply (HQ hv burst); try assumption; reflexivity.
  - intros visited i acc t0 (burst & Hinv & Hn & Hnd' & Hall).
    apply wp_bind, wp_random_choice; intros mid t1 Hmid G1; framed.
    apply wp_bind, wp_round2_uniform; [lia|]; intros amount t2 Ha G2; framed.
    apply wp_bind, wp_random_choice; intros payment_method t3 Hp G3; framed.
    apply wp_bind. eapply wp_insert_transaction_fresh; [eassumption|].
    intros id' s' Hid' Hs'. apply wp_ret.
    eexists. split; [rewrite Hs', <- app_assoc; reflexivity|].
    rewrite !count_snoc.
    split; [lia|]. split.
    + rewrite app_assoc. rewrite map_app. simpl. now apply NoDup_snoc.
    + apply Forall_app. split; [exact Hall|]. constructor; [|constructor].
      simpl. lia.
  - exists []. rewrite app_nil_r. repeat split; auto.
    rewrite map_app. simpl. now apply NoDup_snoc.
Qed.

Lemma wp_generate_new_data_shape (Q : unit -> state -> Prop) (s : state) :
  tables s = ([], [], []) ->
  (forall s', generated_shape (tables s') -> Q tt s') ->
  wp e generate_new_data Q s.
Proof.
  intros Hs HQ. unfold generate_new_data.
  apply wp_bind. eapply wp_generate_customers_shape; [eassumption|].
  intros C s1 H1 HnC Hem Hdoc.
  apply wp_bind. eapply wp_generate_merchants_shape; [eassumption|].
  intros Mt s2 H2 HnM HdocM Hcat.
  apply wp_bind. eapply wp_generate_transactions_shape; [eassumption|].
  intros bulk s3 H3 Hnb Hndb Hbulk. simpl in H3, Hndb.
  eapply wp_generate_anomalies_shape; [eassumption | apply Hndb; constructor |].
  intros hv burst s4 H4 Hnd4 Hamount Hn10 Hburst.
  apply HQ. rewrite H4. simpl.
  repeat split; try assumption.
  exists bulk, hv, burst. repeat split; try assumption.
  eapply Forall_impl; [|exact Hbulk]. simpl. tauto.
Qed.

Lemma wp_main_try_shape (db : database) :
  wp e main_try
     (fun _ s => let after := committed (conn s) in
                 generated_shape (customers after, merchants after, transactions after))
     {| tick := 0; conn := connect db |}.
Proof.
  unfold main_try.
  apply wp_bind, wp_clear_old_data; intros s1 H1.
  apply wp_bind, wp_generate_new_data_shape; [unfold tables; rewrite H1; reflexivity|].
  intros s2 H2.
  apply wp_bind, wp_commit; intros s3 H3.
  apply wp_print_statistics; intros s4 H4.
  rewrite H4, H3. exact H2.
Qed.

End ShapeFacts.

(** A run of [main] that reports success leaves a store of the generated
    shape. *)
Lemma main_success_shape (e : GenerateData.environment) (db : database) :
  fst (GenerateData.main e db) = GenerateData.Success ->
  let after := snd (GenerateData.main e db) in
  generated_shape (customers after, merchants after, transactions after).
Proof.
  pose proof (wp_main_try_shape e db) as H. unfold wp in H. unfold GenerateData.main.
  destruct (GenerateData.main_try e _) as [[[]|x] s]; simpl; intros Hok;
    [exact H | discriminate].
Qed.

(** ** What a successful run leaves *)

Section SuccessFacts.

Import GenerateData.

(** X14.  After a run of [main] that reports success the store holds
    exactly 10011 transactions (the 10000 requested and the 11 injected),
    between 1 and 500 customers, and between 1 and 50 merchants, each of a
    category of the fixed list; and it satisfies every [PRIMARY KEY] and
    [UNIQUE] constraint of the schema. *)
Theorem main_success_store (e : environment) (db : database) :
  fst (main e db) = Success ->
  let after := snd (main e db) in
  Sqlite.count (transactions after) = NUM_TRANSACTIONS + 11
  /\ 1 <= Sqlite.count (customers after) <= NUM_CUSTOMERS
  /\ 1 <= Sqlite.count (merchants after) <= NUM_MERCHANTS
  /\ Forall (fun m => In (m_category m) CATEGORIES) (merchants after)
  /\ NoDup (map c_id (customers after))
  /\ NoDup (map c_email (customers after))
  /\ NoDup (map c_document (customers after))
  /\ NoDup (map m_id (merchants after))
  /\ NoDup (map m_document (merchants after))
  /\ NoDup (map t_id (transactions after)).
Proof.
  intros Hok. cbv zeta.
  pose proof (main_success_shape e db Hok) as Hshape.
  pose proof (main_success_generated e db Hok) as Hgen.
  cbv zeta in Hshape. unfold generated_shape in Hshape.
  unfold generated, generated_tables in Hgen.
  destruct Hshape as (HnC & HnM & Hem & Hdoc & HdocM & Hcat & HndT
                      & bulk & hv & burst & HT & Hnb & Hn10 & _).
  destruct Hgen as (bulk' & hv' & cid & base_time & burst' & HT' & Hall & _ & Hcid & _
                    & HndC & HndM).
  assert (HC1 : 1 <= Sqlite.count (customers (snd (main e db)))).
  { unfold Sqlite.count. destruct (customers (snd (main e db))); [contradiction|].
    cbn [List.length]. lia. }
  assert (HM1 : 1 <= Sqlite.count (merchants (snd (main e db)))).
  { rewrite Forall_forall in Hall.
    assert (Hhv : In hv' (transactions (snd (main e db)))).
    { rewrite HT'. apply in_or_app. right. now left. }
    destruct (Hall hv' Hhv) as (_ & Hm & _).
    unfold Sqlite.count. destruct (merchants (snd (main e db))); [contradiction|].
    cbn [List.length]. lia. }
  repeat split; try assumption; try lia.
  rewrite HT, count_app. unfold Sqlite.count at 2. cbn [List.length].
  unfold Sqlite.count in *. lia.
Qed.






End SuccessFacts.

(** ** The provisioner again: its script and its views *)

Section ProvisionerFacts.

Import SetupDatabase.

(** X17.  The script of [create_database] cannot be run twice on the same
    file: on a database that already has the three tables and an index
    named [idx_transaction_date], the first [CREATE INDEX] raises an
    exception and nothing is changed.  Removing the file first is what
    makes provisioning repeatable. *)
Theorem statements_fail_on_provisioned (db : database) :
  existsb (fun o => named "customers" o && negb (is_index o)) (schema db) = true ->
  existsb (fun o => named "merchants" o && negb (is_index o)) (schema db) = true ->
  existsb (fun o => named "transactions" o && negb (is_index o)) (schema db) = true ->
  existsb (named "idx_transaction_date") (schema db) = true ->
  execute_all statements db = (Raise OperationalError, db).
Proof.
  intros Hc Hm Ht Hi. unfold statements.
  cbn [execute_all]. unfold execute at 1. unfold create_if_not_exists. rewrite Hc.
  cbn [execute_all]. unfold execute at 1. unfold create_if_not_exists. rewrite Hm.
  cbn [execute_all]. unfold execute at 1. unfold create_if_not_exists. rewrite Ht.
  cbn [execute_all]. unfold execute at 1. rewrite Hi. reflexivity.
Qed.

Lemma statements_fail_on_provisioned_witness :
  execute_all statements provisioned = (Raise OperationalError, provisioned).
Proof.
  apply (statements_fail_on_provisioned provisioned); reflexivity.
Defined.

(** *** The view [merchant_performance] *)








(** The view on the sample store reduced to three transactions: two
    merchants without transactions, with NULL aggregates. *)
Example merchant_performance_sample :
  map (fun r => (mp_name r, mp_total_transactions r, mp_total_volume r, mp_approval_rate r))
      (merchant_performance one_in_three)
  = [("Mercado Sol", 0, None, None); ("Padaria Lua", 0, None, None);
     ("Mercado Mar", 3, Some 191999, Some 3333)].
Proof. reflexivity. Qed.

(** *** The view [daily_summary] *)

(** X19.  The view [daily_summary] has one row per day, in strictly
    descending order of date, over all transactions: the row counts add up
    to the number of transactions, and the volume of a row is the sum of the
    amounts of that day whatever their status. *)
Theorem daily_summary_spec (db : database) :
  let rows := daily_summary db in
  strictly_desc dv_date rows
  /\ Sqlite.total (map dv_total_transactions rows) = Sqlite.count (transactions db)
  /\ Sqlite.total (map dv_total_volume rows) = Sqlite.total (map t_amount (transactions db))
  /\ Forall (fun r =>
       dv_total_volume r
       = Sqlite.total (map t_amount
           (filter (fun t => DATE (t_transaction_date t) =? dv_date r) (transactions db)))
       /\ 0 <= dv_approved_count r /\ 0 <= dv_declined_count r
       /\ dv_approved_count r + dv_declined_count r <= dv_total_transactions r) rows.
Proof.
  cbv zeta. unfold daily_summary. split; [|split; [|split]].
  - apply sorted_desc_strict; [apply order_by_desc_sorted|].
    eapply Permutation_NoDup;
      [apply Permutation_map, Permutation_sym, order_by_desc_perm|].
    rewrite map_map. cbn [daily_summary_of_group dv_date].
    rewrite (group_by_keys Z.eqb (fun t => DATE (t_transaction_date t))).
    apply (distinct_by_NoDup Z.eqb _ Z.eqb_eq).
  - rewrite total_order_by_desc, map_map.
    cbn [daily_summary_of_group dv_total_transactions].
    apply (group_by_count Z.eqb _ Z.eqb_eq).
  - rewrite total_order_by_desc, map_map.
    cbn [daily_summary_of_group dv_total_volume].
    apply (group_by_partition Z.eqb _ Z.eqb_eq).
  - apply Forall_forall. intros r Hr.
    apply order_by_desc_In, in_map_iff in Hr. destruct Hr as (g & <- & Hg).
    apply (group_by_In Z.eqb) in Hg. destruct Hg as [_ Hg].
    cbn [daily_summary_of_group dv_total_volume dv_date dv_approved_count
         dv_declined_count dv_total_transactions].
    split; [now rewrite Hg|].
    split; [apply total_nonneg; intros t _; destruct (String.eqb _ _); lia|].
    split; [apply total_nonneg; intros t _; destruct (String.eqb _ _); lia|].
    rewrite <- total_pointwise_add, count_total. apply total_le. intros t _.
    destruct (String.eqb (t_status t) "approved") eqn:Ha;
      destruct (String.eqb (t_status t) "declined") eqn:Hd; try lia.
    apply String.eqb_eq in Ha, Hd. congruence.
Qed.

End ProvisionerFacts.

(** ** The statistics, and the tools in sequence *)

Section PipelineFacts.

Import GenerateData.




(** X21.  Provisioning and then generating, without storage faults, from
    whatever file was there: both succeed, the store keeps the provisioned
    schema, and the KPI snapshot of the result reports 10011 transactions,
    an approved volume, an average ticket and an approval rate that are not
    NULL. *)
Theorem provision_then_generate (file : option database) (e : environment) :
  no_storage_fault e ->
  exists db,
    SetupDatabase.create_database file = (Ok tt, Some db)
    /\ fst (main e db) = Success
    /\ schema (snd (main e db)) = schema provisioned
    /\ Database.kpi_total_transactions (Database.get_kpis (snd (main e db)))
       = NUM_TRANSACTIONS + 11
    /\ Database.kpi_total_volume (Database.get_kpis (snd (main e db))) <> None
    /\ Database.kpi_avg_ticket (Database.get_kpis (snd (main e db))) <> None
    /\ Database.kpi_approval_rate (Database.get_kpis (snd (main e db))) <> None.
Proof.
  intros Hq. exists provisioned.
  assert (Hrun : SetupDatabase.create_database file = (Ok tt, Some provisioned)).
  { destruct file; vm_compute; reflexivity. }
  pose proof (quiet_main_succeeds e provisioned Hq) as Hok.
  pose proof (main_success_shape e provisioned Hok) as Hshape.
  cbv zeta in Hshape. unfold generated_shape in Hshape.
  destruct Hshape as (_ & _ & _ & _ & _ & _ & _
                      & bulk & hv & burst & HT & Hnb & Hn10 & _).
  pose proof (main_schema e provisioned) as Hschema.
  assert (Hcount : Sqlite.count (transactions (snd (main e provisioned)))
                   = NUM_TRANSACTIONS + 11).
  { rewrite HT, count_app. unfold Sqlite.count at 2. cbn [List.length].
    unfold Sqlite.count in *. lia. }
  split; [exact Hrun|]. split; [exact Hok|]. split; [exact Hschema|].
  unfold Database.get_kpis.
  cbn [Database.kpi_total_transactions Database.kpi_total_volume
       Database.kpi_avg_ticket Database.kpi_approval_rate].
  split; [exact Hcount|].
  destruct (transactions (snd (main e provisioned))) as [|t ts] eqn:Hts.
  { exfalso. destruct bulk; discriminate. }
  repeat split; discriminate.
Qed.

Lemma provision_then_generate_witness :
  exists db,
    SetupDatabase.create_database (Some sample_store) = (Ok tt, Some db)
    /\ fst (main quiet_environment db) = Success
    /\ schema (snd (main quiet_environment db)) = schema provisioned
    /\ Database.kpi_total_transactions
         (Database.get_kpis (snd (main quiet_environment db)))
       = NUM_TRANSACTIONS + 11
    /\ Database.kpi_total_volume
         (Database.get_kpis (snd (main quiet_environment db))) <> None
    /\ Database.kpi_avg_ticket
         (Database.get_kpis (snd (main quiet_environment db))) <> None
    /\ Database.kpi_approval_rate
         (Database.get_kpis (snd (main quiet_environment db))) <> None.
Proof.
  apply (provision_then_generate (Some sample_store) quiet_environment).
  intros k. reflexivity.
Defined.

End PipelineFacts.

(** ** Witnesses on a complete run *)

Section SuccessWitnesses.

Import GenerateData.

Lemma main_success_store_witness :
  let after := snd (main quiet_environment one_in_three) in
  Sqlite.count (transactions after) = NUM_TRANSACTIONS + 11
  /\ 1 <= Sqlite.count (customers after) <= NUM_CUSTOMERS
  /\ 1 <= Sqlite.count (merchants after) <= NUM_MERCHANTS
  /\ Forall (fun m => In (m_category m) CATEGORIES) (merchants after)
  /\ NoDup (map c_id (customers after))
  /\ NoDup (map c_email (customers after))
  /\ NoDup (map c_document (customers after))
  /\ NoDup (map m_id (merchants after))
  /\ NoDup (map m_document (merchants after))
  /\ NoDup (map t_id (transactions after)).
Proof.
  apply (main_success_store quiet_environment one_in_three).
  vm_compute. reflexivity.
Defined.


End SuccessWitnesses.
